(** * gpx-poster: activity ingestion, metrics and segmentation

    A shallow embedding of the data-processing core of the repository:

    - [src/utils/gpxParser.ts], [src/utils/tcxParser.ts] and the FIT adapter
      (format adapters and the geodesic distance);
    - [src/utils/dataProcessor.ts] (metrics engine and segmentation engine).

    Number model.  JavaScript numbers are IEEE doubles.  The great-circle
    formula needs [sin], [cos], [sqrt] and [atan2], so it is embedded over
    the real numbers (module [Haversine]).  Everything else is embedded over
    exact rationals [Q], which keeps the engine executable; rounding is not
    modelled.  The places where the source can produce a non-finite number
    (a failed [parseFloat], a division by zero, the distance from or to a
    point with a coordinate that is not finite) are modelled explicitly with
    the type [jsnum]. *)

From Stdlib Require Import Reals Lra.
From Stdlib Require Import String.
From Stdlib Require Import QArith Qminmax Qround Qreals ZArith Lia Bool List.
From Stdlib Require Import Sorting.Permutation Sorting.Sorted.
Import ListNotations.

(* ================================================================= *)
(** ** Geodesic distance ([haversineDistance], gpxParser.ts l.120-133) *)
(* ================================================================= *)

Module Haversine.
Local Open Scope R_scope.

(** The two fields of [Point] that [haversineDistance] reads, in degrees. *)
Record Point : Type := mkPoint { lat : R; lng : R }.

(** [Math.atan2 (y, x)] on finite arguments (signed zeros are not
    distinguished over the reals). *)
Definition atan2 (y x : R) : R :=
  match total_order_T 0 x with
  | inleft (left _) => atan (y / x)
  | inleft (right _) =>
      match total_order_T 0 y with
      | inleft (left _) => PI / 2
      | inleft (right _) => 0
      | inright _ => - (PI / 2)
      end
  | inright _ =>
      if Rle_dec 0 y then atan (y / x) + PI else atan (y / x) - PI
  end.

(** [const R = 6371000]. *)
Definition earthRadius : R := 6371000.

(** The intermediate [a] of the source. *)
Definition haversineA (p1 p2 : Point) : R :=
  let phi1 := (lat p1 * PI) / 180 in
  let phi2 := (lat p2 * PI) / 180 in
  let dphi := ((lat p2 - lat p1) * PI) / 180 in
  let dlambda := ((lng p2 - lng p1) * PI) / 180 in
  sin (dphi / 2) * sin (dphi / 2)
  + cos phi1 * cos phi2 * sin (dlambda / 2) * sin (dlambda / 2).

Definition haversineDistance (p1 p2 : Point) : R :=
  let a := haversineA p1 p2 in
  let c := 2 * atan2 (sqrt a) (sqrt (1 - a)) in
  earthRadius * c.

End Haversine.

(* ================================================================= *)
(** ** JavaScript values *)
(* ================================================================= *)

Open Scope Q_scope.

(** A JavaScript number that may fail to be finite. *)
Inductive jsnum : Type :=
| Fin (q : Q)
| PosInf
| NegInf
| NaN.

Definition isNaN (x : jsnum) : bool :=
  match x with NaN => true | _ => false end.

(** [x < y] on finite numbers. *)
Definition Qlt_bool (x y : Q) : bool := negb (Qle_bool y x).

(** [x / y] on finite operands: a zero divisor gives an infinity or [NaN]. *)
Definition jsdiv (x y : Q) : jsnum :=
  if Qeq_bool y 0 then
    if Qeq_bool x 0 then NaN
    else if Qlt_bool 0 x then PosInf else NegInf
  else Fin (x / y).

(** [Math.min] and [Math.max]. *)
Definition jsmin (a b : jsnum) : jsnum :=
  match a, b with
  | NaN, _ | _, NaN => NaN
  | NegInf, _ | _, NegInf => NegInf
  | PosInf, x | x, PosInf => x
  | Fin p, Fin q => Fin (Qmin p q)
  end.

Definition jsmax (a b : jsnum) : jsnum :=
  match a, b with
  | NaN, _ | _, NaN => NaN
  | PosInf, _ | _, PosInf => PosInf
  | NegInf, x | x, NegInf => x
  | Fin p, Fin q => Fin (Qmax p q)
  end.



(** Truthiness of an optional number: [undefined] and [0] are falsy. *)
Definition truthy (v : option Q) : bool :=
  match v with
  | Some q => negb (Qeq_bool q 0)
  | None => false
  end.

(** [a || b] on optional numbers. *)
Definition jsOr (a b : option Q) : option Q := if truthy a then a else b.

(** [v || 0]. *)
Definition orZero (v : option Q) : Q :=
  match v with
  | Some q => if Qeq_bool q 0 then 0 else q
  | None => 0
  end.

(** [l.slice (a, b)] for indices within the array. *)
Definition slice {A : Type} (l : list A) (a b : nat) : list A :=
  firstn (b - a) (skipn a l).

(* ================================================================= *)
(** ** Data model ([src/types/activity.ts]) *)
(* ================================================================= *)

(** [time] is the [Date] as milliseconds since the epoch ([getTime ()]). *)
Record Point : Type := mkPoint {
  lat : jsnum;
  lng : jsnum;
  ele : option Q;
  time : option Z;
  hr : option Q;
  cadence : option Q;
  power : option Q;
  temp : option Q
}.

(** [ProcessedPoint extends Point]: [point] is the spread [...curr]. *)
Record ProcessedPoint : Type := mkProcessedPoint {
  point : Point;
  distance : Q;
  pace : Q;
  grade : Q;
  speed : Q;
  normalizedHR : option Q;
  normalizedPace : option Q;
  normalizedPower : option Q
}.

Module Split.
Record t : Type := mk {
  index : nat;
  distance : Q;
  time : Q;
  pace : Q;
  elevationGain : Q;
  averageHR : option Q
}.
End Split.

(** The two template strings of [Segment.description], kept as their
    arguments. *)
Inductive Description : Type :=
| ClimbDescription (gradePercent : Q) (km : Q)
| MaxHRDescription (bpm : Q).

Module Segment.
Record t : Type := mk {
  startIndex : nat;
  endIndex : nat;
  distance : Q;
  grade : Q;
  description : Description
}.
End Segment.

Record Bounds : Type := mkBounds {
  minLat : jsnum;
  maxLat : jsnum;
  minLng : jsnum;
  maxLng : jsnum
}.

Module Activity.
Record t : Type := mk {
  name : option string;
  date : option Z;
  points : list Point;
  totalDistance : Q;
  totalElevationGain : Q;
  totalTime : Q;
  averagePace : jsnum;
  averageHR : option Q;
  maxHR : option Q;
  bounds : Bounds
}.
End Activity.

Module ProcessedActivity.
Record t : Type := mk {
  activity : Activity.t;
  processedPoints : list ProcessedPoint;
  splits : list Split.t;
  fastestSplit : option Split.t;
  steepestClimb : option Segment.t;
  maxHRSegment : option Segment.t
}.
End ProcessedActivity.

(* ================================================================= *)
(** ** Adapter inputs and results *)
(* ================================================================= *)

(** [throw new Error (message)]. *)
Inductive ParseError : Type := Error (message : string).

Definition Result : Type := (ParseError + Activity.t)%type.

(** The object the three [calculate...] functions return. *)
Module Metrics.
Record t : Type := mk {
  totalDistance : Q;
  totalElevationGain : Q;
  totalTime : Q;
  averagePace : jsnum;
  averageHR : option Q;
  maxHR : option Q;
  bounds : Bounds
}.
End Metrics.

(** The GeoJSON that [togeojson] returns for a GPX document. *)
Module Gpx.
(** A GeoJSON position [[lng, lat, ele]] as [togeojson] returns it. *)
Record Coord : Type := mkCoord { c0 : jsnum; c1 : jsnum; c2 : option Q }.

Inductive Geometry : Type :=
| LineString (coordinates : list Coord)
| MultiLineString (coordinates : list (list Coord))
| OtherGeometry.

(** [name] and [time] are [None] when the property is absent or falsy;
    [coordTimes] is [[]] when the property is absent, and an entry is
    [None] when it is missing or falsy. *)
Record Feature : Type := mkFeature {
  geometry : Geometry;
  name : option string;
  time : option Z;
  coordTimes : list (option Z)
}.
End Gpx.

(** The tree that [fast-xml-parser] returns for a TCX document.  Numeric
    text is a number already; [Position] holds the two [parseFloat] results
    of [LatitudeDegrees] and [LongitudeDegrees]. *)
Module Tcx.
Record Trackpoint : Type := mkTrackpoint {
  Position : option (jsnum * jsnum);
  AltitudeMeters : option Q;
  Time : option Z;
  HeartRateBpm : option Q;
  Cadence : option Q;
  ExtensionsWatts : option Q;
  Watts : option Q
}.

(** [Track] is [lap.Track.Trackpoint] as an array, [None] when either level
    is missing. *)
Record Lap : Type := mkLap {
  Track : option (list Trackpoint);
  DistanceMeters : option Q;
  TotalTimeSeconds : option Q
}.

(** [Lap] is [None] when the activity has no [Lap] member, else the laps as
    an array. *)
Record Activity : Type := mkActivity {
  Sport : option string;
  Id : option Z;
  Laps : option (list Lap)
}.
End Tcx.

(** The messages that the FIT decoder returns. *)
Module Fit.
Record Session : Type := mkSession {
  startTime : option Z;
  sport : option string;
  totalDistance : option Q;
  totalAscent : option Q;
  totalElapsedTime : option Q;
  totalTimerTime : option Q;
  avgHeartRate : option Q;
  maxHeartRate : option Q
}.

Record SportMesg : Type := mkSportMesg {
  name : option string;
  sportField : option string
}.

Record RecordMesg : Type := mkRecordMesg {
  positionLat : option Q;
  position_lat : option Q;
  enhancedLatitude : option Q;
  positionLong : option Q;
  position_long : option Q;
  enhancedLongitude : option Q;
  altitude : option Q;
  enhancedAltitude : option Q;
  enhanced_altitude : option Q;
  timestamp : option Z;
  heartRate : option Q;
  heart_rate : option Q;
  cadence : option Q;
  power : option Q;
  temperature : option Q
}.

Record Messages : Type := mkMessages {
  sessionMesgs : list Session;
  sportMesgs : list SportMesg;
  recordMesgs : list RecordMesg
}.

(** What the decoder answers to its two calls. *)
Record Decoder : Type := mkDecoder {
  checkIntegrity : bool;
  read : Messages
}.

(** The calls made on the decoder, in order. *)
Inductive Call : Type := CheckIntegrity | Read.
End Fit.

(** The [Achievement] interface of [src/utils/achievementDetector.ts]. *)
Module Achievement.
Inductive Category : Type :=
  distance | speed | elevation | endurance | consistency.

Inductive Rarity : Type := common | rare | epic | legendary.

Record t : Type := mk {
  id : string;
  title : string;
  description : string;
  icon : string;
  category : Category;
  rarity : Rarity;
  value : option jsnum;
  unit : option string;
  isPersonalRecord : option bool
}.
End Achievement.

(* ================================================================= *)
(** ** Metrics and segmentation engines ([src/utils/dataProcessor.ts]) *)
(* ================================================================= *)

Section Core.

(** The geodesic distance between two points whose coordinates are finite,
    as a number.  Module [Haversine] gives the formula over the reals;
    [haversineNumber] below gives what the source returns for any pair of
    points, [NaN] included. *)
Variable haversineDistance : Point -> Point -> Q.

(** *** [smoothValue] (l.63-88)

    [field] is the getter of the smoothed field.  An index outside
    [points] is skipped; at both call sites [points.length = index], so the
    loop only reads indices below the length. *)
Definition smoothValue (points : list ProcessedPoint) (index : nat)
    (field : ProcessedPoint -> Q) (value : Q) (windowSize : nat) : Q :=
  let halfWindow := (windowSize / 2)%nat in
  let start := Nat.max 0 (index - halfWindow) in
  let end_ := Nat.min (length points) (index + halfWindow) in
  if (Z.of_nat end_ - Z.of_nat start =? 0)%Z then value
  else
    let '(sum, count) :=
      fold_left
        (fun (acc : Q * nat) (i : nat) =>
           match nth_error points i with
           | Some p => (fst acc + field p, S (snd acc))
           | None => acc
           end)
        (seq start (index - start)) (value, 1%nat) in
    sum / inject_Z (Z.of_nat count).

(** *** [computeMetrics] (l.28-61) *)

(** The constants of one loop iteration (l.36-49). *)
Record RawMetrics : Type := mkRawMetrics {
  segmentDistance : Q;
  rawSpeed : Q;
  rawPace : Q;
  rawGrade : Q
}.

Definition rawMetrics (i : nat) (prev curr : Point) : RawMetrics :=
  let segmentDistance :=
    if (0 <? i)%nat then haversineDistance prev curr else 0 in
  let timeDelta :=
    match time curr, time prev with
    | Some tc, Some tp => inject_Z (tc - tp) / 1000
    | _, _ => 1
    end in
  let speed := if Qlt_bool 0 timeDelta then segmentDistance / timeDelta else 0 in
  let pace := if Qlt_bool 0 speed then 1000 / (speed * 60) else 0 in
  let elevationDelta :=
    match ele curr, ele prev with
    | Some ec, Some ep =>
        if truthy (Some ec) && truthy (Some ep) then ec - ep else 0
    | _, _ => 0
    end in
  let grade :=
    if Qlt_bool 0 segmentDistance
    then (elevationDelta / segmentDistance) * 100 else 0 in
  mkRawMetrics segmentDistance speed pace grade.

(** [points[i - 1]] when [i > 0], else [curr]. *)
Definition prevPoint (points : list Point) (i : nat) (curr : Point) : Point :=
  if (0 <? i)%nat then nth (i - 1) points curr else curr.

(** One iteration of the loop; the state is [(processed, cumulativeDistance)]. *)
Definition computeMetrics_step (points : list Point)
    (st : list ProcessedPoint * Q) (i : nat) : list ProcessedPoint * Q :=
  match nth_error points i with
  | None => st
  | Some curr =>
      let processed := fst st in
      let prev := prevPoint points i curr in
      let m := rawMetrics i prev curr in
      let cumulativeDistance := snd st + segmentDistance m in
      (processed ++
         [ mkProcessedPoint curr cumulativeDistance
             (smoothValue processed i pace (rawPace m) 10)
             (smoothValue processed i grade (rawGrade m) 5)
             (rawSpeed m) None None None ],
       cumulativeDistance)
  end.

(** The loop after its first [k] iterations. *)
Definition computeMetrics_upto (points : list Point) (k : nat)
  : list ProcessedPoint * Q :=
  fold_left (computeMetrics_step points) (seq 0 k) ([], 0).

Definition computeMetrics (points : list Point) : list ProcessedPoint :=
  fst (computeMetrics_upto points (length points)).

(** *** The cumulative distance as a JavaScript number (l.30-37, l.51)

    [haversineDistance] takes [Math.sin] and [Math.cos] of the coordinates
    and of their differences.  When a coordinate of either point is not
    finite these are [NaN], and [NaN] goes through the products,
    [Math.sqrt], [Math.atan2] and the final product: the distance is [NaN].
    On finite coordinates it is the number [haversineDistance]. *)
Definition finiteCoords (p : Point) : bool :=
  match lat p, lng p with
  | Fin _, Fin _ => true
  | _, _ => false
  end.

Definition haversineNumber (p1 p2 : Point) : jsnum :=
  if finiteCoords p1 && finiteCoords p2
  then Fin (haversineDistance p1 p2) else NaN.




(** Every point after the first is at a non-negative distance, a number,
    from its predecessor. *)
Definition numberDistances (points : list Point) : Prop :=
  forall i prev curr,
    nth_error points i = Some prev -> nth_error points (S i) = Some curr ->
    exists d, haversineNumber prev curr = Fin d /\ 0 <= d.

(** *** [percentile] and [normalize] (l.116-125) *)

Fixpoint insertSorted (x : Q) (l : list Q) : list Q :=
  match l with
  | [] => [x]
  | y :: l' => if Qle_bool x y then x :: l else y :: insertSorted x l'
  end.

(** [[...values].sort ((a, b) => a - b)]: ascending and stable. *)
Definition sortAscending (values : list Q) : list Q :=
  fold_right insertSorted [] values.

(** [Math.floor (sorted.length * p)]. *)
Definition percentileIndex (n : nat) (p : Q) : nat :=
  Z.to_nat (Qfloor (inject_Z (Z.of_nat n) * p)).

Definition percentile (values : list Q) (p : Q) : Q :=
  let sorted := sortAscending values in
  let index := percentileIndex (length sorted) p in
  orZero (nth_error sorted index).

Definition normalize (value min max : Q) : Q :=
  if Qeq_bool max min then 1 # 2
  else Qmax 0 (Qmin 1 ((value - min) / (max - min))).

(** *** [normalizeMetrics] (l.90-114) *)

(** [.filter (h => h !== undefined)] after a [.map]. *)
Fixpoint definedValues (l : list (option Q)) : list Q :=
  match l with
  | [] => []
  | Some v :: l' => v :: definedValues l'
  | None :: l' => definedValues l'
  end.

Definition pacePopulation (points : list ProcessedPoint) : list Q :=
  filter (fun p => Qlt_bool 0 p) (map pace points).

Definition hrPopulation (points : list ProcessedPoint) : list Q :=
  definedValues (map (fun p => hr (point p)) points).

Definition powerPopulation (points : list ProcessedPoint) : list Q :=
  definedValues (map (fun p => power (point p)) points).

(** [values.length > 0 ? percentile (values, p) : 0]. *)
Definition guardedPercentile (values : list Q) (p : Q) : Q :=
  if (0 <? length values)%nat then percentile values p else 0.

(** [raw ? normalize (raw, p5, p95) : undefined]. *)
Definition normalizeOptional (raw : option Q) (p5 p95 : Q) : option Q :=
  match raw with
  | Some v => if truthy (Some v) then Some (normalize v p5 p95) else None
  | None => None
  end.

Definition normalizeMetrics (points : list ProcessedPoint)
  : list ProcessedPoint :=
  let paces := pacePopulation points in
  let hrs := hrPopulation points in
  let powers := powerPopulation points in
  let paceP5 := percentile paces (5 # 100) in
  let paceP95 := percentile paces (95 # 100) in
  let hrP5 := guardedPercentile hrs (5 # 100) in
  let hrP95 := guardedPercentile hrs (95 # 100) in
  let powerP5 := guardedPercentile powers (5 # 100) in
  let powerP95 := guardedPercentile powers (95 # 100) in
  map (fun p =>
         mkProcessedPoint (point p) (distance p) (pace p) (grade p) (speed p)
           (normalizeOptional (hr (point p)) hrP5 hrP95)
           (Some (normalize (pace p) paceP5 paceP95))
           (normalizeOptional (power (point p)) powerP5 powerP95))
      points.

(** *** [detectSplits] (l.127-176) *)

(** [(end - start) / 1000] when both dates are present, else [0]. *)
Definition splitTimeOf (splitPoints : list ProcessedPoint) : Q :=
  match splitPoints with
  | [] => 0
  | first :: _ =>
      match time (point first), time (point (last splitPoints first)) with
      | Some startTime, Some endTime => inject_Z (endTime - startTime) / 1000
      | _, _ => 0
      end
  end.

Definition avgPaceOf (splitPoints : list ProcessedPoint) : Q :=
  fold_left (fun sum p => sum + pace p) splitPoints 0
  / inject_Z (Z.of_nat (length splitPoints)).

Definition avgHROf (splitPoints : list ProcessedPoint) : Q :=
  fold_left (fun sum p => sum + orZero (hr (point p))) splitPoints 0
  / inject_Z (Z.of_nat (length splitPoints)).

(** The term added for one point and its predecessor (l.157). *)
Definition climbBetween (prev p : ProcessedPoint) : Q :=
  match ele (point p), ele (point prev) with
  | Some e, Some e0 =>
      if truthy (Some e) && truthy (Some e0) && Qlt_bool e0 e then e - e0 else 0
  | _, _ => 0
  end.

(** The [reduce] of l.153-159; the state carries [splitPoints[idx - 1]]. *)
Definition elevGainOf (splitPoints : list ProcessedPoint) : Q :=
  fst (fold_left
         (fun (acc : Q * option ProcessedPoint) p =>
            match snd acc with
            | None => (fst acc, Some p)
            | Some prev => (fst acc + climbBetween prev p, Some p)
            end)
         splitPoints (0, None)).

(** The object pushed at l.161-168. *)
Definition makeSplit (index : nat) (currentSplitDistance : Q)
    (splitPoints : list ProcessedPoint) : Split.t :=
  let avgHR := avgHROf splitPoints in
  Split.mk index currentSplitDistance (splitTimeOf splitPoints)
    (avgPaceOf splitPoints) (elevGainOf splitPoints)
    (if Qlt_bool 0 avgHR then Some avgHR else None).

(** Loop state: [splits], [currentSplitStart], [currentSplitDistance]. *)
Definition SplitState : Type := (list Split.t * nat * Q)%type.

Definition detectSplits_step (points : list ProcessedPoint) (splitDistance : Q)
    (st : SplitState) (i : nat) : SplitState :=
  let '(splits, currentSplitStart, currentSplitDistance) := st in
  match nth_error points i, nth_error points (i - 1) with
  | Some pi, Some pj =>
      let segmentDistance := distance pi - distance pj in
      let currentSplitDistance := currentSplitDistance + segmentDistance in
      if Qle_bool splitDistance currentSplitDistance then
        let splitPoints := slice points currentSplitStart (i + 1) in
        (splits ++ [makeSplit (length splits) currentSplitDistance splitPoints],
         i, 0)
      else (splits, currentSplitStart, currentSplitDistance)
  | _, _ => st
  end.

(** The loop after the iterations [i = 1 .. k]. *)
Definition detectSplits_upto (points : list ProcessedPoint) (splitDistance : Q)
    (k : nat) : SplitState :=
  fold_left (detectSplits_step points splitDistance) (seq 1 k) ([], 0%nat, 0).

Definition detectSplits (points : list ProcessedPoint) (splitDistance : Q)
  : list Split.t :=
  fst (fst (detectSplits_upto points splitDistance (length points - 1))).

(** *** [findFastestSplit] (l.178-183) *)
Definition findFastestSplit (splits : list Split.t) : option Split.t :=
  match splits with
  | [] => None
  | first :: rest =>
      Some (fold_left
              (fun fastest split =>
                 if Qlt_bool (Split.pace split) (Split.pace fastest)
                 then split else fastest)
              rest first)
  end.

(** *** [findSteepestClimb] (l.185-228) *)

(** Loop state: [maxGrade], [steepest]. *)
Definition ClimbState : Type := (Q * option Segment.t)%type.

(** The inner [while] from index [j] on; [rest] is [points] from [j]. *)
Fixpoint climbScan (minDistance : Q) (pi : ProcessedPoint) (i j : nat)
    (rest : list ProcessedPoint) (segmentDistance : Q) (st : ClimbState)
  : ClimbState :=
  match rest with
  | [] => st
  | pj :: rest' =>
      if Qlt_bool segmentDistance (minDistance * 2) then
        let segmentDistance := distance pj - distance pi in
        let st' :=
          match ele (point pj), ele (point pi) with
          | Some ej, Some ei =>
              if truthy (Some ej) && truthy (Some ei) then
                let elevGain := ej - ei in
                if Qlt_bool 0 elevGain then
                  let grade := (elevGain / segmentDistance) * 100 in
                  if Qle_bool minDistance segmentDistance
                     && Qlt_bool (fst st) grade
                  then (grade,
                        Some (Segment.mk i j segmentDistance grade
                                (ClimbDescription grade
                                   (segmentDistance / 1000))))
                  else st
                else st
              else st
          | _, _ => st
          end in
        climbScan minDistance pi i (S j) rest' segmentDistance st'
      else st
  end.

Definition findSteepestClimb (points : list ProcessedPoint) (minDistance : Q)
  : option Segment.t :=
  snd (fold_left
         (fun (st : ClimbState) (i : nat) =>
            match nth_error points i with
            | Some pi =>
                climbScan minDistance pi i (i + 1) (skipn (i + 1) points) 0 st
            | None => st
            end)
         (seq 0 (length points - 1)) (0, None)).

(** *** [findMaxHRSegment] (l.230-254) *)

(** One iteration of the search; the state is [(maxHR, maxHRIndex)]. *)
Definition findMaxHR_step (points : list ProcessedPoint) (st : Q * Z) (i : nat)
  : Q * Z :=
  match nth_error points i with
  | Some p =>
      match hr (point p) with
      | Some h =>
          if truthy (Some h) && Qlt_bool (fst st) h
          then (h, Z.of_nat i) else st
      | None => st
      end
  | None => st
  end.

Definition findMaxHR (points : list ProcessedPoint) : Q * Z :=
  fold_left (findMaxHR_step points) (seq 0 (length points)) (0, (-1)%Z).

Definition findMaxHRSegment (points : list ProcessedPoint)
  : option Segment.t :=
  let '(maxHR, maxHRIndex) := findMaxHR points in
  if (maxHRIndex =? -1)%Z then None
  else
    let windowSize := 30%Z in
    let start := Z.to_nat (Z.max 0 (maxHRIndex - windowSize)) in
    let end_ :=
      Z.to_nat (Z.min (Z.of_nat (length points) - 1)
                      (maxHRIndex + windowSize)) in
    (* [start] and [end_] are valid indices whenever [maxHRIndex] is one *)
    match nth_error points end_, nth_error points start with
    | Some pe, Some ps =>
        Some (Segment.mk start end_ (distance pe - distance ps) 0
                (MaxHRDescription maxHR))
    | _, _ => None
    end.

(** *** [processActivity] (l.10-26) *)
Definition processActivity (activity : Activity.t) : ProcessedActivity.t :=
  let processedPoints := computeMetrics (Activity.points activity) in
  let normalizedPoints := normalizeMetrics processedPoints in
  let splits := detectSplits normalizedPoints 1000 in
  let fastestSplit := findFastestSplit splits in
  let steepestClimb := findSteepestClimb normalizedPoints 100 in
  let maxHRSegment := findMaxHRSegment normalizedPoints in
  ProcessedActivity.mk activity normalizedPoints splits fastestSplit
    steepestClimb maxHRSegment.

(* ================================================================= *)
(** ** Format adapters *)
(* ================================================================= *)

(** [parseInt] of a finite number: the integer part, towards zero. *)
Definition parseIntQ (q : Q) : Q := inject_Z (Z.quot (Qnum q) (Zpos (Qden q))).

(** [v ? f (v) : undefined] on an optional number. *)
Definition whenTruthy (f : Q -> Q) (v : option Q) : option Q :=
  match v with
  | Some q => if truthy (Some q) then Some (f q) else None
  | None => None
  end.

(** [v || d] where [d] is a number. *)
Definition orElse (v : option Q) (d : Q) : Q :=
  match v with
  | Some q => if Qeq_bool q 0 then d else q
  | None => d
  end.

(** *** The totals loop shared by the three adapters

    [calculateBasicMetrics] (gpxParser.ts l.78-100),
    [calculateTCXMetrics] (tcxParser.ts l.97-126) and
    [calculateMetricsFromFIT] (FIT adapter l.125-154) run the same loop; the
    GPX one has no heart-rate block and ignores the last three fields. *)
Record Totals : Type := mkTotals {
  sumDistance : Q;
  sumElevationGain : Q;
  box : Bounds;
  hrSum : Q;
  hrCount : nat;
  peakHR : Q
}.

Definition totals_step (points : list Point) (st : Totals) (i : nat) : Totals :=
  match nth_error points (i - 1), nth_error points i with
  | Some prev, Some curr =>
      mkTotals
        (sumDistance st + haversineDistance prev curr)
        (match ele curr, ele prev with
         | Some ec, Some ep =>
             if truthy (Some ec) && truthy (Some ep) && Qlt_bool ep ec
             then sumElevationGain st + (ec - ep) else sumElevationGain st
         | _, _ => sumElevationGain st
         end)
        (mkBounds (jsmin (minLat (box st)) (lat curr))
                  (jsmax (maxLat (box st)) (lat curr))
                  (jsmin (minLng (box st)) (lng curr))
                  (jsmax (maxLng (box st)) (lng curr)))
        (match hr curr with
         | Some h => if truthy (Some h) then hrSum st + h else hrSum st
         | None => hrSum st
         end)
        (if truthy (hr curr) then S (hrCount st) else hrCount st)
        (match hr curr with
         | Some h => if truthy (Some h) then Qmax (peakHR st) h else peakHR st
         | None => peakHR st
         end)
  | _, _ => st
  end.

Definition totalsOf (points : list Point) : Totals :=
  fold_left (totals_step points) (seq 1 (length points - 1))
    (mkTotals 0 0 (mkBounds PosInf NegInf PosInf NegInf) 0 0%nat 0).

(** [(last.time - first.time) / 1000] when both are present, else [0]. *)
Definition elapsedSeconds (points : list Point) : Q :=
  match points with
  | [] => 0
  | firstPoint :: _ =>
      match time firstPoint, time (last points firstPoint) with
      | Some t0, Some t1 => inject_Z (t1 - t0) / 1000
      | _, _ => 0
      end
  end.

(** [hrCount > 0 ? hrSum / hrCount : undefined]. *)
Definition meanHR (t : Totals) : option Q :=
  if (0 <? hrCount t)%nat
  then Some (hrSum t / inject_Z (Z.of_nat (hrCount t))) else None.

(** [maxHR > 0 ? maxHR : undefined]. *)
Definition positiveHR (t : Totals) : option Q :=
  if Qlt_bool 0 (peakHR t) then Some (peakHR t) else None.

(** *** Route adapter ([parseGPXFile], gpxParser.ts) *)

(** [calculateBasicMetrics] (l.78-118). *)
Definition calculateBasicMetrics (points : list Point) : Metrics.t :=
  let t := totalsOf points in
  let totalDistance := sumDistance t in
  let totalTime := elapsedSeconds points in
  let averagePace :=
    if Qlt_bool 0 totalTime then jsdiv totalTime totalDistance else Fin 0 in
  Metrics.mk totalDistance (sumElevationGain t) totalTime averagePace
    None None (box t).

(** The points of one line string (l.38-54). *)
Definition gpxLinePoints (coordTimes : list (option Z))
    (lineString : list Gpx.Coord) : list Point :=
  map (fun ic : nat * Gpx.Coord =>
         let (i, coord) := ic in
         mkPoint (Gpx.c1 coord) (Gpx.c0 coord) (Gpx.c2 coord)
           (match nth_error coordTimes i with
            | Some (Some t) => Some t
            | _ => None
            end)
           None None None None)
      (combine (seq 0 (length lineString)) lineString).

(** Loop state over the features: [points], [name], [date]. *)
Definition gpx_step (st : list Point * string * option Z) (feature : Gpx.Feature)
  : list Point * string * option Z :=
  let '(points, name, date) := st in
  match Gpx.geometry feature with
  | Gpx.OtherGeometry => st
  | g =>
      let coords :=
        match g with
        | Gpx.LineString c => [c]
        | Gpx.MultiLineString cs => cs
        | Gpx.OtherGeometry => []
        end in
      (points ++ flat_map (gpxLinePoints (Gpx.coordTimes feature)) coords,
       match Gpx.name feature with Some n => n | None => name end,
       match Gpx.time feature with Some t => Some t | None => date end)
  end.

(** [baseName] is [file.name.replace (".gpx", "")]; [features] is
    [geoJson.features], [[]] when absent. *)
Definition parseGPXFile (baseName : string) (features : list Gpx.Feature)
  : Result :=
  match features with
  | [] => inl (Error "No tracks found in GPX file")
  | _ =>
      let '(points, name, date) :=
        fold_left gpx_step features ([], baseName, None) in
      match points with
      | [] => inl (Error "No valid track points found in GPX file")
      | _ =>
          let m := calculateBasicMetrics points in
          inr (Activity.mk (Some name) date points
                 (Metrics.totalDistance m) (Metrics.totalElevationGain m)
                 (Metrics.totalTime m) (Metrics.averagePace m)
                 None None (Metrics.bounds m))
      end
  end.

(** *** Training-session adapter ([parseTCXFile], tcxParser.ts) *)

(** The point built for a trackpoint that has a [Position] (l.53-68). *)
Definition tcxPoint (tp : Tcx.Trackpoint) (position : jsnum * jsnum) : Point :=
  mkPoint (fst position) (snd position)
    (whenTruthy (fun v => v) (Tcx.AltitudeMeters tp))
    (Tcx.Time tp)
    (whenTruthy parseIntQ (Tcx.HeartRateBpm tp))
    (whenTruthy parseIntQ (Tcx.Cadence tp))
    (if truthy (Tcx.ExtensionsWatts tp) then Tcx.ExtensionsWatts tp
     else if truthy (Tcx.Watts tp) then Tcx.Watts tp else None)
    (whenTruthy (fun v => v) (Tcx.ExtensionsWatts tp)).

(** The points pushed for one trackpoint (l.50-73). *)
Definition tcxTrackpoint (tp : Tcx.Trackpoint) : list Point :=
  match Tcx.Position tp with
  | None => []
  | Some position =>
      let point := tcxPoint tp position in
      if negb (isNaN (lat point)) && negb (isNaN (lng point))
      then [point] else []
  end.

Definition tcxLapPoints (lap : Tcx.Lap) : list Point :=
  match Tcx.Track lap with
  | None => []
  | Some trackpoints => flat_map tcxTrackpoint trackpoints
  end.

(** [calculateTCXMetrics] (l.97-164). *)
Definition calculateTCXMetrics (points : list Point) (activity : Tcx.Activity)
  : Metrics.t :=
  let t := totalsOf points in
  let totalDistance := sumDistance t in
  let '(activityDistance, activityTime) :=
    match Tcx.Laps activity with
    | Some laps =>
        (fold_left (fun sum lap => sum + orZero (Tcx.DistanceMeters lap)) laps 0,
         fold_left (fun sum lap => sum + orZero (Tcx.TotalTimeSeconds lap))
           laps 0)
    | None => (totalDistance, 0)
    end in
  let activityTime :=
    if Qeq_bool activityTime 0 then elapsedSeconds points else activityTime in
  let averagePace :=
    if Qlt_bool 0 activityTime
    then jsdiv activityTime (activityDistance / 1000) else Fin 0 in
  Metrics.mk
    (if Qeq_bool activityDistance 0 then totalDistance else activityDistance)
    (sumElevationGain t) activityTime averagePace
    (meanHR t) (positiveHR t) (box t).

(** [baseName] is [file.name.replace ('.tcx', '')]; [activities] is the
    activity list of the document, [[]] when there is none. *)
Definition parseTCXFile (baseName : string) (activities : list Tcx.Activity)
  : Result :=
  match activities with
  | [] => inl (Error "No activities found in TCX file")
  | activity :: _ =>
      let name :=
        match Tcx.Sport activity with Some s => s | None => baseName end in
      let date := Tcx.Id activity in
      let laps :=
        match Tcx.Laps activity with Some l => l | None => [] end in
      let points := flat_map tcxLapPoints laps in
      match points with
      | [] => inl (Error "No valid track points found in TCX file")
      | _ =>
          let m := calculateTCXMetrics points activity in
          inr (Activity.mk (Some name) date points
                 (Metrics.totalDistance m) (Metrics.totalElevationGain m)
                 (Metrics.totalTime m) (Metrics.averagePace m)
                 (Metrics.averageHR m) (Metrics.maxHR m) (Metrics.bounds m))
      end
  end.

(** *** Binary-telemetry adapter ([parseFITFile]) *)

(** [convertSemicirclesToDegrees] (l.120-123). *)
Definition convertSemicirclesToDegrees (semicircles : option Q) : jsnum :=
  match semicircles with
  | None => NaN
  | Some s => Fin ((s * 180) / 2147483648)
  end.

(** The point built for one record (l.76-92). *)
Definition fitPoint (record : Fit.RecordMesg) : Point :=
  mkPoint
    (convertSemicirclesToDegrees
       (jsOr (jsOr (Fit.positionLat record) (Fit.position_lat record))
             (Fit.enhancedLatitude record)))
    (convertSemicirclesToDegrees
       (jsOr (jsOr (Fit.positionLong record) (Fit.position_long record))
             (Fit.enhancedLongitude record)))
    (jsOr (jsOr (Fit.altitude record) (Fit.enhancedAltitude record))
          (Fit.enhanced_altitude record))
    (Fit.timestamp record)
    (jsOr (Fit.heartRate record) (Fit.heart_rate record))
    (Fit.cadence record)
    (Fit.power record)
    (Fit.temperature record).

(** The points pushed for one record (l.74-97). *)
Definition fitRecord (record : Fit.RecordMesg) : list Point :=
  let point := fitPoint record in
  if negb (isNaN (lat point)) && negb (isNaN (lng point)) then [point] else [].

(** [calculateMetricsFromFIT] (l.125-174); the session argument is unused in
    the source. *)
Definition calculateMetricsFromFIT (points : list Point) : Metrics.t :=
  let t := totalsOf points in
  let totalDistance := sumDistance t in
  let totalTime := elapsedSeconds points in
  let averagePace :=
    if Qlt_bool 0 totalTime then jsdiv totalTime totalDistance else Fin 0 in
  Metrics.mk totalDistance (sumElevationGain t) totalTime averagePace
    (meanHR t) (positiveHR t) (box t).

(** [parseFITFile] (l.4-118).  The result carries the calls made on the
    decoder, in order; [baseName] is [file.name.replace ('.fit', '')]. *)
Definition parseFITFile (baseName : string) (decoder : Fit.Decoder)
  : list Fit.Call * Result :=
  if negb (Fit.checkIntegrity decoder) then
    ([Fit.CheckIntegrity], inl (Error "FIT file integrity check failed"))
  else
    let messages := Fit.read decoder in
    let sessionMessage := hd_error (Fit.sessionMesgs messages) in
    let date :=
      match sessionMessage with
      | Some s => Fit.startTime s
      | None => None
      end in
    let name :=
      match hd_error (Fit.sportMesgs messages) with
      | Some sport =>
          match Fit.name sport, Fit.sportField sport with
          | Some n, _ => n
          | None, Some s => s
          | None, None => baseName
          end
      | None => baseName
      end in
    let points := flat_map fitRecord (Fit.recordMesgs messages) in
    ([Fit.CheckIntegrity; Fit.Read],
     match points with
     | [] => inl (Error "No valid track points found in FIT file")
     | _ =>
         let m := calculateMetricsFromFIT points in
         let field (f : Fit.Session -> option Q) : option Q :=
           match sessionMessage with Some s => f s | None => None end in
         inr (Activity.mk
                (Some (match sessionMessage with
                       | Some s =>
                           match Fit.sport s with
                           | Some sp => (sp ++ " Activity")%string
                           | None => name
                           end
                       | None => name
                       end))
                date points
                (orElse (field Fit.totalDistance) (Metrics.totalDistance m))
                (orElse (field Fit.totalAscent) (Metrics.totalElevationGain m))
                (orElse (jsOr (field Fit.totalElapsedTime)
                              (field Fit.totalTimerTime))
                        (Metrics.totalTime m))
                (Metrics.averagePace m)
                (jsOr (field Fit.avgHeartRate) (Metrics.averageHR m))
                (jsOr (field Fit.maxHeartRate) (Metrics.maxHR m))
                (Metrics.bounds m))
     end).

(* ================================================================= *)
(** ** Consumers of the processed activity
       ([src/utils/achievementDetector.ts]) *)
(* ================================================================= *)

(** [x <= q] for a number [x] that may not be finite. *)
Definition jsle (x : jsnum) (q : Q) : bool :=
  match x with
  | Fin a => Qle_bool a q
  | NegInf => true
  | PosInf | NaN => false
  end.

Inductive EffortLevel : Type := easy | moderate | hard | extreme.

(** [calculateEffortLevel] (l.283-315). *)
Definition calculateEffortLevel (activity : ProcessedActivity.t)
  : EffortLevel :=
  let a := ProcessedActivity.activity activity in
  let effortScore := 0%nat in
  let distance := Activity.totalDistance a / 1000 in
  let elevation := Activity.totalElevationGain a in
  let avgPace := Activity.averagePace a in
  let time := Activity.totalTime a / 3600 in
  let effortScore :=
    if Qle_bool 20 distance then (effortScore + 3)%nat
    else if Qle_bool 10 distance then (effortScore + 2)%nat
    else if Qle_bool 5 distance then (effortScore + 1)%nat
    else effortScore in
  let effortScore :=
    if Qle_bool 1000 elevation then (effortScore + 3)%nat
    else if Qle_bool 500 elevation then (effortScore + 2)%nat
    else if Qle_bool 250 elevation then (effortScore + 1)%nat
    else effortScore in
  let effortScore :=
    if jsle avgPace 4 then (effortScore + 3)%nat
    else if jsle avgPace 5 then (effortScore + 2)%nat
    else if jsle avgPace 6 then (effortScore + 1)%nat
    else effortScore in
  let effortScore :=
    if Qle_bool 3 time then (effortScore + 3)%nat
    else if Qle_bool 2 time then (effortScore + 2)%nat
    else if Qle_bool 1 time then (effortScore + 1)%nat
    else effortScore in
  if (8 <=? effortScore)%nat then extreme
  else if (6 <=? effortScore)%nat then hard
  else if (3 <=? effortScore)%nat then moderate
  else easy.

(** [x < q] for a number [x] that may not be finite. *)
Definition jslt (x : jsnum) (q : Q) : bool :=
  match x with
  | Fin a => Qlt_bool a q
  | NegInf => true
  | PosInf | NaN => false
  end.

(** [Math.round]: the nearest integer, halves up. *)
Definition mathRound (x : Q) : Q := inject_Z (Qfloor (x + (1 # 2))).

(** [detectAchievements] (l.56-201): the five [if] chains push in this
    order. *)
Definition detectAchievements (activity : ProcessedActivity.t)
  : list Achievement.t :=
  let a := ProcessedActivity.activity activity in
  let distance := Activity.totalDistance a / 1000 in
  let elevation := Activity.totalElevationGain a in
  let avgPace := Activity.averagePace a in
  let maxHR := Activity.maxHR a in
  let time := Activity.totalTime a in
  (if Qle_bool (42195 # 1000) distance then
     [ Achievement.mk "marathon" "Marathon Legend"
         "Completed the ultimate endurance challenge" "🏃‍♂️"
         Achievement.distance Achievement.legendary
         (Some (Fin distance)) (Some "km"%string) None ]
   else if Qle_bool (211 # 10) distance then
     [ Achievement.mk "half_marathon" "Half Marathon Hero"
         "Conquered 21.1km of determination" "🎯"
         Achievement.distance Achievement.epic
         (Some (Fin distance)) (Some "km"%string) None ]
   else if Qle_bool 10 distance then
     [ Achievement.mk "double_digit" "Double Digit Destroyer"
         "Crushed 10+ kilometers" "💪"
         Achievement.distance Achievement.rare
         (Some (Fin distance)) (Some "km"%string) None ]
   else [])
  ++ (if jsle avgPace (35 # 10) then
        [ Achievement.mk "speed_demon" "Speed Demon"
            "Lightning-fast pace maintained" "⚡"
            Achievement.speed Achievement.epic
            (Some avgPace) (Some "min/km"%string) None ]
      else if jsle avgPace (45 # 10) then
        [ Achievement.mk "pace_master" "Pace Master"
            "Impressive speed consistency" "🔥"
            Achievement.speed Achievement.rare
            (Some avgPace) (Some "min/km"%string) None ]
      else [])
  ++ (if Qle_bool 1500 elevation then
        [ Achievement.mk "mountain_conqueror" "Mountain Conqueror"
            "Scaled massive vertical challenges" "⛰️"
            Achievement.elevation Achievement.legendary
            (Some (Fin elevation)) (Some "m"%string) None ]
      else if Qle_bool 750 elevation then
        [ Achievement.mk "hill_crusher" "Hill Crusher"
            "Dominated significant elevation gain" "🏔️"
            Achievement.elevation Achievement.epic
            (Some (Fin elevation)) (Some "m"%string) None ]
      else if Qle_bool 300 elevation then
        [ Achievement.mk "elevation_warrior" "Elevation Warrior"
            "Conquered challenging climbs" "🗻"
            Achievement.elevation Achievement.rare
            (Some (Fin elevation)) (Some "m"%string) None ]
      else [])
  ++ (if Qle_bool 7200 time then
        [ Achievement.mk "endurance_hero" "Endurance Hero"
            "Sustained effort for 2+ hours" "🏆"
            Achievement.endurance Achievement.epic
            (Some (Fin (mathRound (time / 3600)))) (Some "hours"%string)
            None ]
      else if Qle_bool 3600 time then
        [ Achievement.mk "hour_warrior" "Hour Warrior"
            "Maintained focus for over an hour" "⏱️"
            Achievement.endurance Achievement.rare
            (Some (Fin (mathRound (time / 60)))) (Some "minutes"%string)
            None ]
      else [])
  ++ (match maxHR with
      | Some h =>
          if truthy (Some h) && Qle_bool 190 h then
            [ Achievement.mk "heart_champion" "Heart Champion"
                "Pushed cardiovascular limits" "❤️"
                Achievement.endurance Achievement.rare
                (Some (Fin h)) (Some "bpm"%string) None ]
          else []
      | None => []
      end).

(* ================================================================= *)
(** ** Heart-rate zones ([src/utils/stylePresets.ts] l.57-72) *)
(* ================================================================= *)

Definition hrZoneColors : list string :=
  [ "#60a5fa"; "#34d399"; "#fbbf24"; "#fb923c"; "#ef4444" ]%string.

(** [x * q] for a number [x] that may not be finite and a positive [q]. *)
Definition jstimes (x : jsnum) (q : Q) : jsnum :=
  match x with
  | Fin a => Fin (a * q)
  | other => other
  end.

Definition getHRZoneColor (hr maxHR : Q) : string :=
  let percentage := jstimes (jsdiv hr maxHR) 100 in
  if jslt percentage 60 then nth 0 hrZoneColors ""%string
  else if jslt percentage 70 then nth 1 hrZoneColors ""%string
  else if jslt percentage 80 then nth 2 hrZoneColors ""%string
  else if jslt percentage 90 then nth 3 hrZoneColors ""%string
  else nth 4 hrZoneColors ""%string.

(* ================================================================= *)
(** ** Specification-side definitions and sample inputs *)
(* ================================================================= *)

(** The constants of iteration [i] of [computeMetrics] on [points]. *)
Definition rawAt (points : list Point) (i : nat) : option RawMetrics :=
  match nth_error points i with
  | Some curr => Some (rawMetrics i (prevPoint points i curr) curr)
  | None => None
  end.

(** The trailing average in the words of the specification: the current raw
    value together with the last [halfWindow] (or fewer) of the values
    already produced, divided by their number. *)
Definition trailingAverage (previous : list Q) (value : Q) (halfWindow : nat)
  : Q :=
  let window := skipn (length previous - halfWindow) previous in
  (value + fold_right Qplus 0 window)
  / inject_Z (Z.of_nat (1 + length window)).

(** [lo <= x <= hi]. *)
Definition between (lo hi x : Q) : Prop := lo <= x /\ x <= hi.

(** The clamp of the specification, [clamp (x, 0, 1)]. *)
Definition clamp01 (x : Q) : Q := Qmax 0 (Qmin 1 x).

(** A heart rate that is absent or zero. *)
Definition zeroOrAbsent (v : option Q) : Prop :=
  match v with
  | Some h => h == 0
  | None => True
  end.

(** The cumulative distance of [points[i]], [0] outside the array. *)
Definition distanceAt (points : list ProcessedPoint) (i : nat) : Q :=
  match nth_error points i with
  | Some p => distance p
  | None => 0
  end.

(** The mean heart rate over the points that carry one, in the words of the
    specification. *)
Definition meanDefinedHR (splitPoints : list ProcessedPoint) : option Q :=
  match definedValues (map (fun p => hr (point p)) splitPoints) with
  | [] => None
  | hrs => Some (fold_right Qplus 0 hrs / inject_Z (Z.of_nat (length hrs)))
  end.

(** Latitude in [[-90, 90]] and longitude in [[-180, 180]]. *)
Definition inRange (p : Point) : Prop :=
  match lat p, lng p with
  | Fin la, Fin lo => between (-90) 90 la /\ between (-180) 180 lo
  | _, _ => False
  end.

(** A point with nothing but a position, a time and a heart rate. *)
Definition samplePoint (t : option Z) (h : option Q) : Point :=
  mkPoint (Fin 0) (Fin 0) None t h None None None.

(** Three timed samples, the last one with a heart rate of 0. *)
Definition threeSamples : list Point :=
  [ samplePoint (Some 0%Z) (Some 150);
    samplePoint (Some 30000%Z) None;
    samplePoint (Some 50000%Z) (Some 0) ].

(** A processed point at cumulative distance [d]. *)
Definition sampleProcessed (d : Q) (h : option Q) : ProcessedPoint :=
  mkProcessedPoint (samplePoint None h) d 5 0 0 None None None.

(** An activity sampled every 100 distance units over 2,500 units. *)
Definition uniform2500 : list ProcessedPoint :=
  map (fun k => sampleProcessed (inject_Z (Z.of_nat k) * 100) None) (seq 0 26).

(** Three samples over 1,000 units; the middle one has no heart rate. *)
Definition gappedHeartRate : list ProcessedPoint :=
  [ sampleProcessed 0 (Some 150);
    sampleProcessed 500 None;
    sampleProcessed 1000 (Some 150) ].

(** A FIT session that gives no usable distance or time total. *)
Definition noSessionTotals (decoder : Fit.Decoder) : Prop :=
  match hd_error (Fit.sessionMesgs (Fit.read decoder)) with
  | None => True
  | Some s =>
      zeroOrAbsent (Fit.totalDistance s)
      /\ zeroOrAbsent (Fit.totalElapsedTime s)
      /\ zeroOrAbsent (Fit.totalTimerTime s)
  end.

(** A TCX activity with one trackpoint at latitude 95, longitude 200. *)
Definition tcxOutOfRange : Tcx.Activity :=
  Tcx.mkActivity None None
    (Some [ Tcx.mkLap
              (Some [ Tcx.mkTrackpoint (Some (Fin 95, Fin 200))
                        None None None None None None ])
              None None ]).

(** A FIT file with one record at 3 * 2^29 semicircles of latitude (135
    degrees) and 2^30 semicircles of longitude (90 degrees). *)
Definition fitOutOfRange : Fit.Decoder :=
  Fit.mkDecoder true
    (Fit.mkMessages [] []
       [ Fit.mkRecordMesg (Some 1610612736) None None
           (Some 1073741824) None None
           None None None None None None None None None ]).

(** A GPX track with one position at longitude 200, latitude 95. *)
Definition gpxOutOfRange : Gpx.Feature :=
  Gpx.mkFeature (Gpx.LineString [ Gpx.mkCoord (Fin 200) (Fin 95) None ])
    None None [].

(** A GPX track of a single position, without time. *)
Definition gpxSinglePoint : Gpx.Feature :=
  Gpx.mkFeature (Gpx.LineString [ Gpx.mkCoord (Fin 1) (Fin 1) None ])
    None None [].

(** A GPX track of two positions with their times, 0 s and 600 s. *)
Definition gpxTenMinutes : Gpx.Feature :=
  Gpx.mkFeature
    (Gpx.LineString [ Gpx.mkCoord (Fin 1) (Fin 1) None;
                      Gpx.mkCoord (Fin 1) (Fin 2) None ])
    None None [ Some 0%Z; Some 600000%Z ].

(** A TCX activity of two timed trackpoints, 0 s and 600 s, whose lap gives
    neither [DistanceMeters] nor [TotalTimeSeconds]. *)
Definition tcxWithoutLapTotals : Tcx.Activity :=
  Tcx.mkActivity None None
    (Some [ Tcx.mkLap
              (Some [ Tcx.mkTrackpoint (Some (Fin 1, Fin 1))
                        None (Some 0%Z) None None None None;
                      Tcx.mkTrackpoint (Some (Fin 2, Fin 1))
                        None (Some 600000%Z) None None None None ])
              None None ]).


(** A FIT file that fails its integrity check; its messages hold one
    well-formed record. *)
Definition fitCorrupt : Fit.Decoder :=
  Fit.mkDecoder false
    (Fit.mkMessages [] []
       [ Fit.mkRecordMesg (Some 536870912) None None
           (Some 536870912) None None
           None None None None None None None None None ]).

(** The search of [findMaxHRSegment] after its first [k] iterations. *)
Definition findMaxHR_upto (points : list ProcessedPoint) (k : nat) : Q * Z :=
  fold_left (findMaxHR_step points) (seq 0 k) (0, (-1)%Z).

(** What [findSteepestClimb] keeps between iterations is either nothing,
    with a best grade of 0, or a segment that is a real climb of at least
    [minDistance]. *)
Definition climbValid (points : list ProcessedPoint) (minDistance : Q)
    (st : ClimbState) : Prop :=
  match snd st with
  | None => fst st = 0
  | Some seg =>
      exists ps pe es ee,
        (Segment.startIndex seg < Segment.endIndex seg)%nat
        /\ nth_error points (Segment.startIndex seg) = Some ps
        /\ nth_error points (Segment.endIndex seg) = Some pe
        /\ ele (point ps) = Some es /\ ele (point pe) = Some ee
        /\ es < ee
        /\ Segment.distance seg = distance pe - distance ps
        /\ minDistance <= Segment.distance seg
        /\ Segment.grade seg = ((ee - es) / Segment.distance seg) * 100
        /\ 0 < Segment.grade seg
        /\ fst st = Segment.grade seg
  end.


(** All positions of a GPX feature, in document order. *)
Definition gpxCoords (feature : Gpx.Feature) : list Gpx.Coord :=
  match Gpx.geometry feature with
  | Gpx.LineString coordinates => coordinates
  | Gpx.MultiLineString coordinates => concat coordinates
  | Gpx.OtherGeometry => []
  end.

(** A bounding box widened to include one more point. *)
Definition includePoint (b : Bounds) (p : Point) : Bounds :=
  mkBounds (jsmin (minLat b) (lat p)) (jsmax (maxLat b) (lat p))
           (jsmin (minLng b) (lng p)) (jsmax (maxLng b) (lng p)).

(** The box before any point is included. *)
Definition emptyBox : Bounds := mkBounds PosInf NegInf PosInf NegInf.


(** A processed point at cumulative distance [d] and elevation [e]. *)
Definition elevatedProcessed (d e : Q) : ProcessedPoint :=
  mkProcessedPoint (mkPoint (Fin 0) (Fin 0) (Some e) None None None None None)
    d 5 0 0 None None None.

(** Up 15 over the first 150 units, then down 5 over the next 150. *)
Definition climbingTrack : list ProcessedPoint :=
  [ elevatedProcessed 0 10; elevatedProcessed 150 25;
    elevatedProcessed 300 20 ].

(** Down 10 over each 150 units. *)
Definition descendingTrack : list ProcessedPoint :=
  [ elevatedProcessed 0 30; elevatedProcessed 150 20;
    elevatedProcessed 300 10 ].

(** An activity over [threeSamples]; the totals are placeholders. *)
Definition sampleActivity : Activity.t :=
  Activity.mk None None threeSamples 0 0 0 (Fin 0) None None emptyBox.

(** A FIT file whose session declares 5,000 units in 1,500 s, with two
    timed records 600 s apart. *)
Definition fitWithSession : Fit.Decoder :=
  Fit.mkDecoder true
    (Fit.mkMessages
       [ Fit.mkSession None None (Some 5000) None (Some 1500) None None None ]
       []
       [ Fit.mkRecordMesg (Some 536870912) None None
           (Some 536870912) None None
           None None None (Some 0%Z) None None None None None;
         Fit.mkRecordMesg (Some 536870913) None None
           (Some 536870912) None None
           None None None (Some 600000%Z) None None None None None ]).

(** A FIT record on the equator, given as [positionLat = 0]. *)
Definition fitEquator : Fit.RecordMesg :=
  Fit.mkRecordMesg (Some 0) None None
    (Some 536870912) None None
    None None None None None None None None None.

(** A FIT record on the equator, given as [enhancedLatitude = 0]. *)
Definition fitEquatorEnhanced : Fit.RecordMesg :=
  Fit.mkRecordMesg None None (Some 0)
    (Some 536870912) None None
    None None None None None None None None None.

(** A GPX feature that is not a line, with a name. *)
Definition gpxWaypoint : Gpx.Feature :=
  Gpx.mkFeature Gpx.OtherGeometry (Some "summit"%string) None [].

(** A TCX activity of one trackpoint with altitude 0, heart rate 151.6 and
    250 W in the TPX extension. *)
Definition tcxWithExtensions : Tcx.Activity :=
  Tcx.mkActivity None None
    (Some [ Tcx.mkLap
              (Some [ Tcx.mkTrackpoint (Some (Fin 1, Fin 1))
                        (Some 0) None (Some (1516 # 10)) None
                        (Some 250) None ])
              None None ]).


(** A coordinate in degrees as a real number; 0 stands for a coordinate
    that is not finite. *)
Definition realCoordinate (x : jsnum) : R :=
  match x with
  | Fin q => Q2R q
  | _ => 0%R
  end.

Definition realPoint (p : Point) : Haversine.Point :=
  Haversine.mkPoint (realCoordinate (lat p)) (realCoordinate (lng p)).

(** The formula of module [Haversine] on the coordinates of two points,
    brought back to a number by [round]. *)
Definition roundedHaversine (round : R -> Q) (p1 p2 : Point) : Q :=
  round (Haversine.haversineDistance (realPoint p1) (realPoint p2)).

(** A stand-in distance for concrete runs: consecutive samples are 100
    distance units apart. *)
Definition sampleDistance (p1 p2 : Point) : Q := 100.

(* ================================================================= *)
(** ** Properties of the metrics engine *)
(* ================================================================= *)

Lemma Qlt_bool_iff (x y : Q) : Qlt_bool x y = true <-> x < y.
Proof.
  unfold Qlt_bool. rewrite negb_true_iff.
  split; intros H.
  - apply Qnot_le_lt. intros Hle. apply Qle_bool_iff in Hle. congruence.
  - destruct (Qle_bool y x) eqn:E; [| reflexivity].
    apply Qle_bool_iff in E. exfalso. now apply (Qle_not_lt y x).
Qed.

Lemma firstn_snoc {A : Type} (l : list A) (k : nat) (x : A) :
  nth_error l k = Some x -> firstn (S k) l = firstn k l ++ [x].
Proof.
  revert k. induction l as [| y l IH]; intros [| k] H; simpl in *;
    try discriminate.
  - now inversion H.
  - f_equal. now apply IH.
Qed.

Lemma computeMetrics_upto_S (points : list Point) (k : nat) :
  computeMetrics_upto points (S k)
  = computeMetrics_step points (computeMetrics_upto points k) k.
Proof.
  unfold computeMetrics_upto. now rewrite seq_S, fold_left_app.
Qed.

Lemma nth_error_in_range {A : Type} (l : list A) (k : nat) :
  (k < length l)%nat -> exists x, nth_error l k = Some x.
Proof.
  intros H. destruct (nth_error l k) eqn:E; [eauto |].
  apply nth_error_None in E. lia.
Qed.

(** After [k] iterations the loop has produced one processed point for each
    of the first [k] input points, in order. *)
Lemma computeMetrics_upto_shape (points : list Point) (k : nat) :
  (k <= length points)%nat ->
  length (fst (computeMetrics_upto points k)) = k
  /\ map point (fst (computeMetrics_upto points k)) = firstn k points.
Proof.
  induction k as [| k IH]; intros Hk.
  - now split.
  - destruct IH as [IHlen IHmap]; [lia |].
    rewrite computeMetrics_upto_S. unfold computeMetrics_step.
    destruct (nth_error_in_range points k) as [curr Hcurr]; [lia |].
    rewrite Hcurr. cbn [fst]. split.
    + rewrite length_app, IHlen. simpl. lia.
    + rewrite map_app, IHmap. cbn [map point].
      symmetry. now apply firstn_snoc.
Qed.

Lemma computeMetrics_length (points : list Point) :
  length (computeMetrics points) = length points.
Proof. unfold computeMetrics. now apply computeMetrics_upto_shape. Qed.

Lemma computeMetrics_points (points : list Point) :
  map point (computeMetrics points) = points.
Proof.
  unfold computeMetrics.
  destruct (computeMetrics_upto_shape points (length points)) as [_ H];
    [lia |].
  now rewrite H, firstn_all.
Qed.

Section Monotone.
Hypothesis haversineDistance_nonneg :
  forall p1 p2 : Point, 0 <= haversineDistance p1 p2.

Lemma segmentDistance_nonneg (i : nat) (prev curr : Point) :
  0 <= segmentDistance (rawMetrics i prev curr).
Proof.
  unfold rawMetrics. cbn [segmentDistance].
  destruct (0 <? i)%nat; [apply haversineDistance_nonneg | apply Qle_refl].
Qed.

(** Cumulative distances grow along the produced prefix and stay below the
    running total. *)
Lemma computeMetrics_upto_monotone (points : list Point) (k : nat) :
  (k <= length points)%nat ->
  (forall p, In p (fst (computeMetrics_upto points k)) ->
             distance p <= snd (computeMetrics_upto points k))
  /\ (forall i j pi pj, (i <= j)%nat ->
        nth_error (fst (computeMetrics_upto points k)) i = Some pi ->
        nth_error (fst (computeMetrics_upto points k)) j = Some pj ->
        distance pi <= distance pj).
Proof.
  induction k as [| k IH]; intros Hk.
  - split; [intros p [] | intros [| i] j pi pj _ H; discriminate].
  - destruct IH as [IHtop IHmono]; [lia |].
    destruct (computeMetrics_upto_shape points k) as [Hlen _]; [lia |].
    rewrite computeMetrics_upto_S. unfold computeMetrics_step.
    destruct (nth_error_in_range points k) as [curr Hcurr]; [lia |].
    rewrite Hcurr. cbn [fst snd].
    set (st := computeMetrics_upto points k) in *.
    set (m := rawMetrics k (prevPoint points k curr) curr).
    assert (Hseg : snd st <= snd st + segmentDistance m).
    { rewrite <- (Qplus_0_r (snd st)) at 1.
      apply Qplus_le_r. apply segmentDistance_nonneg. }
    split.
    + intros p Hin. apply in_app_or in Hin as [Hin | [<- | []]].
      * eapply Qle_trans; [now apply IHtop | exact Hseg].
      * apply Qle_refl.
    + intros i j pi pj Hij Hi Hj.
      destruct (Nat.lt_ge_cases j (length (fst st))) as [Hj' | Hj'].
      * rewrite nth_error_app1 in Hi, Hj by lia. eauto.
      * rewrite nth_error_app2 in Hj by lia.
        assert (j = length (fst st)) as ->.
        { destruct (j - length (fst st))%nat as [| [| n]] eqn:E;
            simpl in Hj; try discriminate; lia. }
        rewrite Nat.sub_diag in Hj. simpl in Hj. inversion Hj; subst pj.
        cbn [distance].
        destruct (Nat.lt_ge_cases i (length (fst st))) as [Hi' | Hi'].
        -- rewrite nth_error_app1 in Hi by lia.
           apply nth_error_In in Hi.
           eapply Qle_trans; [now apply IHtop | exact Hseg].
        -- assert (i = length (fst st)) as -> by lia.
           rewrite nth_error_app2, Nat.sub_diag in Hi by lia.
           simpl in Hi. inversion Hi; subst pi. apply Qle_refl.
Qed.

End Monotone.

(** Later iterations only append: what is produced after [k] iterations is a
    prefix of the final result. *)
Lemma computeMetrics_upto_prefix (points : list Point) (k n : nat) :
  (k <= n)%nat -> (n <= length points)%nat ->
  firstn k (fst (computeMetrics_upto points n))
  = fst (computeMetrics_upto points k).
Proof.
  intros Hkn. induction Hkn as [| n Hkn IH]; intros Hn.
  - destruct (computeMetrics_upto_shape points k Hn) as [Hlen _].
    rewrite <- Hlen at 1. apply firstn_all.
  - rewrite computeMetrics_upto_S. unfold computeMetrics_step.
    destruct (nth_error_in_range points n) as [curr Hcurr]; [lia |].
    rewrite Hcurr. cbn [fst].
    destruct (computeMetrics_upto_shape points n) as [Hlen _]; [lia |].
    rewrite firstn_app, Hlen.
    replace (k - n)%nat with 0%nat by lia.
    cbn [firstn]. rewrite app_nil_r. apply IH. lia.
Qed.

(** The element of index [i] is the one pushed by iteration [i], computed
    from the points produced before it. *)
Lemma computeMetrics_nth (points : list Point) (i : nat) (curr : Point) :
  nth_error points i = Some curr ->
  let m := rawMetrics i (prevPoint points i curr) curr in
  let processed := firstn i (computeMetrics points) in
  nth_error (computeMetrics points) i
  = Some (mkProcessedPoint curr
            (snd (computeMetrics_upto points i) + segmentDistance m)
            (smoothValue processed i pace (rawPace m) 10)
            (smoothValue processed i grade (rawGrade m) 5)
            (rawSpeed m) None None None).
Proof.
  intros Hcurr m processed.
  assert (Hi : (i < length points)%nat).
  { apply nth_error_Some. congruence. }
  assert (Hpre : processed = fst (computeMetrics_upto points i)).
  { unfold processed, computeMetrics.
    apply computeMetrics_upto_prefix; lia. }
  assert (Hnext : firstn (S i) (computeMetrics points)
                  = fst (computeMetrics_upto points (S i))).
  { unfold computeMetrics. apply computeMetrics_upto_prefix; lia. }
  rewrite computeMetrics_upto_S in Hnext. unfold computeMetrics_step in Hnext.
  rewrite Hcurr in Hnext. cbn [fst] in Hnext.
  destruct (computeMetrics_upto_shape points i) as [Hlen _]; [lia |].
  assert (Hnth : nth_error (firstn (S i) (computeMetrics points)) i
                 = nth_error (computeMetrics points) i).
  { rewrite nth_error_firstn.
    destruct (Nat.ltb_spec i (S i)); [reflexivity | lia]. }
  rewrite <- Hnth, Hnext, nth_error_app2 by lia.
  rewrite Hlen, Nat.sub_diag. cbn [nth_error].
  rewrite Hpre. reflexivity.
Qed.

Lemma smoothValue_origin (field : ProcessedPoint -> Q) (value : Q)
    (windowSize : nat) :
  smoothValue [] 0 field value windowSize = value.
Proof. reflexivity. Qed.

Lemma Qlt_bool_0_div_0 (x : Q) : Qlt_bool 0 (0 / x) = false.
Proof.
  destruct (Qlt_bool 0 (0 / x)) eqn:E; [| reflexivity].
  apply Qlt_bool_iff in E.
  assert (H : 0 / x == 0) by (unfold Qdiv; apply Qmult_0_l).
  rewrite H in E. now apply Qlt_irrefl in E.
Qed.

(** Iteration 0 has zero raw pace and zero raw grade, whatever the point. *)
Lemma rawMetrics_origin (prev curr : Point) :
  segmentDistance (rawMetrics 0 prev curr) = 0
  /\ rawPace (rawMetrics 0 prev curr) = 0
  /\ rawGrade (rawMetrics 0 prev curr) = 0.
Proof.
  unfold rawMetrics. cbn [segmentDistance rawPace rawGrade Nat.ltb Nat.leb].
  repeat split.
  destruct (time curr), (time prev); cbn.
  - destruct (Qlt_bool 0 (inject_Z (z - z0) / 1000)).
    + now rewrite Qlt_bool_0_div_0.
    + reflexivity.
  - reflexivity.
  - reflexivity.
  - reflexivity.
Qed.

(** The first processed point is the reference origin. *)
Lemma computeMetrics_origin (points : list Point) (p : ProcessedPoint) :
  nth_error (computeMetrics points) 0 = Some p ->
  distance p = 0 /\ pace p = 0 /\ grade p = 0.
Proof.
  intros Hp.
  destruct (nth_error_in_range points 0) as [curr Hcurr].
  { rewrite <- computeMetrics_length. apply nth_error_Some. congruence. }
  rewrite (computeMetrics_nth points 0 curr Hcurr) in Hp.
  cbv zeta in Hp.
  destruct (rawMetrics_origin (prevPoint points 0 curr) curr)
    as (Hd & Hpace & Hgrade).
  revert Hp Hd Hpace Hgrade.
  generalize (rawMetrics 0 (prevPoint points 0 curr) curr).
  intros m Hp Hd Hpace Hgrade. injection Hp as <-.
  cbn [distance pace grade firstn].
  rewrite !smoothValue_origin, Hd, Hpace, Hgrade.
  repeat split; reflexivity.
Qed.

(** [normalizeMetrics] changes nothing but the three normalized fields. *)
Lemma normalizeMetrics_nth (points : list ProcessedPoint) (i : nat)
    (q : ProcessedPoint) :
  nth_error (normalizeMetrics points) i = Some q ->
  exists p, nth_error points i = Some p
    /\ point q = point p /\ distance q = distance p
    /\ pace q = pace p /\ grade q = grade p /\ speed q = speed p
    /\ normalizedPace q
       = Some (normalize (pace p)
                 (percentile (pacePopulation points) (5 # 100))
                 (percentile (pacePopulation points) (95 # 100)))
    /\ normalizedHR q
       = normalizeOptional (hr (point p))
           (guardedPercentile (hrPopulation points) (5 # 100))
           (guardedPercentile (hrPopulation points) (95 # 100))
    /\ normalizedPower q
       = normalizeOptional (power (point p))
           (guardedPercentile (powerPopulation points) (5 # 100))
           (guardedPercentile (powerPopulation points) (95 # 100)).
Proof.
  unfold normalizeMetrics. rewrite nth_error_map.
  destruct (nth_error points i) as [p |]; [| discriminate].
  cbn [option_map]. intros H. inversion H; subst q; clear H.
  exists p. cbn. repeat split; reflexivity.
Qed.

Lemma normalizeMetrics_length (points : list ProcessedPoint) :
  length (normalizeMetrics points) = length points.
Proof. unfold normalizeMetrics. apply length_map. Qed.

Lemma normalizeMetrics_points (points : list ProcessedPoint) :
  map point (normalizeMetrics points) = map point points.
Proof.
  unfold normalizeMetrics. rewrite map_map. reflexivity.
Qed.




Section NumberDistances.
Variable points : list Point.
Hypothesis points_numberDistances : numberDistances points.




End NumberDistances.


(* ----------------------------------------------------------------- *)
(** *** Smoothing *)

Lemma skipn_nth_cons {A : Type} (l : list A) (s : nat) (x : A) :
  nth_error l s = Some x -> skipn s l = x :: skipn (S s) l.
Proof.
  revert s. induction l as [| y l IH]; intros [| s] H; simpl in *;
    try discriminate.
  - now inversion H.
  - now apply IH.
Qed.

(** The loop of [smoothValue] over indices that are all in range adds the
    fields of [points[s .. s + n - 1]] and counts them. *)
Lemma smoothValue_loop (points : list ProcessedPoint)
    (field : ProcessedPoint -> Q) (n : nat) :
  forall (s : nat) (acc : Q * nat),
    (s + n <= length points)%nat ->
    let r :=
      fold_left
        (fun (acc : Q * nat) (i : nat) =>
           match nth_error points i with
           | Some p => (fst acc + field p, S (snd acc))
           | None => acc
           end)
        (seq s n) acc in
    fst r == fst acc
             + fold_right Qplus 0 (map field (firstn n (skipn s points)))
    /\ snd r = (snd acc + n)%nat.
Proof.
  induction n as [| n IH]; intros s acc Hs; cbn zeta.
  - cbn. split; [now rewrite Qplus_0_r | lia].
  - destruct (nth_error_in_range points s) as [p Hp]; [lia |].
    cbn [seq fold_left]. rewrite Hp.
    destruct (IH (S s) (fst acc + field p, S (snd acc))) as [Hsum Hcount];
      [lia |].
    cbn zeta in Hsum, Hcount. rewrite Hsum, Hcount. cbn [fst snd].
    rewrite (skipn_nth_cons points s p Hp).
    cbn [firstn map fold_right]. split; [ring | lia].
Qed.

(** Called as [computeMetrics] calls it, with the points produced so far,
    [smoothValue] is the trailing average of the specification. *)
Lemma smoothValue_trailing (processed : list ProcessedPoint) (index : nat)
    (field : ProcessedPoint -> Q) (value : Q) (windowSize : nat) :
  length processed = index ->
  smoothValue processed index field value windowSize
  == trailingAverage (map field processed) value (windowSize / 2).
Proof.
  intros Hlen. unfold smoothValue, trailingAverage. cbv zeta.
  rewrite length_map, Hlen, skipn_map, length_map, length_skipn, Hlen.
  set (halfWindow := (windowSize / 2)%nat).
  rewrite Nat.max_0_l.
  replace (Nat.min index (index + halfWindow)) with index by lia.
  destruct (Z.eqb_spec (Z.of_nat index - Z.of_nat (index - halfWindow)) 0)
    as [Hz | Hz].
  - assert (Hskip : skipn (index - halfWindow) processed = []).
    { apply skipn_all2. lia. }
    rewrite Hskip. replace (index - (index - halfWindow))%nat with 0%nat by lia.
    cbn. field.
  - destruct (smoothValue_loop processed field
                (index - (index - halfWindow)) (index - halfWindow)
                (value, 1%nat))
      as [Hsum Hcount]; [lia |].
    cbn zeta in Hsum, Hcount.
    destruct (fold_left _ _ _) as [sum count].
    cbn [fst snd] in Hsum, Hcount. subst count.
    rewrite Hsum.
    rewrite (firstn_all2 (n := (index - (index - halfWindow))%nat));
      [reflexivity |].
    rewrite length_skipn. lia.
Qed.

(** A step on a prefix of the input is the step on the whole input. *)
Lemma computeMetrics_step_firstn (points : list Point) (k i : nat)
    (st : list ProcessedPoint * Q) :
  (i < k)%nat ->
  computeMetrics_step (firstn k points) st i = computeMetrics_step points st i.
Proof.
  intros Hik. unfold computeMetrics_step, prevPoint.
  rewrite nth_error_firstn.
  destruct (Nat.ltb_spec i k); [| lia].
  destruct (nth_error points i) as [curr |]; [| reflexivity].
  rewrite nth_firstn.
  destruct (Nat.ltb_spec (i - 1) k); [reflexivity | lia].
Qed.

Lemma computeMetrics_upto_firstn (points : list Point) (k j : nat) :
  (j <= k)%nat ->
  computeMetrics_upto (firstn k points) j = computeMetrics_upto points j.
Proof.
  induction j as [| j IH]; intros Hj; [reflexivity |].
  rewrite !computeMetrics_upto_S, IH by lia.
  apply computeMetrics_step_firstn. lia.
Qed.

(** The first [k] processed points depend on the first [k] input points
    only. *)
Lemma computeMetrics_causal (points : list Point) (k : nat) :
  firstn k (computeMetrics points) = computeMetrics (firstn k points).
Proof.
  destruct (Nat.le_gt_cases k (length points)) as [Hk | Hk].
  - unfold computeMetrics at 2.
    rewrite length_firstn, Nat.min_l by exact Hk.
    rewrite computeMetrics_upto_firstn by lia.
    unfold computeMetrics. apply computeMetrics_upto_prefix; lia.
  - rewrite !firstn_all2; [reflexivity | lia |].
    rewrite computeMetrics_length. lia.
Qed.

(** C6.  In [computeMetrics] the smoothed pace and grade at index [i] are the
    average of the current raw value and of the up to [floor (10 / 2)]
    (pace) or [floor (5 / 2)] (grade) smoothed values just before [i]; the
    first [k] outputs are those of the first [k] inputs alone, so no later
    point is used; and at index 0, with nothing before, the raw value is
    returned unchanged. *)
Theorem smoothing_causal_trailing :
  (forall points i p m,
      nth_error (computeMetrics points) i = Some p ->
      rawAt points i = Some m ->
      pace p == trailingAverage
                  (map pace (firstn i (computeMetrics points)))
                  (rawPace m) (10 / 2)
      /\ grade p == trailingAverage
                      (map grade (firstn i (computeMetrics points)))
                      (rawGrade m) (5 / 2))
  /\ (forall points k,
        firstn k (computeMetrics points) = computeMetrics (firstn k points))
  /\ (forall points p m,
        nth_error (computeMetrics points) 0 = Some p ->
        rawAt points 0 = Some m ->
        pace p = rawPace m /\ grade p = rawGrade m).
Proof.
  split; [| split].
  - intros points i p m Hp Hm. unfold rawAt in Hm.
    destruct (nth_error points i) as [curr |] eqn:Hcurr; [| discriminate].
    injection Hm as <-.
    rewrite (computeMetrics_nth points i curr Hcurr) in Hp.
    cbv zeta in Hp. injection Hp as <-. cbn [pace grade].
    assert (Hlen : length (firstn i (computeMetrics points)) = i).
    { rewrite length_firstn, computeMetrics_length.
      apply Nat.min_l. apply Nat.lt_le_incl, nth_error_Some. congruence. }
    split; now apply smoothValue_trailing.
  - exact computeMetrics_causal.
  - intros points p m Hp Hm. unfold rawAt in Hm.
    destruct (nth_error points 0) as [curr |] eqn:Hcurr; [| discriminate].
    injection Hm as <-.
    rewrite (computeMetrics_nth points 0 curr Hcurr) in Hp.
    cbv zeta in Hp. injection Hp as <-. cbn [pace grade firstn].
    now rewrite !smoothValue_origin.
Qed.

(* ----------------------------------------------------------------- *)
(** *** Percentiles and normalization *)

Lemma percentile_nil (p : Q) : percentile [] p = 0.
Proof.
  unfold percentile. cbn [sortAscending fold_right length].
  now destruct (percentileIndex 0 p).
Qed.


Lemma insertSorted_length (x : Q) (l : list Q) :
  length (insertSorted x l) = S (length l).
Proof.
  induction l as [| y l IH]; [reflexivity |].
  cbn [insertSorted]. destruct (Qle_bool x y); cbn [length]; congruence.
Qed.

Lemma sortAscending_length (l : list Q) :
  length (sortAscending l) = length l.
Proof.
  induction l as [| x l IH]; [reflexivity |].
  cbn [sortAscending fold_right]. fold (sortAscending l).
  now rewrite insertSorted_length, IH.
Qed.

Lemma insertSorted_Forall (P : Q -> Prop) (x : Q) (l : list Q) :
  P x -> Forall P l -> Forall P (insertSorted x l).
Proof.
  intros Hx Hl. induction Hl as [| y l Hy Hl IH]; cbn [insertSorted].
  - now constructor.
  - destruct (Qle_bool x y); repeat constructor; assumption.
Qed.


(** [floor (n * p)] is a valid index when [p < 1] and [n > 0]. *)
Lemma percentileIndex_lt (n : nat) (p : Q) :
  (0 < n)%nat -> p < 1 -> (percentileIndex n p < n)%nat.
Proof.
  intros Hn Hp. unfold percentileIndex.
  set (x := inject_Z (Z.of_nat n) * p).
  assert (Hx : x < inject_Z (Z.of_nat n)).
  { unfold x. rewrite <- (Qmult_1_r (inject_Z (Z.of_nat n))) at 2.
    apply Qmult_lt_l; [| exact Hp].
    replace 0 with (inject_Z 0) by reflexivity.
    rewrite <- Zlt_Qlt. lia. }
  assert (Hfloor : (Qfloor x < Z.of_nat n)%Z).
  { rewrite Zlt_Qlt. eapply Qle_lt_trans; [apply Qfloor_le | exact Hx]. }
  lia.
Qed.

Lemma orZero_eq (v : Q) : orZero (Some v) == v.
Proof.
  cbn [orZero]. destruct (Qeq_bool v 0) eqn:E; [| reflexivity].
  apply Qeq_bool_iff in E. now symmetry.
Qed.





Lemma normalize_clamp (value min max : Q) :
  ~ max == min ->
  normalize value min max = clamp01 ((value - min) / (max - min)).
Proof.
  intros H. unfold normalize.
  destruct (Qeq_bool max min) eqn:E; [| reflexivity].
  apply Qeq_bool_iff in E. contradiction.
Qed.




Lemma definedValues_In (l : list (option Q)) (x : Q) :
  In x (definedValues l) <-> In (Some x) l.
Proof.
  induction l as [| [v |] l IH]; cbn [definedValues In].
  - tauto.
  - rewrite IH. split; intros [H | H]; auto.
    + left. now f_equal.
    + left. now injection H.
  - rewrite IH. split; [auto | intros [H | H]; [discriminate | assumption]].
Qed.


Lemma hrPopulation_In (points : list ProcessedPoint) (x : Q) :
  In x (hrPopulation points)
  <-> exists p, In p points /\ hr (point p) = Some x.
Proof.
  unfold hrPopulation. rewrite definedValues_In, in_map_iff.
  split; intros (p & H1 & H2); eauto.
Qed.


Lemma insertSorted_perm (x : Q) (l : list Q) :
  Permutation (x :: l) (insertSorted x l).
Proof.
  induction l as [| y l IH]; cbn [insertSorted]; [reflexivity |].
  destruct (Qle_bool x y); [reflexivity |].
  rewrite perm_swap. now constructor.
Qed.

Lemma sortAscending_perm (values : list Q) :
  Permutation values (sortAscending values).
Proof.
  induction values as [| x l IH]; [constructor |].
  cbn [sortAscending fold_right]. fold (sortAscending l).
  rewrite <- insertSorted_perm. now constructor.
Qed.

Lemma Qle_bool_false (x y : Q) : Qle_bool x y = false -> y <= x.
Proof.
  intros E. apply Qlt_le_weak, Qnot_le_lt. intros H.
  apply Qle_bool_iff in H. congruence.
Qed.

Lemma insertSorted_sorted (x : Q) (l : list Q) :
  StronglySorted Qle l -> StronglySorted Qle (insertSorted x l).
Proof.
  induction 1 as [| y l Hl IH Hy]; cbn [insertSorted].
  - repeat constructor.
  - destruct (Qle_bool x y) eqn:E.
    + apply Qle_bool_iff in E. constructor; [now constructor |].
      constructor; [exact E |].
      eapply Forall_impl; [| exact Hy].
      intros z Hz. now apply Qle_trans with y.
    + constructor; [exact IH |].
      apply insertSorted_Forall; [now apply Qle_bool_false | exact Hy].
Qed.

Lemma sortAscending_sorted (values : list Q) :
  StronglySorted Qle (sortAscending values).
Proof.
  induction values as [| x l IH]; [constructor |].
  cbn [sortAscending fold_right]. now apply insertSorted_sorted.
Qed.



(* ----------------------------------------------------------------- *)
(** *** Heart rate 0 *)

Lemma findMaxHR_step_skip (points : list ProcessedPoint) (st : Q * Z)
    (i : nat) :
  (forall p, nth_error points i = Some p -> zeroOrAbsent (hr (point p))) ->
  findMaxHR_step points st i = st.
Proof.
  intros H. unfold findMaxHR_step.
  destruct (nth_error points i) as [p |]; [| reflexivity].
  specialize (H p eq_refl). destruct (hr (point p)) as [h |]; [| reflexivity].
  cbn [zeroOrAbsent] in H. apply Qeq_bool_iff in H.
  cbn [truthy]. now rewrite H.
Qed.

Lemma findMaxHR_none (points : list ProcessedPoint) :
  Forall (fun p => zeroOrAbsent (hr (point p))) points ->
  findMaxHR points = (0, (-1)%Z).
Proof.
  intros Hall. unfold findMaxHR.
  generalize (seq 0 (length points)) as indices.
  induction indices as [| i indices IH]; [reflexivity |].
  cbn [fold_left]. rewrite findMaxHR_step_skip; [exact IH |].
  intros p Hp. apply nth_error_In in Hp.
  rewrite Forall_forall in Hall. now apply Hall.
Qed.

Lemma findMaxHRSegment_none (points : list ProcessedPoint) :
  Forall (fun p => zeroOrAbsent (hr (point p))) points ->
  findMaxHRSegment points = None.
Proof.
  intros Hall. unfold findMaxHRSegment. now rewrite findMaxHR_none.
Qed.

(** C10.  A heart rate of 0 is treated as an absent one: for a point whose
    raw heart rate is 0, [normalizeMetrics] leaves [normalizedHR] undefined
    although the 0 belongs to the percentile population; [findMaxHRSegment]
    skips such a point; and an activity whose heart rates are all 0 or
    absent gets no peak heart-rate segment. *)
Theorem zero_heart_rate_is_absent :
  (forall points i p q h,
      nth_error points i = Some p -> hr (point p) = Some h -> h == 0 ->
      nth_error (normalizeMetrics points) i = Some q ->
      normalizedHR q = None /\ In h (hrPopulation points))
  /\ (forall points st i p h,
        nth_error points i = Some p -> hr (point p) = Some h -> h == 0 ->
        findMaxHR_step points st i = st)
  /\ (forall points,
        Forall (fun p => zeroOrAbsent (hr (point p))) points ->
        findMaxHRSegment points = None)
  /\ (forall activity,
        Forall (fun p => zeroOrAbsent (hr p)) (Activity.points activity) ->
        ProcessedActivity.maxHRSegment (processActivity activity) = None).
Proof.
  repeat apply conj.
  - intros points i p q h Hp Hh Hz Hq.
    apply normalizeMetrics_nth in Hq as (p' & Hp' & Hrest).
    assert (p' = p) as -> by congruence.
    destruct Hrest as (_ & _ & _ & _ & _ & _ & -> & _).
    split.
    + rewrite Hh. cbn [normalizeOptional truthy].
      apply Qeq_bool_iff in Hz. now rewrite Hz.
    + apply hrPopulation_In. exists p. split; [| exact Hh].
      now apply nth_error_In in Hp.
  - intros points st i p h Hp Hh Hz. apply findMaxHR_step_skip.
    intros p' Hp'. assert (p' = p) as -> by congruence.
    now rewrite Hh.
  - exact findMaxHRSegment_none.
  - intros activity Hall. unfold processActivity.
    cbn [ProcessedActivity.maxHRSegment].
    apply findMaxHRSegment_none.
    rewrite <- (Forall_map point (fun p => zeroOrAbsent (hr p))).
    now rewrite normalizeMetrics_points, computeMetrics_points.
Qed.

(* ================================================================= *)
(** ** Properties of the segmentation engine *)
(* ================================================================= *)

Lemma detectSplits_upto_S (points : list ProcessedPoint) (splitDistance : Q)
    (k : nat) :
  detectSplits_upto points splitDistance (S k)
  = detectSplits_step points splitDistance
      (detectSplits_upto points splitDistance k) (S k).
Proof.
  unfold detectSplits_upto. now rewrite seq_S, fold_left_app.
Qed.

(** What one iteration does, by the test on the accumulator. *)
Lemma detectSplits_step_cases (points : list ProcessedPoint)
    (splitDistance : Q) (i : nat) (pi pj : ProcessedPoint)
    (splits : list Split.t) (start : nat) (acc : Q) :
  nth_error points i = Some pi -> nth_error points (i - 1) = Some pj ->
  let acc' := acc + (distance pi - distance pj) in
  (splitDistance <= acc' ->
   detectSplits_step points splitDistance (splits, start, acc) i
   = (splits ++ [makeSplit (length splits) acc' (slice points start (i + 1))],
      i, 0))
  /\ (acc' < splitDistance ->
      detectSplits_step points splitDistance (splits, start, acc) i
      = (splits, start, acc')).
Proof.
  intros Hi Hj acc'. unfold detectSplits_step. rewrite Hi, Hj. fold acc'.
  split; intros H.
  - apply Qle_bool_iff in H. now rewrite H.
  - destruct (Qle_bool splitDistance acc') eqn:E; [| reflexivity].
    apply Qle_bool_iff in E. exfalso. now apply (Qle_not_lt _ _ E).
Qed.

(** Every split closed so far is at least [splitDistance] long, and the
    accumulator stays below a positive [splitDistance]. *)
Lemma detectSplits_upto_full (points : list ProcessedPoint) (splitDistance : Q)
    (k : nat) :
  Forall (fun s => splitDistance <= Split.distance s)
    (fst (fst (detectSplits_upto points splitDistance k)))
  /\ (0 < splitDistance ->
      snd (detectSplits_upto points splitDistance k) < splitDistance).
Proof.
  induction k as [| k [IHsplits IHacc]].
  - split; [constructor | trivial].
  - rewrite detectSplits_upto_S.
    destruct (detectSplits_upto points splitDistance k)
      as [[splits start] acc].
    cbn [fst snd] in IHsplits, IHacc. unfold detectSplits_step.
    destruct (nth_error points (S k)) as [pi |]; [| now split].
    destruct (nth_error points (S k - 1)) as [pj |]; [| now split].
    destruct (Qle_bool splitDistance (acc + (distance pi - distance pj)))
      eqn:E; cbn [fst snd].
    + split; [| trivial].
      apply Forall_app. split; [exact IHsplits |].
      constructor; [| constructor].
      cbn [makeSplit Split.distance]. now apply Qle_bool_iff.
    + split; [exact IHsplits |]. intros _.
      apply Qnot_le_lt. intros Hle. apply Qle_bool_iff in Hle. congruence.
Qed.

(** The accumulator is the cumulative distance covered since the last
    boundary. *)
Lemma detectSplits_upto_accumulator (points : list ProcessedPoint)
    (splitDistance : Q) (k : nat) :
  (k < length points)%nat ->
  (snd (fst (detectSplits_upto points splitDistance k)) <= k)%nat
  /\ snd (detectSplits_upto points splitDistance k)
     == distanceAt points k
        - distanceAt points
            (snd (fst (detectSplits_upto points splitDistance k))).
Proof.
  induction k as [| k IH]; intros Hk.
  - unfold detectSplits_upto. cbn [seq fold_left fst snd].
    split; [lia | symmetry; apply Qplus_opp_r].
  - destruct IH as [IHstart IHacc]; [lia |].
    rewrite detectSplits_upto_S.
    destruct (detectSplits_upto points splitDistance k)
      as [[splits start] acc].
    cbn [fst snd] in IHstart, IHacc. unfold detectSplits_step.
    destruct (nth_error_in_range points (S k)) as [pi Hi]; [lia |].
    destruct (nth_error_in_range points k) as [pj Hj]; [lia |].
    replace (S k - 1)%nat with k by lia. rewrite Hi, Hj.
    assert (Hdk : distanceAt points k = distance pj).
    { unfold distanceAt. now rewrite Hj. }
    assert (HdSk : distanceAt points (S k) = distance pi).
    { unfold distanceAt. now rewrite Hi. }
    rewrite Hdk in IHacc. rewrite HdSk.
    destruct (Qle_bool splitDistance (acc + (distance pi - distance pj)));
      cbn [fst snd]; (split; [lia |]).
    + rewrite HdSk. ring.
    + rewrite IHacc. ring.
Qed.

Lemma slice_spans {A : Type} (l : list A) (start i : nat) :
  (start <= i)%nat -> (i < length l)%nat ->
  length (slice l start (i + 1)) = (i - start + 1)%nat
  /\ (forall k, (k <= i - start)%nat ->
        nth_error (slice l start (i + 1)) k = nth_error l (start + k)).
Proof.
  intros Hs Hi. unfold slice. split.
  - rewrite length_firstn, length_skipn. lia.
  - intros k Hk. rewrite nth_error_firstn, nth_error_skipn.
    destruct (Nat.ltb_spec k (i + 1 - start)); [reflexivity | lia].
Qed.

(** C2.  [detectSplits] closes a split exactly when the accumulator of
    per-point distance deltas since the last boundary reaches or exceeds
    [splitDistance]; the split is computed from the slice of the points from
    the previous boundary through the current point, both included, and the
    accumulator restarts at 0 from the current point; every split emitted
    is at least [splitDistance] long, so a shorter trailing remainder is
    never emitted; and the activity sampled every 100 units over 2,500
    units gives exactly 2 splits, closed at the points at 1000 and at 2000,
    with the last 500 units emitting none. *)
Theorem detectSplits_closes_at_threshold :
  (forall points splitDistance i pi pj splits start acc,
      (1 <= i)%nat ->
      nth_error points i = Some pi -> nth_error points (i - 1) = Some pj ->
      detectSplits_upto points splitDistance (i - 1) = (splits, start, acc) ->
      let acc' := acc + (distance pi - distance pj) in
      (splitDistance <= acc' ->
       detectSplits_upto points splitDistance i
       = (splits ++
            [makeSplit (length splits) acc' (slice points start (i + 1))],
          i, 0))
      /\ (acc' < splitDistance ->
          detectSplits_upto points splitDistance i = (splits, start, acc'))
      /\ acc == distanceAt points (i - 1) - distanceAt points start
      /\ length (slice points start (i + 1)) = (i - start + 1)%nat
      /\ (forall k, (k <= i - start)%nat ->
            nth_error (slice points start (i + 1)) k
            = nth_error points (start + k)))
  /\ (forall points splitDistance s,
        In s (detectSplits points splitDistance) ->
        splitDistance <= Split.distance s)
  /\ (forall points splitDistance,
        0 < splitDistance ->
        snd (detectSplits_upto points splitDistance (length points - 1))
        < splitDistance)
  /\ (map Split.distance (detectSplits uniform2500 1000) = [1000; 1000]
      /\ map Split.index (detectSplits uniform2500 1000) = [0%nat; 1%nat]
      /\ snd (fst (detectSplits_upto uniform2500 1000 9)) = 0%nat
      /\ snd (fst (detectSplits_upto uniform2500 1000 10)) = 10%nat
      /\ snd (fst (detectSplits_upto uniform2500 1000 19)) = 10%nat
      /\ snd (fst (detectSplits_upto uniform2500 1000 20)) = 20%nat
      /\ detectSplits_upto uniform2500 1000 25
         = (detectSplits uniform2500 1000, 20%nat, 500)).
Proof.
  repeat apply conj.
  - intros points splitDistance i pi pj splits start acc Hi Hpi Hpj Hst acc'.
    destruct i as [| k]; [lia |].
    replace (S k - 1)%nat with k in * by lia.
    assert (Hk : (k < length points)%nat).
    { apply nth_error_Some. congruence. }
    destruct (detectSplits_upto_accumulator points splitDistance k Hk)
      as [Hstart Hacc].
    rewrite Hst in Hstart, Hacc. cbn [fst snd] in Hstart, Hacc.
    rewrite detectSplits_upto_S, Hst.
    destruct (detectSplits_step_cases points splitDistance (S k) pi pj
                splits start acc Hpi) as [Hclose Hkeep].
    { now replace (S k - 1)%nat with k by lia. }
    assert (HSk : (S k < length points)%nat).
    { apply nth_error_Some. congruence. }
    destruct (slice_spans points start (S k)) as [Hlen Hnth]; [lia | lia |].
    repeat apply conj; assumption.
  - intros points splitDistance s Hin.
    destruct (detectSplits_upto_full points splitDistance (length points - 1))
      as [Hall _].
    rewrite Forall_forall in Hall. now apply Hall.
  - intros points splitDistance Hpos.
    now apply detectSplits_upto_full.
  - vm_compute. reflexivity.
  - vm_compute. reflexivity.
  - vm_compute. reflexivity.
  - vm_compute. reflexivity.
  - vm_compute. reflexivity.
  - vm_compute. reflexivity.
  - vm_compute. reflexivity.
Qed.

(** [avgHROf] divides the sum of the heart rates, with 0 for a missing one,
    by the number of all points of the slice. *)
Lemma avgHROf_counts_all (splitPoints : list ProcessedPoint) :
  avgHROf splitPoints
  = fold_left (fun sum p => sum + orZero (hr (point p))) splitPoints 0
    / inject_Z (Z.of_nat (length splitPoints)).
Proof. reflexivity. Qed.

(** C7 (not met by the code).  On three samples over 1,000 units whose
    heart rates are 150, missing and 150, [detectSplits] emits one split
    over the three points whose [averageHR] is 300 / 3 = 100: the missing
    sample counts as 0 in the sum and as a sample in the divisor.  The mean
    over the two samples that carry a heart rate is 150. *)
Theorem split_averageHR_counts_missing_as_zero :
  map Split.averageHR (detectSplits gappedHeartRate 1000) = [Some (300 # 3)]
  /\ 300 # 3 == 100
  /\ slice gappedHeartRate 0 (2 + 1) = gappedHeartRate
  /\ meanDefinedHR gappedHeartRate = Some (300 # 2)
  /\ 300 # 2 == 150
  /\ Qeq_bool (300 # 3) (300 # 2) = false.
Proof. repeat apply conj; reflexivity. Qed.

(* ================================================================= *)
(** ** Properties of the format adapters *)
(* ================================================================= *)

Lemma tcxTrackpoint_stored (tp : Tcx.Trackpoint) (p : Point) :
  In p (tcxTrackpoint tp) -> isNaN (lat p) = false /\ isNaN (lng p) = false.
Proof.
  unfold tcxTrackpoint. destruct (Tcx.Position tp) as [position |]; [| easy].
  cbv zeta.
  destruct (isNaN (lat (tcxPoint tp position))) eqn:Hlat;
    destruct (isNaN (lng (tcxPoint tp position))) eqn:Hlng;
    cbn [negb andb]; try easy.
  intros [<- | []]. now split.
Qed.

Lemma fitRecord_stored (record : Fit.RecordMesg) (p : Point) :
  In p (fitRecord record) -> isNaN (lat p) = false /\ isNaN (lng p) = false.
Proof.
  unfold fitRecord. cbv zeta.
  destruct (isNaN (lat (fitPoint record))) eqn:Hlat;
    destruct (isNaN (lng (fitPoint record))) eqn:Hlng;
    cbn [negb andb]; try easy.
  intros [<- | []]. now split.
Qed.

(** The activity that [parseTCXFile] returns holds the points of the laps
    of the first activity. *)
Lemma parseTCXFile_points (baseName : string) (activities : list Tcx.Activity)
    (a : Activity.t) :
  parseTCXFile baseName activities = inr a ->
  exists activity rest,
    activities = activity :: rest
    /\ Activity.points a
       = flat_map tcxLapPoints
           (match Tcx.Laps activity with Some l => l | None => [] end).
Proof.
  unfold parseTCXFile. destruct activities as [| activity rest]; [easy |].
  cbv zeta.
  destruct (flat_map tcxLapPoints _) as [| p points] eqn:E; [easy |].
  intros H. injection H as <-. exists activity, rest. now rewrite E.
Qed.

(** The activity that [parseFITFile] returns comes from a decoder that
    passed its check, and holds the points and the recomputed metrics of
    its records. *)
Lemma parseFITFile_activity (baseName : string) (decoder : Fit.Decoder)
    (a : Activity.t) :
  snd (parseFITFile baseName decoder) = inr a ->
  let m := calculateMetricsFromFIT (Activity.points a) in
  let session := hd_error (Fit.sessionMesgs (Fit.read decoder)) in
  let field (f : Fit.Session -> option Q) : option Q :=
    match session with Some s => f s | None => None end in
  Fit.checkIntegrity decoder = true
  /\ Activity.points a = flat_map fitRecord (Fit.recordMesgs (Fit.read decoder))
  /\ Activity.averagePace a = Metrics.averagePace m
  /\ Activity.totalDistance a
     = orElse (field Fit.totalDistance) (Metrics.totalDistance m)
  /\ Activity.totalTime a
     = orElse (jsOr (field Fit.totalElapsedTime) (field Fit.totalTimerTime))
         (Metrics.totalTime m).
Proof.
  unfold parseFITFile.
  destruct (Fit.checkIntegrity decoder); cbn [negb]; [| easy].
  cbv zeta. cbn [snd].
  destruct (flat_map fitRecord _) as [| p points] eqn:E; [easy |].
  intros H. injection H as <-.
  cbn [Activity.points Activity.averagePace Activity.totalDistance
       Activity.totalTime].
  repeat split.
Qed.

(** The activity that [parseGPXFile] returns holds the points gathered over
    the features and their recomputed metrics. *)
Lemma parseGPXFile_activity (baseName : string) (features : list Gpx.Feature)
    (a : Activity.t) :
  parseGPXFile baseName features = inr a ->
  let m := calculateBasicMetrics (Activity.points a) in
  Activity.points a
  = fst (fst (fold_left gpx_step features ([], baseName, None)))
  /\ Activity.averagePace a = Metrics.averagePace m
  /\ Activity.totalDistance a = Metrics.totalDistance m
  /\ Activity.totalTime a = Metrics.totalTime m.
Proof.
  unfold parseGPXFile. destruct features as [| f features]; [easy |].
  destruct (fold_left gpx_step (f :: features) ([], baseName, None))
    as [[points name] date].
  destruct points as [| p points]; [easy |].
  intros H. injection H as <-.
  cbn [Activity.points Activity.averagePace Activity.totalDistance
       Activity.totalTime].
  repeat split.
Qed.

Lemma gpxLinePoints_positions (coordTimes : list (option Z))
    (lineString : list Gpx.Coord) :
  map (fun p => (lat p, lng p)) (gpxLinePoints coordTimes lineString)
  = map (fun c => (Gpx.c1 c, Gpx.c0 c)) lineString.
Proof.
  unfold gpxLinePoints. generalize 0%nat as start.
  induction lineString as [| c l IH]; intros start; [reflexivity |].
  cbn [length seq combine map lat lng]. f_equal. apply IH.
Qed.

(** C3 (as amended).  The TCX and FIT adapters store a point exactly when
    neither its latitude nor its longitude is NaN; no range is checked.  So
    every point of an activity they return has a latitude and a longitude
    that are not NaN, a record with a NaN coordinate is dropped, and any
    other record is stored.  The GPX adapter stores the position of every
    coordinate of a line, unfiltered. *)
Theorem adapters_drop_only_NaN :
  (forall baseName activities a p,
      parseTCXFile baseName activities = inr a ->
      In p (Activity.points a) ->
      isNaN (lat p) = false /\ isNaN (lng p) = false)
  /\ (forall tp la lo,
        Tcx.Position tp = Some (la, lo) ->
        tcxTrackpoint tp
        = if isNaN la || isNaN lo then [] else [tcxPoint tp (la, lo)])
  /\ (forall baseName decoder a p,
        snd (parseFITFile baseName decoder) = inr a ->
        In p (Activity.points a) ->
        isNaN (lat p) = false /\ isNaN (lng p) = false)
  /\ (forall record,
        fitRecord record
        = if isNaN (lat (fitPoint record)) || isNaN (lng (fitPoint record))
          then [] else [fitPoint record])
  /\ (forall coordTimes lineString,
        map (fun p => (lat p, lng p)) (gpxLinePoints coordTimes lineString)
        = map (fun c => (Gpx.c1 c, Gpx.c0 c)) lineString).
Proof.
  repeat apply conj.
  - intros baseName activities a p Ha Hp.
    apply parseTCXFile_points in Ha as (activity & rest & _ & Hpoints).
    rewrite Hpoints in Hp.
    apply in_flat_map in Hp as (lap & _ & Hp). unfold tcxLapPoints in Hp.
    destruct (Tcx.Track lap) as [trackpoints |]; [| easy].
    apply in_flat_map in Hp as (tp & _ & Hp).
    now apply (tcxTrackpoint_stored tp).
  - intros tp la lo Hpos. unfold tcxTrackpoint. rewrite Hpos.
    cbn [tcxPoint lat lng fst snd].
    now destruct (isNaN la), (isNaN lo).
  - intros baseName decoder a p Ha Hp.
    apply parseFITFile_activity in Ha as (_ & Hpoints & _).
    rewrite Hpoints in Hp. apply in_flat_map in Hp as (record & _ & Hp).
    now apply (fitRecord_stored record).
  - intros record. unfold fitRecord. cbv zeta.
    now destruct (isNaN (lat (fitPoint record))),
                 (isNaN (lng (fitPoint record))).
  - exact gpxLinePoints_positions.
Qed.

Lemma orElse_default (v : option Q) (d : Q) :
  zeroOrAbsent v -> orElse v d = d.
Proof.
  destruct v as [q |]; cbn [zeroOrAbsent orElse]; [| reflexivity].
  intros H. apply Qeq_bool_iff in H. now rewrite H.
Qed.

Lemma jsOr_default (a b : option Q) : zeroOrAbsent a -> jsOr a b = b.
Proof.
  unfold jsOr. destruct a as [q |]; cbn [zeroOrAbsent truthy];
    [| reflexivity].
  intros H. apply Qeq_bool_iff in H. now rewrite H.
Qed.

(** The guarded quotient of [calculateBasicMetrics] and
    [calculateMetricsFromFIT] (gpxParser.ts l.109, FIT adapter l.162). *)
Lemma guardedPace_cases (totalTime totalDistance : Q) :
  let averagePace :=
    if Qlt_bool 0 totalTime then jsdiv totalTime totalDistance else Fin 0 in
  (0 < totalTime -> averagePace = jsdiv totalTime totalDistance)
  /\ (totalTime <= 0 -> averagePace = Fin 0).
Proof.
  cbv zeta. split; intros H.
  - apply Qlt_bool_iff in H. now rewrite H.
  - destruct (Qlt_bool 0 totalTime) eqn:E; [| reflexivity].
    apply Qlt_bool_iff in E. exfalso. now apply (Qle_not_lt _ _ H).
Qed.

(** For the GPX adapter, and for the FIT adapter when the session gives no
    distance or time total, the stored [averagePace] is
    [totalTime / totalDistance], in time per unit of [totalDistance],
    whenever [totalTime] is positive, and 0 otherwise. *)
Lemma averagePace_recomputed :
  (forall baseName features a,
      parseGPXFile baseName features = inr a ->
      (0 < Activity.totalTime a ->
       Activity.averagePace a
       = jsdiv (Activity.totalTime a) (Activity.totalDistance a))
      /\ (Activity.totalTime a <= 0 -> Activity.averagePace a = Fin 0))
  /\ (forall baseName decoder a,
        snd (parseFITFile baseName decoder) = inr a ->
        noSessionTotals decoder ->
        (0 < Activity.totalTime a ->
         Activity.averagePace a
         = jsdiv (Activity.totalTime a) (Activity.totalDistance a))
        /\ (Activity.totalTime a <= 0 -> Activity.averagePace a = Fin 0)).
Proof.
  split.
  - intros baseName features a Ha.
    apply parseGPXFile_activity in Ha as (_ & -> & -> & ->).
    apply guardedPace_cases.
  - intros baseName decoder a Ha Hnone.
    apply parseFITFile_activity in Ha as (_ & _ & -> & -> & ->).
    unfold noSessionTotals in Hnone.
    destruct (hd_error (Fit.sessionMesgs (Fit.read decoder))) as [s |].
    + destruct Hnone as (Hd & He & Ht).
      rewrite (jsOr_default _ _ He), !orElse_default by assumption.
      apply guardedPace_cases.
    + cbn [orElse jsOr truthy]. apply guardedPace_cases.
Qed.

(** C8.  [parseFITFile] calls the integrity check before anything else;
    when the check fails it stops with the integrity error, without reading
    the messages and without an activity, whatever the file holds; the
    messages are read, and an activity returned, only after a check that
    passed. *)
Theorem parseFITFile_integrity_first (baseName : string)
    (decoder : Fit.Decoder) :
  (Fit.checkIntegrity decoder = false ->
   parseFITFile baseName decoder
   = ([Fit.CheckIntegrity], inl (Error "FIT file integrity check failed")))
  /\ (exists rest,
        fst (parseFITFile baseName decoder) = Fit.CheckIntegrity :: rest)
  /\ (In Fit.Read (fst (parseFITFile baseName decoder)) ->
      Fit.checkIntegrity decoder = true)
  /\ (forall a, snd (parseFITFile baseName decoder) = inr a ->
                Fit.checkIntegrity decoder = true).
Proof.
  unfold parseFITFile.
  destruct (Fit.checkIntegrity decoder); cbn [negb fst snd];
    repeat apply conj; try easy; eauto.
  intros [H | []]. discriminate H.
Qed.

(* ================================================================= *)
(** ** Further properties of the metrics engine *)
(* ================================================================= *)

(* ----------------------------------------------------------------- *)
(** *** Sorting and percentiles *)

(** X1.  The sort of [percentile] returns its input rearranged in
    ascending order. *)
Theorem sortAscending_sorted_permutation (values : list Q) :
  StronglySorted Qle (sortAscending values)
  /\ Permutation values (sortAscending values).
Proof.
  split; [apply sortAscending_sorted | apply sortAscending_perm].
Qed.

Lemma StronglySorted_nth (l : list Q) :
  StronglySorted Qle l ->
  forall i j a b, (i <= j)%nat ->
    nth_error l i = Some a -> nth_error l j = Some b -> a <= b.
Proof.
  induction 1 as [| x l Hl IH Hx]; intros i j a b Hij Ha Hb.
  - now destruct i.
  - destruct i as [| i], j as [| j]; cbn [nth_error] in Ha, Hb.
    + injection Ha as <-. injection Hb as <-. apply Qle_refl.
    + injection Ha as <-. apply nth_error_In in Hb.
      rewrite Forall_forall in Hx. now apply Hx.
    + lia.
    + apply (IH i j); [lia | assumption | assumption].
Qed.

Lemma percentileIndex_monotone (n : nat) (p q : Q) :
  p <= q -> (percentileIndex n p <= percentileIndex n q)%nat.
Proof.
  intros Hpq. unfold percentileIndex.
  assert (H : (Qfloor (inject_Z (Z.of_nat n) * p)
               <= Qfloor (inject_Z (Z.of_nat n) * q))%Z).
  { apply Qfloor_resp_le.
    rewrite !(Qmult_comm (inject_Z (Z.of_nat n))).
    apply Qmult_le_compat_r; [exact Hpq |].
    replace 0 with (inject_Z 0) by reflexivity.
    rewrite <- Zle_Qle. lia. }
  lia.
Qed.

(** X2.  For [0 <= p < 1], the percentile of a non-empty list is one of the
    values of the list (up to equality of rationals); on the empty list it
    is 0. *)
Theorem percentile_is_a_value (values : list Q) (p : Q) :
  0 <= p -> p < 1 ->
  (values = [] -> percentile values p = 0)
  /\ (values <> [] -> exists v, In v values /\ percentile values p == v).
Proof.
  intros _ Hp. split.
  - intros ->. apply percentile_nil.
  - intros Hne. unfold percentile.
    assert (Hlen : (0 < length (sortAscending values))%nat).
    { rewrite sortAscending_length.
      destruct values; [congruence | simpl; lia]. }
    destruct (nth_error_in_range (sortAscending values)
                (percentileIndex (length (sortAscending values)) p))
      as [v Hv]; [now apply percentileIndex_lt |].
    rewrite Hv. exists v. split; [| apply orZero_eq].
    apply nth_error_In in Hv.
    eapply Permutation_in; [| exact Hv].
    symmetry. apply sortAscending_perm.
Qed.

(** X3.  Percentiles grow with [p]: for [0 <= p <= q < 1] the [p]-th percentile
    is at most the [q]-th, so the 5th never exceeds the 95th. *)
Theorem percentile_monotone (values : list Q) (p q : Q) :
  0 <= p -> p <= q -> q < 1 -> percentile values p <= percentile values q.
Proof.
  intros _ Hpq Hq. destruct values as [| v0 values].
  - rewrite !percentile_nil. apply Qle_refl.
  - unfold percentile.
    set (sorted := sortAscending (v0 :: values)).
    assert (Hlen : (0 < length sorted)%nat).
    { unfold sorted. rewrite sortAscending_length. simpl. lia. }
    assert (Hp : p < 1) by (eapply Qle_lt_trans; eassumption).
    destruct (nth_error_in_range sorted (percentileIndex (length sorted) p))
      as [a Ha]; [now apply percentileIndex_lt |].
    destruct (nth_error_in_range sorted (percentileIndex (length sorted) q))
      as [b Hb]; [now apply percentileIndex_lt |].
    rewrite Ha, Hb, !orZero_eq.
    eapply (StronglySorted_nth sorted); [| | exact Ha | exact Hb].
    + apply sortAscending_sorted.
    + now apply percentileIndex_monotone.
Qed.

(* ----------------------------------------------------------------- *)
(** *** Normalization *)

(** X4.  On a band [min < max], [normalize] is 0 at and below [min], 1 at
    and above [max], and never decreases with the value. *)
Theorem normalize_saturates_monotone (min max : Q) :
  min < max ->
  (forall v, v <= min -> normalize v min max == 0)
  /\ (forall v, max <= v -> normalize v min max == 1)
  /\ (forall v v', v <= v' -> normalize v min max <= normalize v' min max).
Proof.
  intros Hband.
  assert (Hne : ~ max == min).
  { intros H. rewrite H in Hband. now apply Qlt_irrefl in Hband. }
  assert (Hpos : 0 < max - min).
  { unfold Qminus. rewrite <- (Qplus_opp_r min).
    apply Qplus_lt_l. exact Hband. }
  repeat apply conj.
  - intros v Hv. rewrite normalize_clamp by exact Hne. unfold clamp01.
    assert (Hx : (v - min) / (max - min) <= 0).
    { apply Qle_shift_div_r; [exact Hpos |]. rewrite Qmult_0_l.
      unfold Qminus. rewrite <- (Qplus_opp_r min).
      apply Qplus_le_l. exact Hv. }
    rewrite Q.min_r by (eapply Qle_trans; [exact Hx | discriminate]).
    now apply Q.max_l.
  - intros v Hv. rewrite normalize_clamp by exact Hne. unfold clamp01.
    assert (Hx : 1 <= (v - min) / (max - min)).
    { apply Qle_shift_div_l; [exact Hpos |]. rewrite Qmult_1_l.
      unfold Qminus. apply Qplus_le_l. exact Hv. }
    rewrite Q.min_l by exact Hx.
    apply Q.max_r. discriminate.
  - intros v v' Hv. rewrite !normalize_clamp by exact Hne. unfold clamp01.
    apply Q.max_le_compat_l, Q.min_le_compat_l.
    unfold Qdiv. apply Qmult_le_compat_r.
    + unfold Qminus. apply Qplus_le_l. exact Hv.
    + apply Qinv_le_0_compat. now apply Qlt_le_weak.
Qed.

Lemma normalizeMetrics_populations (points : list ProcessedPoint) :
  pacePopulation (normalizeMetrics points) = pacePopulation points
  /\ hrPopulation (normalizeMetrics points) = hrPopulation points
  /\ powerPopulation (normalizeMetrics points) = powerPopulation points.
Proof.
  unfold pacePopulation, hrPopulation, powerPopulation, normalizeMetrics.
  rewrite !map_map. repeat split.
Qed.

(** X5.  [normalizeMetrics] is idempotent: it reads only the raw pace, heart
    rate and power, which it leaves unchanged, so normalizing again returns
    the same points. *)
Theorem normalizeMetrics_idempotent (points : list ProcessedPoint) :
  normalizeMetrics (normalizeMetrics points) = normalizeMetrics points.
Proof.
  destruct (normalizeMetrics_populations points) as (Hpace & Hhr & Hpower).
  unfold normalizeMetrics at 1. rewrite Hpace, Hhr, Hpower.
  unfold normalizeMetrics. rewrite map_map. reflexivity.
Qed.

(* ----------------------------------------------------------------- *)
(** *** Signs and totals in [computeMetrics] *)

Lemma Forall_skipn {A : Type} (P : A -> Prop) (n : nat) (l : list A) :
  Forall P l -> Forall P (skipn n l).
Proof.
  revert l. induction n as [| n IH]; intros l H; [exact H |].
  destruct H; cbn [skipn]; [constructor | now apply IH].
Qed.

Lemma Qplus_nonneg (a b : Q) : 0 <= a -> 0 <= b -> 0 <= a + b.
Proof.
  intros Ha Hb. change (0 + 0 <= a + b). now apply Qplus_le_compat.
Qed.

Lemma sum_nonneg (l : list Q) :
  Forall (fun x => 0 <= x) l -> 0 <= fold_right Qplus 0 l.
Proof.
  induction 1 as [| x l Hx Hl IH]; cbn [fold_right]; [apply Qle_refl |].
  now apply Qplus_nonneg.
Qed.

Lemma trailingAverage_nonneg (previous : list Q) (value : Q)
    (halfWindow : nat) :
  Forall (fun x => 0 <= x) previous -> 0 <= value ->
  0 <= trailingAverage previous value halfWindow.
Proof.
  intros Hprev Hvalue. unfold trailingAverage. cbv zeta.
  apply Qle_shift_div_l.
  - replace 0 with (inject_Z 0) by reflexivity. rewrite <- Zlt_Qlt. lia.
  - rewrite Qmult_0_l.
    apply Qplus_nonneg; [exact Hvalue |].
    now apply sum_nonneg, Forall_skipn.
Qed.

Lemma Qdiv_nonneg (x y : Q) : 0 <= x -> 0 < y -> 0 <= x / y.
Proof.
  intros Hx Hy. apply Qle_shift_div_l; [exact Hy |].
  now rewrite Qmult_0_l.
Qed.

Section Signs.
Hypothesis haversineDistance_nonneg :
  forall p1 p2 : Point, 0 <= haversineDistance p1 p2.

Lemma rawMetrics_nonneg (i : nat) (prev curr : Point) :
  0 <= rawSpeed (rawMetrics i prev curr)
  /\ 0 <= rawPace (rawMetrics i prev curr).
Proof.
  pose proof (segmentDistance_nonneg haversineDistance_nonneg i prev curr)
    as Hseg.
  unfold rawMetrics in *. cbn [segmentDistance rawSpeed rawPace] in *.
  set (seg := if (0 <? i)%nat then haversineDistance prev curr else 0) in *.
  set (timeDelta := match time curr with
                    | Some tc => match time prev with
                                 | Some tp => inject_Z (tc - tp) / 1000
                                 | None => 1
                                 end
                    | None => 1
                    end).
  set (v := if Qlt_bool 0 timeDelta then seg / timeDelta else 0).
  assert (Hspeed : 0 <= v).
  { unfold v. destruct (Qlt_bool 0 timeDelta) eqn:E; [| apply Qle_refl].
    apply Qlt_bool_iff in E. now apply Qdiv_nonneg. }
  split; [exact Hspeed |].
  destruct (Qlt_bool 0 v) eqn:E; [| apply Qle_refl].
  apply Qlt_bool_iff in E. apply Qdiv_nonneg; [discriminate |].
  rewrite <- (Qmult_0_l 60). apply Qmult_lt_r; [reflexivity | exact E].
Qed.

Lemma computeMetrics_upto_nonneg (points : list Point) (k : nat) :
  (k <= length points)%nat ->
  Forall (fun p => 0 <= distance p /\ 0 <= speed p /\ 0 <= pace p)
    (fst (computeMetrics_upto points k))
  /\ 0 <= snd (computeMetrics_upto points k).
Proof.
  induction k as [| k IH]; intros Hk.
  - split; [constructor | apply Qle_refl].
  - destruct IH as [IHall IHtotal]; [lia |].
    destruct (computeMetrics_upto_shape points k) as [Hlen _]; [lia |].
    rewrite computeMetrics_upto_S. unfold computeMetrics_step.
    destruct (nth_error_in_range points k) as [curr Hcurr]; [lia |].
    rewrite Hcurr. cbn [fst snd].
    set (st := computeMetrics_upto points k) in *.
    set (m := rawMetrics k (prevPoint points k curr) curr).
    assert (Htotal : 0 <= snd st + segmentDistance m).
    { apply Qplus_nonneg; [exact IHtotal |].
      now apply segmentDistance_nonneg. }
    split; [| exact Htotal].
    apply Forall_app. split; [exact IHall |].
    constructor; [| constructor]. cbn [distance speed pace].
    destruct (rawMetrics_nonneg k (prevPoint points k curr) curr)
      as [Hspeed Hpace].
    repeat split; [exact Htotal | exact Hspeed |].
    rewrite (smoothValue_trailing (fst st) k pace) by exact Hlen.
    apply trailingAverage_nonneg; [| exact Hpace].
    rewrite Forall_map. eapply Forall_impl; [| exact IHall].
    now intros p (_ & _ & H).
Qed.

End Signs.

(** X6.  With a non-negative distance function, every processed point has a
    non-negative cumulative distance, speed and pace; a pace is 0 or
    positive, never negative. *)
Theorem computeMetrics_nonneg :
  (forall p1 p2 : Point, 0 <= haversineDistance p1 p2) ->
  forall points p,
    In p (computeMetrics points) ->
    0 <= distance p /\ 0 <= speed p /\ 0 <= pace p.
Proof.
  intros Hnonneg points p Hin.
  destruct (computeMetrics_upto_nonneg Hnonneg points (length points))
    as [Hall _]; [lia |].
  rewrite Forall_forall in Hall. now apply Hall.
Qed.

Lemma totals_step_distance (points : list Point) (st : Totals) (i : nat)
    (prev curr : Point) :
  nth_error points (i - 1) = Some prev /\ nth_error points i = Some curr ->
  sumDistance (totals_step points st i)
  = sumDistance st + haversineDistance prev curr.
Proof.
  intros [Hprev Hcurr]. unfold totals_step. now rewrite Hprev, Hcurr.
Qed.

Lemma computeMetrics_upto_total (points : list Point) (k : nat) :
  (S k <= length points)%nat ->
  snd (computeMetrics_upto points (S k))
  == sumDistance
       (fold_left (totals_step points) (seq 1 k)
          (mkTotals 0 0 (mkBounds PosInf NegInf PosInf NegInf) 0 0%nat 0)).
Proof.
  induction k as [| k IH]; intros Hk.
  - rewrite computeMetrics_upto_S. unfold computeMetrics_step.
    destruct (nth_error_in_range points 0) as [curr Hcurr]; [lia |].
    rewrite Hcurr. reflexivity.
  - rewrite computeMetrics_upto_S. unfold computeMetrics_step at 1.
    destruct (nth_error_in_range points (S k)) as [curr Hcurr]; [lia |].
    destruct (nth_error_in_range points k) as [prev Hprev]; [lia |].
    rewrite Hcurr. cbn [snd]. rewrite IH by lia.
    rewrite seq_S, fold_left_app. cbn [fold_left Nat.add].
    rewrite (totals_step_distance points _ (S k) prev curr)
      by (replace (S k - 1)%nat with k by lia; now split).
    unfold rawMetrics, prevPoint.
    cbn [segmentDistance Nat.ltb Nat.leb].
    replace (S k - 1)%nat with k by lia.
    rewrite (nth_error_nth points k curr Hprev). reflexivity.
Qed.

Lemma computeMetrics_last_distance (points : list Point)
    (p : ProcessedPoint) :
  nth_error (computeMetrics points) (length points - 1) = Some p ->
  distance p == sumDistance (totalsOf points).
Proof.
  intros Hp.
  assert (Hlen : (0 < length points)%nat).
  { destruct points; [discriminate Hp | simpl; lia]. }
  destruct (nth_error_in_range points (length points - 1))
    as [curr Hcurr]; [lia |].
  rewrite (computeMetrics_nth points _ curr Hcurr) in Hp.
  cbv zeta in Hp. injection Hp as <-. cbn [distance].
  pose proof (computeMetrics_upto_total points (length points - 1)) as Ht.
  rewrite computeMetrics_upto_S in Ht. unfold computeMetrics_step in Ht.
  rewrite Hcurr in Ht. cbn [snd] in Ht.
  rewrite Ht by lia. reflexivity.
Qed.

(** X7.  The cumulative distance of the last processed point is the total
    distance that the adapters recompute from the same points. *)
Theorem computeMetrics_last_distance_is_total (points : list Point)
    (p : ProcessedPoint) :
  nth_error (computeMetrics points) (length points - 1) = Some p ->
  distance p == sumDistance (totalsOf points)
  /\ distance p == Metrics.totalDistance (calculateBasicMetrics points)
  /\ distance p == Metrics.totalDistance (calculateMetricsFromFIT points).
Proof.
  intros Hp. repeat split; now apply computeMetrics_last_distance.
Qed.

(** X8.  A sample whose timestamp does not advance past the previous one
    gets speed 0; a sample without a timestamp on either side gets the
    segment distance as its speed, the time delta being 1. *)
Theorem computeMetrics_speed_edges (points : list Point) (i : nat)
    (prev curr : Point) (p : ProcessedPoint) :
  nth_error points i = Some prev ->
  nth_error points (S i) = Some curr ->
  nth_error (computeMetrics points) (S i) = Some p ->
  (forall tp tc, time prev = Some tp -> time curr = Some tc ->
                 (tc <= tp)%Z -> speed p = 0)
  /\ (time prev = None \/ time curr = None ->
      speed p == haversineDistance prev curr).
Proof.
  intros Hprev Hcurr Hp.
  rewrite (computeMetrics_nth points (S i) curr Hcurr) in Hp.
  cbv zeta in Hp. injection Hp as <-. cbn [speed].
  unfold rawMetrics, prevPoint. cbn [rawSpeed Nat.ltb Nat.leb].
  replace (S i - 1)%nat with i by lia.
  rewrite (nth_error_nth points i curr Hprev).
  split.
  - intros tp tc -> -> Hle.
    destruct (Qlt_bool 0 (inject_Z (tc - tp) / 1000)) eqn:E; [| reflexivity].
    apply Qlt_bool_iff in E. exfalso.
    apply (Qlt_not_le _ _ E). apply Qle_shift_div_r; [reflexivity |].
    rewrite Qmult_0_l. replace 0 with (inject_Z 0) by reflexivity.
    rewrite <- Zle_Qle. lia.
  - assert (H1 : forall x, (if Qlt_bool 0 1 then x / 1 else 0) == x).
    { intros x. cbn [Qlt_bool Qle_bool]. cbn. field. }
    intros [H | H]; rewrite H.
    + destruct (time curr); apply H1.
    + apply H1.
Qed.

(** X9.  An elevation of 0 counts as a missing one: when either endpoint of
    a segment has elevation 0 or none, the raw grade of the segment is 0. *)
Theorem rawGrade_zero_elevation (i : nat) (prev curr : Point) :
  zeroOrAbsent (ele curr) \/ zeroOrAbsent (ele prev) ->
  rawGrade (rawMetrics i prev curr) == 0.
Proof.
  intros H. unfold rawMetrics. cbn [rawGrade].
  assert (Hdelta :
    match ele curr, ele prev with
    | Some ec, Some ep =>
        if truthy (Some ec) && truthy (Some ep) then ec - ep else 0
    | _, _ => 0
    end = 0).
  { destruct (ele curr) as [ec |], (ele prev) as [ep |]; try reflexivity.
    cbn [truthy zeroOrAbsent] in *.
    destruct H as [H | H]; apply Qeq_bool_iff in H; rewrite H; cbn;
      [reflexivity | now rewrite andb_false_r]. }
  rewrite Hdelta.
  destruct (Qlt_bool 0 _); [| reflexivity].
  unfold Qdiv. now rewrite !Qmult_0_l.
Qed.

(* ================================================================= *)
(** ** Further properties of the segmentation engine *)
(* ================================================================= *)

(* ----------------------------------------------------------------- *)
(** *** [detectSplits] *)

Lemma sum_snoc (l : list Q) (x : Q) :
  fold_right Qplus 0 (l ++ [x]) == fold_right Qplus 0 l + x.
Proof.
  induction l as [| y l IH]; cbn [app fold_right]; [ring |].
  rewrite IH. ring.
Qed.

(** The distances of the splits closed so far and the accumulator add up to
    the distance covered so far. *)
Lemma detectSplits_upto_conserves (points : list ProcessedPoint)
    (splitDistance : Q) (k : nat) :
  (k < length points)%nat ->
  fold_right Qplus 0
    (map Split.distance (fst (fst (detectSplits_upto points splitDistance k))))
  + snd (detectSplits_upto points splitDistance k)
  == distanceAt points k - distanceAt points 0.
Proof.
  induction k as [| k IH]; intros Hk.
  - unfold detectSplits_upto. cbn [seq fold_left fst snd map fold_right].
    ring.
  - specialize (IH ltac:(lia)). rewrite detectSplits_upto_S.
    destruct (detectSplits_upto points splitDistance k)
      as [[splits start] acc].
    cbn [fst snd] in IH. unfold detectSplits_step.
    destruct (nth_error_in_range points (S k)) as [pi Hi]; [lia |].
    destruct (nth_error_in_range points k) as [pj Hj]; [lia |].
    replace (S k - 1)%nat with k by lia. rewrite Hi, Hj.
    assert (Hdk : distanceAt points k = distance pj).
    { unfold distanceAt. now rewrite Hj. }
    assert (HdSk : distanceAt points (S k) = distance pi).
    { unfold distanceAt. now rewrite Hi. }
    rewrite Hdk in IH. rewrite HdSk.
    setoid_replace (distance pi - distanceAt points 0)
      with ((distance pj - distanceAt points 0) + (distance pi - distance pj))
      by ring.
    rewrite <- IH.
    destruct (Qle_bool splitDistance (acc + (distance pi - distance pj)));
      cbn [fst snd].
    + rewrite map_app. cbn [map makeSplit Split.distance].
      rewrite sum_snoc. ring.
    + ring.
Qed.

Lemma detectSplits_upto_indices (points : list ProcessedPoint)
    (splitDistance : Q) (k : nat) :
  map Split.index (fst (fst (detectSplits_upto points splitDistance k)))
  = seq 0 (length (fst (fst (detectSplits_upto points splitDistance k)))).
Proof.
  induction k as [| k IH]; [reflexivity |].
  rewrite detectSplits_upto_S.
  destruct (detectSplits_upto points splitDistance k)
    as [[splits start] acc].
  cbn [fst snd] in IH. unfold detectSplits_step.
  destruct (nth_error points (S k)) as [pi |]; [| exact IH].
  destruct (nth_error points (S k - 1)) as [pj |]; [| exact IH].
  destruct (Qle_bool splitDistance _); cbn [fst]; [| exact IH].
  rewrite map_app, length_app, IH. cbn [map length makeSplit Split.index].
  rewrite Nat.add_1_r, seq_S. reflexivity.
Qed.

Lemma sum_at_least (l : list Q) (d : Q) :
  Forall (fun x => d <= x) l ->
  inject_Z (Z.of_nat (length l)) * d <= fold_right Qplus 0 l.
Proof.
  induction 1 as [| x l Hx Hl IH]; cbn [length fold_right].
  - rewrite Qmult_0_l. apply Qle_refl.
  - rewrite Nat2Z.inj_succ. unfold Z.succ. rewrite inject_Z_plus.
    rewrite Qmult_plus_distr_l, Qmult_1_l, Qplus_comm.
    now apply Qplus_le_compat.
Qed.

Lemma detectSplits_conserves (points : list ProcessedPoint)
    (splitDistance : Q) :
  fold_right Qplus 0 (map Split.distance (detectSplits points splitDistance))
  + snd (detectSplits_upto points splitDistance (length points - 1))
  == distanceAt points (length points - 1) - distanceAt points 0.
Proof.
  destruct points as [| p points].
  - cbn. ring.
  - apply detectSplits_upto_conserves. simpl. lia.
Qed.

(** X10.  The splits partition the distance covered: the distances of the
    emitted splits plus the remainder left in the accumulator equal the
    cumulative distance of the last point minus that of the first, and the
    splits are numbered 0, 1, 2, ... in the order they are emitted. *)
Theorem detectSplits_partitions_distance (points : list ProcessedPoint)
    (splitDistance : Q) :
  fold_right Qplus 0 (map Split.distance (detectSplits points splitDistance))
  + snd (detectSplits_upto points splitDistance (length points - 1))
  == distanceAt points (length points - 1) - distanceAt points 0
  /\ map Split.index (detectSplits points splitDistance)
     = seq 0 (length (detectSplits points splitDistance)).
Proof.
  split; [apply detectSplits_conserves | apply detectSplits_upto_indices].
Qed.

Lemma detectSplits_count_le (points : list ProcessedPoint)
    (splitDistance : Q) :
  (forall i j pi pj, (i <= j)%nat ->
      nth_error points i = Some pi -> nth_error points j = Some pj ->
      distance pi <= distance pj) ->
  inject_Z (Z.of_nat (length (detectSplits points splitDistance)))
  * splitDistance
  <= distanceAt points (length points - 1) - distanceAt points 0.
Proof.
  intros Hmono.
  rewrite <- (detectSplits_conserves points splitDistance).
  assert (Hacc :
    0 <= snd (detectSplits_upto points splitDistance (length points - 1))).
  { destruct points as [| p points]; [apply Qle_refl |].
    destruct (detectSplits_upto_accumulator (p :: points) splitDistance
                (length (p :: points) - 1)) as [Hstart ->]; [simpl; lia |].
    set (start := snd (fst (detectSplits_upto _ _ _))) in *.
    destruct (nth_error_in_range (p :: points) start) as [ps Hs];
      [simpl in *; lia |].
    destruct (nth_error_in_range (p :: points) (length (p :: points) - 1))
      as [pe He]; [simpl; lia |].
    unfold distanceAt. rewrite Hs, He.
    unfold Qminus. rewrite <- (Qplus_opp_r (distance ps)).
    apply Qplus_le_l. now apply (Hmono start (length (p :: points) - 1)%nat). }
  rewrite <- (Qplus_0_r (_ * splitDistance)).
  apply Qplus_le_compat; [| exact Hacc].
  rewrite <- (length_map Split.distance).
  apply sum_at_least. rewrite Forall_map.
  apply (detectSplits_upto_full points splitDistance (length points - 1)).
Qed.

(** X11.  On points whose cumulative distance never decreases, as the
    metrics engine produces them, the number of splits times
    [splitDistance] is at most the distance covered: no more than
    [floor (total / splitDistance)] splits are emitted. *)
Theorem detectSplits_count_bound (points : list ProcessedPoint)
    (splitDistance : Q) :
  (forall i j pi pj, (i <= j)%nat ->
      nth_error points i = Some pi -> nth_error points j = Some pj ->
      distance pi <= distance pj) ->
  inject_Z (Z.of_nat (length (detectSplits points splitDistance)))
  * splitDistance
  <= distanceAt points (length points - 1) - distanceAt points 0.
Proof. apply detectSplits_count_le. Qed.

(* ----------------------------------------------------------------- *)
(** *** [findFastestSplit] *)

Lemma fastest_fold (rest : list Split.t) :
  forall first : Split.t,
    let r :=
      fold_left
        (fun fastest split =>
           if Qlt_bool (Split.pace split) (Split.pace fastest)
           then split else fastest)
        rest first in
    In r (first :: rest)
    /\ Split.pace r <= Split.pace first
    /\ (forall t, In t rest -> Split.pace r <= Split.pace t)
    /\ ((forall t, In t rest -> Split.pace first <= Split.pace t) ->
        r = first).
Proof.
  induction rest as [| s rest IH]; intros first; cbv zeta.
  - cbn [fold_left]. repeat split; [now left | apply Qle_refl | easy].
  - cbn [fold_left].
    destruct (Qlt_bool (Split.pace s) (Split.pace first)) eqn:E.
    + apply Qlt_bool_iff in E.
      destruct (IH s) as (Hin & Hle & Hall & _). cbv zeta in *.
      repeat split.
      * destruct Hin as [<- | Hin]; [right; now left | right; now right].
      * eapply Qle_trans; [exact Hle | now apply Qlt_le_weak].
      * intros t [<- | Ht]; [exact Hle | now apply Hall].
      * intros Hmin. exfalso.
        apply (Qlt_not_le _ _ E). apply Hmin. now left.
    + assert (Hle' : Split.pace first <= Split.pace s).
      { apply Qnot_lt_le. intros H. apply Qlt_bool_iff in H. congruence. }
      destruct (IH first) as (Hin & Hle & Hall & Hsame). cbv zeta in *.
      repeat split.
      * destruct Hin as [<- | Hin]; [now left | right; now right].
      * exact Hle.
      * intros t [<- | Ht]; [| now apply Hall].
        eapply Qle_trans; [exact Hle | exact Hle'].
      * intros Hmin. apply Hsame. intros t Ht. apply Hmin. now right.
Qed.

(** X12.  [findFastestSplit] returns nothing exactly on an empty list;
    otherwise it returns one of the splits, whose pace is at most the pace
    of every split; and when the first split is already one of the fastest
    it is the one returned (a later split replaces it only if strictly
    faster). *)
Theorem findFastestSplit_minimum (splits : list Split.t) :
  (findFastestSplit splits = None <-> splits = [])
  /\ (forall s, findFastestSplit splits = Some s ->
        In s splits
        /\ forall t, In t splits -> Split.pace s <= Split.pace t)
  /\ (forall first rest,
        splits = first :: rest ->
        (forall t, In t rest -> Split.pace first <= Split.pace t) ->
        findFastestSplit splits = Some first).
Proof.
  split; [| split].
  - destruct splits; cbn [findFastestSplit]; split; intros H;
      try reflexivity; discriminate H.
  - intros s Hs. destruct splits as [| first rest]; [discriminate |].
    cbn [findFastestSplit] in Hs. injection Hs as <-.
    destruct (fastest_fold rest first) as (Hin & Hle & Hall & _).
    cbv zeta in *. split; [exact Hin |].
    intros t [<- | Ht]; [exact Hle | now apply Hall].
  - intros first rest -> Hmin. cbn [findFastestSplit]. f_equal.
    now apply (fastest_fold rest first).
Qed.

(* ----------------------------------------------------------------- *)
(** *** [findMaxHRSegment] *)

Lemma findMaxHR_upto_S (points : list ProcessedPoint) (k : nat) :
  findMaxHR_upto points (S k)
  = findMaxHR_step points (findMaxHR_upto points k) k.
Proof. unfold findMaxHR_upto. now rewrite seq_S, fold_left_app. Qed.

(** After [k] iterations [maxHR] bounds the heart rates seen, and
    [maxHRIndex] is either -1, with [maxHR = 0], or the first index that
    holds [maxHR], which is positive. *)
Lemma findMaxHR_upto_inv (points : list ProcessedPoint) (k : nat) :
  (k <= length points)%nat ->
  let maxHR := fst (findMaxHR_upto points k) in
  let maxHRIndex := snd (findMaxHR_upto points k) in
  0 <= maxHR
  /\ (forall i p h, (i < k)%nat -> nth_error points i = Some p ->
        hr (point p) = Some h -> h <= maxHR)
  /\ (maxHRIndex = (-1)%Z -> maxHR = 0)
  /\ (maxHRIndex <> (-1)%Z ->
      exists p,
        (0 <= maxHRIndex < Z.of_nat k)%Z
        /\ nth_error points (Z.to_nat maxHRIndex) = Some p
        /\ hr (point p) = Some maxHR
        /\ 0 < maxHR
        /\ (forall i q h, (i < Z.to_nat maxHRIndex)%nat ->
              nth_error points i = Some q -> hr (point q) = Some h ->
              h < maxHR)).
Proof.
  induction k as [| k IH]; intros Hk; cbv zeta.
  - cbn. repeat split; try easy; intros; lia.
  - specialize (IH ltac:(lia)). cbv zeta in IH.
    destruct IH as (Hpos & Hmax & Hnone & Hsome).
    rewrite findMaxHR_upto_S.
    destruct (findMaxHR_upto points k) as [maxHR maxHRIndex].
    cbn [fst snd] in *. unfold findMaxHR_step.
    destruct (nth_error_in_range points k) as [pk Hpk]; [lia |].
    rewrite Hpk. cbn [fst].
    assert (Hkeep :
      (forall h, hr (point pk) = Some h -> h <= maxHR) ->
      0 <= maxHR
      /\ (forall i p h, (i < S k)%nat -> nth_error points i = Some p ->
            hr (point p) = Some h -> h <= maxHR)
      /\ (maxHRIndex = (-1)%Z -> maxHR = 0)
      /\ (maxHRIndex <> (-1)%Z ->
          exists p,
            (0 <= maxHRIndex < Z.of_nat (S k))%Z
            /\ nth_error points (Z.to_nat maxHRIndex) = Some p
            /\ hr (point p) = Some maxHR
            /\ 0 < maxHR
            /\ (forall i q h, (i < Z.to_nat maxHRIndex)%nat ->
                  nth_error points i = Some q -> hr (point q) = Some h ->
                  h < maxHR))).
    { intros Hk'. repeat split; try assumption.
      - intros i p h Hi Hp Hh.
        destruct (Nat.eq_dec i k) as [-> | Hne].
        + assert (p = pk) as -> by congruence. now apply Hk'.
        + apply (Hmax i p h); [lia | assumption | assumption].
      - intros Hidx. destruct (Hsome Hidx) as (p & Hr & Hrest).
        exists p. split; [lia | exact Hrest]. }
    destruct (hr (point pk)) as [h |] eqn:Hh; [| apply Hkeep; discriminate].
    destruct (truthy (Some h) && Qlt_bool maxHR h) eqn:E; cbn [fst snd].
    + apply andb_prop in E as [_ E]. apply Qlt_bool_iff in E.
      repeat split.
      * eapply Qle_trans; [exact Hpos | now apply Qlt_le_weak].
      * intros i p h' Hi Hp Hh'.
        destruct (Nat.eq_dec i k) as [-> | Hne].
        -- assert (p = pk) as -> by congruence.
           assert (h' = h) as -> by congruence. apply Qle_refl.
        -- apply Qlt_le_weak. eapply Qle_lt_trans; [| exact E].
           apply (Hmax i p h'); [lia | assumption | assumption].
      * lia.
      * intros _. exists pk. rewrite Nat2Z.id.
        repeat split; try assumption; try lia.
        -- eapply Qle_lt_trans; [exact Hpos | exact E].
        -- intros i q h' Hi Hq Hh'. eapply Qle_lt_trans; [| exact E].
           now apply (Hmax i q h').
    + apply Hkeep. intros h' Hh'. injection Hh' as <-.
      apply andb_false_iff in E as [E | E].
      * cbn [truthy] in E. apply negb_false_iff, Qeq_bool_iff in E.
        now rewrite E.
      * apply Qnot_lt_le. intros H. apply Qlt_bool_iff in H. congruence.
Qed.

(** X13.  [findMaxHRSegment] returns a segment exactly when some point has a
    positive heart rate.  The segment is the window of 30 samples on either
    side of [k], clipped to the sequence, where [k] is the first index that
    holds the largest heart rate; its description carries that heart rate
    and its distance is the cumulative distance across the window. *)
Theorem findMaxHRSegment_window (points : list ProcessedPoint) :
  ((exists p h, In p points /\ hr (point p) = Some h /\ 0 < h) ->
   exists seg, findMaxHRSegment points = Some seg)
  /\ (forall seg, findMaxHRSegment points = Some seg ->
        exists k pk maxHR,
          nth_error points k = Some pk
          /\ hr (point pk) = Some maxHR
          /\ 0 < maxHR
          /\ (forall p h, In p points -> hr (point p) = Some h -> h <= maxHR)
          /\ (forall i p h, (i < k)%nat -> nth_error points i = Some p ->
                hr (point p) = Some h -> h < maxHR)
          /\ Segment.startIndex seg = (k - 30)%nat
          /\ Segment.endIndex seg = Nat.min (length points - 1) (k + 30)
          /\ Segment.distance seg
             = distanceAt points (Segment.endIndex seg)
               - distanceAt points (Segment.startIndex seg)
          /\ Segment.grade seg = 0
          /\ Segment.description seg = MaxHRDescription maxHR).
Proof.
  pose proof (findMaxHR_upto_inv points (length points) (Nat.le_refl _))
    as Hinv.
  cbv zeta in Hinv.
  change (findMaxHR_upto points (length points)) with (findMaxHR points)
    in Hinv.
  destruct Hinv as (Hpos & Hmax & Hnone & Hsome).
  unfold findMaxHRSegment.
  destruct (findMaxHR points) as [maxHR maxHRIndex]. cbn [fst snd] in *.
  destruct (Z.eqb_spec maxHRIndex (-1)) as [Hidx | Hidx].
  - split; [| discriminate].
    intros (p & h & Hin & Hh & Hlt). exfalso.
    apply In_nth_error in Hin as [i Hi].
    assert (Hle : h <= maxHR).
    { apply (Hmax i p h); [| assumption | assumption].
      apply nth_error_Some. congruence. }
    rewrite (Hnone Hidx) in Hle. now apply (Qlt_not_le _ _ Hlt).
  - destruct (Hsome Hidx) as (pk & Hrange & Hpk & Hhr & Hlt & Hfirst).
    cbv zeta.
    set (k := Z.to_nat maxHRIndex) in *.
    assert (Hstart : Z.to_nat (Z.max 0 (maxHRIndex - 30)) = (k - 30)%nat)
      by (unfold k; lia).
    assert (Hend : Z.to_nat (Z.min (Z.of_nat (length points) - 1)
                                   (maxHRIndex + 30))
                   = Nat.min (length points - 1) (k + 30))
      by (unfold k; lia).
    rewrite Hstart, Hend.
    destruct (nth_error_in_range points (Nat.min (length points - 1) (k + 30)))
      as [pe He]; [lia |].
    destruct (nth_error_in_range points (k - 30)) as [ps Hs];
      [unfold k; lia |].
    rewrite He, Hs. split; [eauto |].
    intros seg Hseg. injection Hseg as <-.
    exists k, pk, maxHR. cbn [Segment.startIndex Segment.endIndex
      Segment.distance Segment.grade Segment.description].
    unfold distanceAt. rewrite He, Hs.
    repeat split; try assumption; try reflexivity.
    intros p h Hin Hh. apply In_nth_error in Hin as [i Hi].
    apply (Hmax i p h); [| assumption | assumption].
    apply nth_error_Some. congruence.
Qed.

(* ----------------------------------------------------------------- *)
(** *** [findSteepestClimb] *)

Lemma skipn_cons_inv {A : Type} (l : list A) (j : nat) (x : A) (r : list A) :
  skipn j l = x :: r -> nth_error l j = Some x /\ skipn (S j) l = r.
Proof.
  revert l. induction j as [| j IH]; intros [| y l] H; cbn in *;
    try discriminate.
  - injection H as -> ->. now split.
  - now apply IH.
Qed.

Lemma climbValid_nonneg (points : list ProcessedPoint) (minDistance : Q)
    (st : ClimbState) :
  climbValid points minDistance st -> 0 <= fst st.
Proof.
  unfold climbValid. destruct (snd st) as [seg |].
  - intros (ps & pe & es & ee & H). decompose [and] H.
    replace (fst st) with (Segment.grade seg) by congruence.
    now apply Qlt_le_weak.
  - intros ->. apply Qle_refl.
Qed.

(** The inner scan keeps a valid state valid. *)
Lemma climbScan_valid (points : list ProcessedPoint) (minDistance : Q)
    (i : nat) (pi : ProcessedPoint) :
  nth_error points i = Some pi ->
  forall rest j segmentDistance st,
    skipn j points = rest -> (i < j)%nat ->
    climbValid points minDistance st ->
    climbValid points minDistance
      (climbScan minDistance pi i j rest segmentDistance st).
Proof.
  intros Hpi. induction rest as [| pj rest IH];
    intros j segmentDistance st Hrest Hij Hst; cbn [climbScan];
    [exact Hst |].
  destruct (Qlt_bool segmentDistance (minDistance * 2)); [| exact Hst].
  apply skipn_cons_inv in Hrest as [Hpj Hrest].
  apply IH; [exact Hrest | lia |].
  destruct (ele (point pj)) as [ej |] eqn:Hej; [| exact Hst].
  destruct (ele (point pi)) as [ei |] eqn:Hei; [| exact Hst].
  destruct (truthy (Some ej) && truthy (Some ei)); [| exact Hst].
  destruct (Qlt_bool 0 (ej - ei)) eqn:Hgain; [| exact Hst].
  destruct (Qle_bool minDistance (distance pj - distance pi)
            && Qlt_bool (fst st)
                 ((ej - ei) / (distance pj - distance pi) * 100))
    eqn:Hbest; [| exact Hst].
  apply andb_prop in Hbest as [Hmin Hbest].
  apply Qle_bool_iff in Hmin. apply Qlt_bool_iff in Hbest, Hgain.
  unfold climbValid. cbn [fst snd].
  exists pi, pj, ei, ej.
  cbn [Segment.startIndex Segment.endIndex Segment.distance Segment.grade].
  repeat split; try assumption; try reflexivity.
  - apply Qlt_minus_iff. exact Hgain.
  - eapply Qle_lt_trans; [| exact Hbest].
    now apply (climbValid_nonneg points minDistance).
Qed.

Lemma findSteepestClimb_fold_valid (points : list ProcessedPoint)
    (minDistance : Q) (indices : list nat) :
  forall st,
    climbValid points minDistance st ->
    climbValid points minDistance
      (fold_left
         (fun (st : ClimbState) (i : nat) =>
            match nth_error points i with
            | Some pi =>
                climbScan minDistance pi i (i + 1) (skipn (i + 1) points) 0 st
            | None => st
            end)
         indices st).
Proof.
  induction indices as [| i indices IH]; intros st Hst; [exact Hst |].
  cbn [fold_left]. apply IH.
  destruct (nth_error points i) as [pi |] eqn:Hpi; [| exact Hst].
  apply (climbScan_valid points minDistance i pi Hpi); [reflexivity | lia |].
  exact Hst.
Qed.

(** X14.  For a positive [minDistance] (so that no retained grade divides
    by zero), a segment returned by [findSteepestClimb] is a real climb: it
    runs between two indices [startIndex < endIndex] of the sequence whose
    points both carry an elevation, the later one higher; its distance is
    the cumulative distance between them and is at least [minDistance];
    and its grade is the elevation gain over that distance, in percent, and
    is positive. *)
Theorem findSteepestClimb_is_climb (points : list ProcessedPoint)
    (minDistance : Q) (seg : Segment.t) :
  0 < minDistance ->
  findSteepestClimb points minDistance = Some seg ->
  exists ps pe es ee,
    (Segment.startIndex seg < Segment.endIndex seg)%nat
    /\ nth_error points (Segment.startIndex seg) = Some ps
    /\ nth_error points (Segment.endIndex seg) = Some pe
    /\ ele (point ps) = Some es /\ ele (point pe) = Some ee
    /\ es < ee
    /\ Segment.distance seg = distance pe - distance ps
    /\ minDistance <= Segment.distance seg
    /\ Segment.grade seg = ((ee - es) / Segment.distance seg) * 100
    /\ 0 < Segment.grade seg.
Proof.
  unfold findSteepestClimb. intros _ Hseg.
  pose proof (findSteepestClimb_fold_valid points minDistance
                (seq 0 (length points - 1)) (0, None) eq_refl) as Hvalid.
  unfold climbValid in Hvalid. rewrite Hseg in Hvalid.
  destruct Hvalid as (ps & pe & es & ee & H). decompose [and] H.
  exists ps, pe, es, ee. repeat split; assumption.
Qed.

Lemma climbScan_no_gain (minDistance : Q) (pi : ProcessedPoint) (i : nat)
    (rest : list ProcessedPoint) :
  (forall pj ei ej, In pj rest ->
      ele (point pi) = Some ei -> ele (point pj) = Some ej -> ej <= ei) ->
  forall j segmentDistance st,
    climbScan minDistance pi i j rest segmentDistance st = st.
Proof.
  induction rest as [| pj rest IH]; intros Hflat j segmentDistance st;
    cbn [climbScan]; [reflexivity |].
  destruct (Qlt_bool segmentDistance (minDistance * 2)); [| reflexivity].
  rewrite IH by (intros; eapply Hflat; eauto; now right).
  destruct (ele (point pj)) as [ej |] eqn:Hej; [| reflexivity].
  destruct (ele (point pi)) as [ei |] eqn:Hei; [| reflexivity].
  destruct (truthy (Some ej) && truthy (Some ei)); [| reflexivity].
  destruct (Qlt_bool 0 (ej - ei)) eqn:Hgain; [| reflexivity].
  apply Qlt_bool_iff in Hgain. apply Qlt_minus_iff in Hgain. exfalso.
  apply (Qlt_not_le _ _ Hgain). apply (Hflat pj ei ej); auto. now left.
Qed.

(** X15.  On a track that never gains elevation (in particular one of
    constant elevation, or with no elevation at all) [findSteepestClimb]
    returns nothing, whatever [minDistance] is. *)
Theorem findSteepestClimb_no_ascent (points : list ProcessedPoint)
    (minDistance : Q) :
  (forall i j pi pj ei ej, (i < j)%nat ->
      nth_error points i = Some pi -> nth_error points j = Some pj ->
      ele (point pi) = Some ei -> ele (point pj) = Some ej -> ej <= ei) ->
  findSteepestClimb points minDistance = None.
Proof.
  intros Hflat. unfold findSteepestClimb.
  generalize (seq 0 (length points - 1)) as indices.
  assert (H : forall indices st,
    fold_left
      (fun (st : ClimbState) (i : nat) =>
         match nth_error points i with
         | Some pi =>
             climbScan minDistance pi i (i + 1) (skipn (i + 1) points) 0 st
         | None => st
         end)
      indices st = st).
  { induction indices as [| i indices IH]; intros st; [reflexivity |].
    cbn [fold_left]. rewrite IH.
    destruct (nth_error points i) as [pi |] eqn:Hpi; [| reflexivity].
    apply climbScan_no_gain. intros pj ei ej Hin Hei Hej.
    apply In_nth_error in Hin as [k Hk]. rewrite nth_error_skipn in Hk.
    apply (Hflat i (i + 1 + k)%nat pi pj ei ej); auto. lia. }
  intros indices. now rewrite H.
Qed.

(* ----------------------------------------------------------------- *)
(** *** [processActivity] *)

Lemma detectSplits_short (points : list ProcessedPoint) (splitDistance : Q) :
  (length points <= 1)%nat -> detectSplits points splitDistance = [].
Proof.
  intros H. unfold detectSplits, detectSplits_upto.
  now replace (length points - 1)%nat with 0%nat by lia.
Qed.

Lemma findSteepestClimb_short (points : list ProcessedPoint)
    (minDistance : Q) :
  (length points <= 1)%nat -> findSteepestClimb points minDistance = None.
Proof.
  intros H. unfold findSteepestClimb.
  now replace (length points - 1)%nat with 0%nat by lia.
Qed.

(** X16.  For an activity of at most one point [processActivity] returns
    one processed point per input point, no split, no fastest split and no
    steepest climb. *)
Theorem processActivity_degenerate (activity : Activity.t) :
  (length (Activity.points activity) <= 1)%nat ->
  let result := processActivity activity in
  ProcessedActivity.activity result = activity
  /\ length (ProcessedActivity.processedPoints result)
     = length (Activity.points activity)
  /\ ProcessedActivity.splits result = []
  /\ ProcessedActivity.fastestSplit result = None
  /\ ProcessedActivity.steepestClimb result = None.
Proof.
  intros Hlen. unfold processActivity. cbv zeta.
  cbn [ProcessedActivity.activity ProcessedActivity.processedPoints
       ProcessedActivity.splits ProcessedActivity.fastestSplit
       ProcessedActivity.steepestClimb].
  assert (Hn : length (normalizeMetrics
                         (computeMetrics (Activity.points activity)))
               = length (Activity.points activity)).
  { now rewrite normalizeMetrics_length, computeMetrics_length. }
  rewrite detectSplits_short, findSteepestClimb_short by lia.
  repeat split. exact Hn.
Qed.

(** X17.  With a non-negative distance function, [processActivity] emits at
    most [total / 1000] splits, where [total] is the distance that the
    adapters recompute over the points of the activity. *)
Theorem processActivity_split_count :
  (forall p1 p2 : Point, 0 <= haversineDistance p1 p2) ->
  forall activity : Activity.t,
    inject_Z (Z.of_nat (length (ProcessedActivity.splits
                                  (processActivity activity)))) * 1000
    <= sumDistance (totalsOf (Activity.points activity)).
Proof.
  intros Hnonneg activity. unfold processActivity. cbv zeta.
  cbn [ProcessedActivity.splits].
  generalize (Activity.points activity) as points. intros points.
  set (out := normalizeMetrics (computeMetrics points)).
  assert (Hlen : length out = length points).
  { unfold out. now rewrite normalizeMetrics_length, computeMetrics_length. }
  assert (Hmono : forall i j pi pj, (i <= j)%nat ->
            nth_error out i = Some pi -> nth_error out j = Some pj ->
            distance pi <= distance pj).
  { intros i j pi pj Hij Hi Hj.
    apply normalizeMetrics_nth in Hi as (pi' & Hi & _ & -> & _).
    apply normalizeMetrics_nth in Hj as (pj' & Hj & _ & -> & _).
    destruct (computeMetrics_upto_monotone Hnonneg points (length points))
      as [_ H]; [lia |].
    exact (H i j pi' pj' Hij Hi Hj). }
  eapply Qle_trans; [exact (detectSplits_count_le out 1000 Hmono) |].
  destruct (Nat.eq_dec (length points) 0) as [Hzero | Hpos].
  - apply length_zero_iff_nil in Hzero. subst points.
    unfold out. cbn. discriminate.
  - rewrite Hlen.
    destruct (nth_error_in_range out (length points - 1)) as [qe Hqe];
      [lia |].
    destruct (nth_error_in_range out 0) as [q0 Hq0]; [lia |].
    unfold distanceAt. rewrite Hqe, Hq0.
    apply normalizeMetrics_nth in Hqe as (pe & Hpe & _ & -> & _).
    apply normalizeMetrics_nth in Hq0 as (p0' & Hp0 & _ & -> & _).
    destruct (computeMetrics_origin points p0' Hp0) as (-> & _).
    rewrite (computeMetrics_last_distance points pe Hpe).
    unfold Qminus. rewrite Qplus_0_r. apply Qle_refl.
Qed.

(* ================================================================= *)
(** ** Further properties of the format adapters *)
(* ================================================================= *)

(** X18.  No adapter returns an activity without points: with no usable
    point it fails with its "No valid track points" error, and with no
    feature or activity at all with its "No tracks" or "No activities"
    error. *)
Theorem adapters_need_points :
  (forall baseName features a,
      parseGPXFile baseName features = inr a -> Activity.points a <> [])
  /\ (forall baseName activities a,
        parseTCXFile baseName activities = inr a -> Activity.points a <> [])
  /\ (forall baseName decoder a,
        snd (parseFITFile baseName decoder) = inr a ->
        Activity.points a <> [])
  /\ (forall baseName,
        parseGPXFile baseName []
        = inl (Error "No tracks found in GPX file"))
  /\ (forall baseName,
        parseTCXFile baseName []
        = inl (Error "No activities found in TCX file"))
  /\ (forall baseName decoder,
        Fit.checkIntegrity decoder = true ->
        flat_map fitRecord (Fit.recordMesgs (Fit.read decoder)) = [] ->
        snd (parseFITFile baseName decoder)
        = inl (Error "No valid track points found in FIT file")).
Proof.
  repeat apply conj.
  - intros baseName features a. unfold parseGPXFile.
    destruct features as [| f features]; [easy |].
    destruct (fold_left gpx_step (f :: features) ([], baseName, None))
      as [[points name] date].
    destruct points as [| p points]; [easy |].
    intros H. injection H as <-. easy.
  - intros baseName activities a. unfold parseTCXFile.
    destruct activities as [| activity rest]; [easy |]. cbv zeta.
    destruct (flat_map tcxLapPoints _) as [| p points]; [easy |].
    intros H. injection H as <-. easy.
  - intros baseName decoder a. unfold parseFITFile.
    destruct (Fit.checkIntegrity decoder); cbn [negb]; [| easy].
    cbv zeta. cbn [snd].
    destruct (flat_map fitRecord _) as [| p points]; [easy |].
    intros H. injection H as <-. easy.
  - reflexivity.
  - reflexivity.
  - intros baseName decoder Hok Hnone. unfold parseFITFile.
    rewrite Hok. cbv zeta. cbn [negb snd]. now rewrite Hnone.
Qed.

Lemma gpxLinePoints_coords (coordTimes : list (option Z))
    (lineString : list Gpx.Coord) :
  map (fun p => (lat p, lng p, ele p)) (gpxLinePoints coordTimes lineString)
  = map (fun c => (Gpx.c1 c, Gpx.c0 c, Gpx.c2 c)) lineString.
Proof.
  unfold gpxLinePoints. generalize 0%nat as start.
  induction lineString as [| c l IH]; intros start; [reflexivity |].
  cbn [length seq combine map lat lng ele]. f_equal. apply IH.
Qed.

Lemma gpx_step_coords (st : list Point * string * option Z)
    (feature : Gpx.Feature) :
  map (fun p => (lat p, lng p, ele p)) (fst (fst (gpx_step st feature)))
  = map (fun p => (lat p, lng p, ele p)) (fst (fst st))
    ++ map (fun c => (Gpx.c1 c, Gpx.c0 c, Gpx.c2 c)) (gpxCoords feature).
Proof.
  destruct st as [[points name] date]. unfold gpx_step, gpxCoords.
  destruct (Gpx.geometry feature) as [c | cs |]; cbn [fst].
  - rewrite map_app. cbn [flat_map]. rewrite app_nil_r.
    now rewrite gpxLinePoints_coords.
  - rewrite map_app. f_equal.
    induction cs as [| c cs IH]; [reflexivity |].
    cbn [flat_map concat]. rewrite !map_app, IH.
    now rewrite gpxLinePoints_coords.
  - now rewrite app_nil_r.
Qed.

Lemma gpx_fold_coords (features : list Gpx.Feature) :
  forall st,
    map (fun p => (lat p, lng p, ele p))
      (fst (fst (fold_left gpx_step features st)))
    = map (fun p => (lat p, lng p, ele p)) (fst (fst st))
      ++ map (fun c => (Gpx.c1 c, Gpx.c0 c, Gpx.c2 c))
           (flat_map gpxCoords features).
Proof.
  induction features as [| f features IH]; intros st.
  - cbn [fold_left flat_map map]. now rewrite app_nil_r.
  - cbn [fold_left flat_map]. rewrite IH, gpx_step_coords, map_app.
    now rewrite app_assoc.
Qed.

(** X19.  The GPX adapter stores one point per position, for the positions
    of all line geometries in document order: the latitudes, longitudes and
    elevations of the points of the activity are those of the positions,
    with nothing dropped, merged or reordered. *)
Theorem parseGPXFile_concatenates (baseName : string)
    (features : list Gpx.Feature) (a : Activity.t) :
  parseGPXFile baseName features = inr a ->
  map (fun p => (lat p, lng p, ele p)) (Activity.points a)
  = map (fun c => (Gpx.c1 c, Gpx.c0 c, Gpx.c2 c))
      (flat_map gpxCoords features)
  /\ length (Activity.points a) = length (flat_map gpxCoords features).
Proof.
  intros Ha. apply parseGPXFile_activity in Ha as (Hpoints & _).
  assert (H : map (fun p => (lat p, lng p, ele p)) (Activity.points a)
              = map (fun c => (Gpx.c1 c, Gpx.c0 c, Gpx.c2 c))
                  (flat_map gpxCoords features)).
  { rewrite Hpoints. now rewrite gpx_fold_coords. }
  split; [exact H |].
  apply (f_equal (@length _)) in H. now rewrite !length_map in H.
Qed.

Lemma gpx_fold_app (fs1 fs2 : list Gpx.Feature)
    (st : list Point * string * option Z) :
  fold_left gpx_step (fs1 ++ fs2) st
  = fold_left gpx_step fs2 (fold_left gpx_step fs1 st).
Proof. apply fold_left_app. Qed.

(** X20.  A feature that is not a line geometry contributes nothing: as
    long as another feature remains, removing it leaves the result of the
    GPX adapter unchanged. *)
Theorem parseGPXFile_ignores_other_geometry (baseName : string)
    (fs1 fs2 : list Gpx.Feature) (f : Gpx.Feature) :
  Gpx.geometry f = Gpx.OtherGeometry ->
  fs1 ++ fs2 <> [] ->
  parseGPXFile baseName (fs1 ++ f :: fs2) = parseGPXFile baseName (fs1 ++ fs2).
Proof.
  intros Hother Hne. unfold parseGPXFile.
  assert (Hfold : fold_left gpx_step (fs1 ++ f :: fs2) ([], baseName, None)
                  = fold_left gpx_step (fs1 ++ fs2) ([], baseName, None)).
  { rewrite !fold_left_app. cbn [fold_left]. f_equal.
    destruct (fold_left gpx_step fs1 ([], baseName, None)) as [[ps n] d].
    unfold gpx_step. now rewrite Hother. }
  rewrite Hfold.
  destruct (fs1 ++ f :: fs2) as [| x l] eqn:E1.
  - now destruct fs1.
  - destruct (fs1 ++ fs2) as [| y l'] eqn:E2; [congruence | reflexivity].
Qed.

(** X21.  [convertSemicirclesToDegrees] gives NaN for a missing value and
    otherwise [semicircles * 180 / 2^31]; semicircles within the signed
    32-bit range give degrees within [[-180, 180]], and 2^31 semicircles
    are 180 degrees. *)
Theorem convertSemicirclesToDegrees_range :
  convertSemicirclesToDegrees None = NaN
  /\ (forall s, exists d,
        convertSemicirclesToDegrees (Some s) = Fin d
        /\ d * 2147483648 == s * 180
        /\ (-2147483648 <= s -> s <= 2147483648 ->
            -180 <= d /\ d <= 180))
  /\ (exists d, convertSemicirclesToDegrees (Some 2147483648) = Fin d
                /\ d == 180).
Proof.
  repeat apply conj.
  - reflexivity.
  - intros s. eexists. split; [reflexivity |]. split; [field |].
    intros Hlo Hhi. split.
    + apply Qle_shift_div_l; [reflexivity |].
      setoid_replace (-180 * 2147483648) with (-2147483648 * 180)
        by reflexivity.
      apply Qmult_le_compat_r; [exact Hlo | discriminate].
    + apply Qle_shift_div_r; [reflexivity |].
      setoid_replace (180 * 2147483648) with (2147483648 * 180)
        by reflexivity.
      apply Qmult_le_compat_r; [exact Hhi | discriminate].
  - eexists. split; reflexivity.
Qed.

Lemma jsOr_truthy (a b : option Q) : truthy a = true -> jsOr a b = a.
Proof. unfold jsOr. now intros ->. Qed.

(** X22.  The FIT adapter resolves the position by the first truthy
    candidate: [positionLat] when it is non-zero, else [position_lat] when
    it is non-zero, else [enhancedLatitude], whatever it holds.  A value of
    0 in one of the first two is passed over; a value of 0 in
    [enhancedLatitude] is used.  So a record whose [positionLat] and
    [position_lat] are 0 or missing is dropped when [enhancedLatitude] is
    missing (a point on the equator given as [positionLat = 0] alone), and
    is stored at latitude 0 when [enhancedLatitude] is 0 and the longitude
    is a number; likewise for the longitude. *)
Theorem fitRecord_field_resolution (record : Fit.RecordMesg) :
  (truthy (Fit.positionLat record) = true ->
   lat (fitPoint record)
   = convertSemicirclesToDegrees (Fit.positionLat record))
  /\ (zeroOrAbsent (Fit.positionLat record) ->
      truthy (Fit.position_lat record) = true ->
      lat (fitPoint record)
      = convertSemicirclesToDegrees (Fit.position_lat record))
  /\ (zeroOrAbsent (Fit.positionLat record) ->
      zeroOrAbsent (Fit.position_lat record) ->
      lat (fitPoint record)
      = convertSemicirclesToDegrees (Fit.enhancedLatitude record))
  /\ (zeroOrAbsent (Fit.positionLat record) ->
      zeroOrAbsent (Fit.position_lat record) ->
      Fit.enhancedLatitude record = None ->
      fitRecord record = [])
  /\ (zeroOrAbsent (Fit.positionLat record) ->
      zeroOrAbsent (Fit.position_lat record) ->
      forall e, Fit.enhancedLatitude record = Some e ->
        lat (fitPoint record) = Fin ((e * 180) / 2147483648)
        /\ (isNaN (lng (fitPoint record)) = false ->
            fitRecord record = [fitPoint record]))
  /\ (zeroOrAbsent (Fit.positionLong record) ->
      zeroOrAbsent (Fit.position_long record) ->
      Fit.enhancedLongitude record = None ->
      fitRecord record = [])
  /\ (zeroOrAbsent (Fit.positionLong record) ->
      zeroOrAbsent (Fit.position_long record) ->
      forall e, Fit.enhancedLongitude record = Some e ->
        lng (fitPoint record) = Fin ((e * 180) / 2147483648)
        /\ (isNaN (lat (fitPoint record)) = false ->
            fitRecord record = [fitPoint record])).
Proof.
  repeat apply conj.
  - intros H. unfold fitPoint. cbn [lat].
    now rewrite (jsOr_truthy _ _ H), (jsOr_truthy _ _ H).
  - intros H1 H2. unfold fitPoint. cbn [lat].
    now rewrite (jsOr_default _ _ H1), (jsOr_truthy _ _ H2).
  - intros H1 H2. unfold fitPoint. cbn [lat].
    now rewrite (jsOr_default _ _ H1), (jsOr_default _ _ H2).
  - intros H1 H2 H3. unfold fitRecord, fitPoint. cbn [lat lng].
    now rewrite (jsOr_default _ _ H1), (jsOr_default _ _ H2), H3.
  - intros H1 H2 e H3.
    assert (Hlat : lat (fitPoint record) = Fin ((e * 180) / 2147483648)).
    { unfold fitPoint. cbn [lat].
      now rewrite (jsOr_default _ _ H1), (jsOr_default _ _ H2), H3. }
    split; [exact Hlat |].
    intros Hlng. unfold fitRecord. cbv zeta. now rewrite Hlat, Hlng.
  - intros H1 H2 H3. unfold fitRecord, fitPoint. cbn [lat lng].
    rewrite (jsOr_default _ _ H1), (jsOr_default _ _ H2), H3.
    cbn [convertSemicirclesToDegrees isNaN negb]. now rewrite andb_false_r.
  - intros H1 H2 e H3.
    assert (Hlng : lng (fitPoint record) = Fin ((e * 180) / 2147483648)).
    { unfold fitPoint. cbn [lng].
      now rewrite (jsOr_default _ _ H1), (jsOr_default _ _ H2), H3. }
    split; [exact Hlng |].
    intros Hlat. unfold fitRecord. cbv zeta. now rewrite Hlat, Hlng.
Qed.

Lemma orElse_truthy (q d : Q) : ~ q == 0 -> orElse (Some q) d = q.
Proof.
  intros H. cbn [orElse]. destruct (Qeq_bool q 0) eqn:E; [| reflexivity].
  apply Qeq_bool_iff in E. contradiction.
Qed.

(** X23.  When the FIT session declares a non-zero total distance, the
    activity stores it verbatim, and likewise a non-zero elapsed time; the
    stored [averagePace] does not use them: it is always the guarded
    quotient of the time and the distance recomputed from the points. *)
Theorem parseFITFile_session_totals (baseName : string)
    (decoder : Fit.Decoder) (a : Activity.t) :
  snd (parseFITFile baseName decoder) = inr a ->
  (forall s d, hd_error (Fit.sessionMesgs (Fit.read decoder)) = Some s ->
      Fit.totalDistance s = Some d -> ~ d == 0 ->
      Activity.totalDistance a = d)
  /\ (forall s t, hd_error (Fit.sessionMesgs (Fit.read decoder)) = Some s ->
        Fit.totalElapsedTime s = Some t -> ~ t == 0 ->
        Activity.totalTime a = t)
  /\ Activity.averagePace a
     = (if Qlt_bool 0 (elapsedSeconds (Activity.points a))
        then jsdiv (elapsedSeconds (Activity.points a))
               (sumDistance (totalsOf (Activity.points a)))
        else Fin 0).
Proof.
  intros Ha. apply parseFITFile_activity in Ha as (_ & _ & Hpace & Hd & Ht).
  repeat apply conj.
  - intros s d Hs Hsd Hnz. rewrite Hd, Hs, Hsd. now apply orElse_truthy.
  - intros s t Hs Hst Hnz. rewrite Ht, Hs, Hst.
    assert (Htruthy : truthy (Some t) = true).
    { cbn [truthy]. destruct (Qeq_bool t 0) eqn:E; [| reflexivity].
      apply Qeq_bool_iff in E. contradiction. }
    rewrite (jsOr_truthy _ _ Htruthy). now apply orElse_truthy.
  - exact Hpace.
Qed.

Lemma parseTCXFile_activity (baseName : string)
    (activities : list Tcx.Activity) (a : Activity.t) :
  parseTCXFile baseName activities = inr a ->
  exists activity rest,
    activities = activity :: rest
    /\ Activity.points a
       = flat_map tcxLapPoints
           (match Tcx.Laps activity with Some l => l | None => [] end)
    /\ Activity.averagePace a
       = Metrics.averagePace (calculateTCXMetrics (Activity.points a) activity)
    /\ Activity.totalDistance a
       = Metrics.totalDistance
           (calculateTCXMetrics (Activity.points a) activity)
    /\ Activity.totalTime a
       = Metrics.totalTime (calculateTCXMetrics (Activity.points a) activity).
Proof.
  unfold parseTCXFile. destruct activities as [| activity rest]; [easy |].
  cbv zeta.
  destruct (flat_map tcxLapPoints _) as [| p points] eqn:E; [easy |].
  intros H. injection H as <-. exists activity, rest.
  cbn [Activity.points Activity.averagePace Activity.totalDistance
       Activity.totalTime].
  rewrite E. repeat split.
Qed.

Lemma tcxPoint_fields (tp : Tcx.Trackpoint) (position : jsnum * jsnum) :
  let p := tcxPoint tp position in
  (temp p = None \/ temp p = power p)
  /\ (forall e, ele p = Some e -> ~ e == 0)
  /\ (forall h, hr p = Some h -> exists z, h = inject_Z z).
Proof.
  cbv zeta. unfold tcxPoint. cbn [temp power ele hr]. repeat apply conj.
  - unfold whenTruthy.
    destruct (Tcx.ExtensionsWatts tp) as [w |]; [| now left].
    destruct (truthy (Some w)); [now right | now left].
  - intros e. unfold whenTruthy.
    destruct (Tcx.AltitudeMeters tp) as [v |]; [| discriminate].
    cbn [truthy]. destruct (Qeq_bool v 0) eqn:E; cbn [negb]; [discriminate |].
    intros H. injection H as <-. intros Hz.
    apply Qeq_bool_iff in Hz. congruence.
  - intros h. unfold whenTruthy.
    destruct (Tcx.HeartRateBpm tp) as [v |]; [| discriminate].
    destruct (truthy (Some v)); [| discriminate].
    intros H. injection H as <-. unfold parseIntQ. eauto.
Qed.

(** X24.  For every point of an activity returned by the TCX adapter: the
    [temp] field, when present, holds the watts of the TPX extension, the
    same value as [power]; an elevation is never 0 (an altitude of 0 is
    stored as missing); and the heart rate is an integer. *)
Theorem parseTCXFile_point_fields (baseName : string)
    (activities : list Tcx.Activity) (a : Activity.t) (p : Point) :
  parseTCXFile baseName activities = inr a ->
  In p (Activity.points a) ->
  (temp p = None \/ temp p = power p)
  /\ (forall e, ele p = Some e -> ~ e == 0)
  /\ (forall h, hr p = Some h -> exists z, h = inject_Z z).
Proof.
  intros Ha Hp.
  apply parseTCXFile_activity in Ha as (activity & rest & _ & Hpoints & _).
  rewrite Hpoints in Hp.
  apply in_flat_map in Hp as (lap & _ & Hp). unfold tcxLapPoints in Hp.
  destruct (Tcx.Track lap) as [trackpoints |]; [| easy].
  apply in_flat_map in Hp as (tp & _ & Hp). unfold tcxTrackpoint in Hp.
  destruct (Tcx.Position tp) as [position |]; [| easy]. cbv zeta in Hp.
  destruct (negb _ && negb _); [| easy].
  destruct Hp as [<- | []]. apply tcxPoint_fields.
Qed.

Lemma lap_sum_zero (f : Tcx.Lap -> option Q) (laps : list Tcx.Lap) :
  Forall (fun lap => zeroOrAbsent (f lap)) laps ->
  fold_left (fun sum lap => sum + orZero (f lap)) laps 0 = 0.
Proof.
  induction 1 as [| lap laps Hlap Hlaps IH]; [reflexivity |].
  cbn [fold_left].
  assert (Hz : orZero (f lap) = 0).
  { destruct (f lap) as [q |]; cbn [zeroOrAbsent orZero] in *;
      [| reflexivity].
    apply Qeq_bool_iff in Hlap. now rewrite Hlap. }
  rewrite Hz. exact IH.
Qed.

(** X25.  When no lap of a TCX activity declares a non-zero
    [DistanceMeters], the returned [totalDistance] falls back to the
    distance recomputed from the points, but [averagePace] still divides by
    the declared sum, which is 0: for any positive [totalTime] the stored
    [averagePace] is infinite. *)
Theorem parseTCXFile_pace_without_lap_distance (baseName : string)
    (activity : Tcx.Activity) (rest : list Tcx.Activity)
    (laps : list Tcx.Lap) (a : Activity.t) :
  parseTCXFile baseName (activity :: rest) = inr a ->
  Tcx.Laps activity = Some laps ->
  Forall (fun lap => zeroOrAbsent (Tcx.DistanceMeters lap)) laps ->
  0 < Activity.totalTime a ->
  Activity.averagePace a = PosInf
  /\ Activity.totalDistance a = sumDistance (totalsOf (Activity.points a)).
Proof.
  intros Ha Hlaps Hnone.
  apply parseTCXFile_activity in Ha
    as (activity' & rest' & Heq & _ & -> & -> & ->).
  injection Heq as <- <-.
  unfold calculateTCXMetrics. rewrite Hlaps.
  rewrite (lap_sum_zero Tcx.DistanceMeters laps Hnone).
  cbn [Metrics.totalTime Metrics.averagePace Metrics.totalDistance].
  set (t := if Qeq_bool _ 0 then _ else _).
  intros Hpos. split; [| reflexivity].
  assert (Hlt : Qlt_bool 0 t = true) by now apply Qlt_bool_iff.
  rewrite Hlt. unfold jsdiv.
  change (Qeq_bool (0 / 1000) 0) with true. cbv iota.
  destruct (Qeq_bool t 0) eqn:E; [| now rewrite Hlt].
  apply Qeq_bool_iff in E. rewrite E in Hpos.
  now apply Qlt_irrefl in Hpos.
Qed.

(* ----------------------------------------------------------------- *)
(** *** The totals loop *)

Lemma totals_fold_S (points : list Point) (k : nat) (init : Totals) :
  fold_left (totals_step points) (seq 1 (S k)) init
  = totals_step points (fold_left (totals_step points) (seq 1 k) init) (S k).
Proof. now rewrite seq_S, fold_left_app. Qed.

Lemma totals_gain_nonneg (points : list Point) (k : nat) :
  0 <= sumElevationGain
         (fold_left (totals_step points) (seq 1 k)
            (mkTotals 0 0 (mkBounds PosInf NegInf PosInf NegInf) 0 0%nat 0)).
Proof.
  induction k as [| k IH]; [apply Qle_refl |].
  rewrite totals_fold_S. unfold totals_step at 1.
  destruct (nth_error points (S k - 1)) as [prev |]; [| exact IH].
  destruct (nth_error points (S k)) as [curr |]; [| exact IH].
  cbn [sumElevationGain].
  destruct (ele curr) as [ec |]; [| exact IH].
  destruct (ele prev) as [ep |]; [| exact IH].
  destruct (truthy (Some ec) && truthy (Some ep) && Qlt_bool ep ec) eqn:E;
    [| exact IH].
  apply andb_prop in E as [_ E]. apply Qlt_bool_iff in E.
  apply Qplus_nonneg; [exact IH |].
  apply Qlt_le_weak. unfold Qminus. rewrite <- Qlt_minus_iff. exact E.
Qed.

Lemma climbBetween_nonneg (prev p : ProcessedPoint) :
  0 <= climbBetween prev p.
Proof.
  unfold climbBetween.
  destruct (ele (point p)) as [e |]; [| apply Qle_refl].
  destruct (ele (point prev)) as [e0 |]; [| apply Qle_refl].
  destruct (truthy (Some e) && truthy (Some e0) && Qlt_bool e0 e) eqn:E;
    [| apply Qle_refl].
  apply andb_prop in E as [_ E]. apply Qlt_bool_iff in E.
  apply Qlt_le_weak. unfold Qminus. rewrite <- Qlt_minus_iff. exact E.
Qed.

Lemma elevGainOf_nonneg (splitPoints : list ProcessedPoint) :
  0 <= elevGainOf splitPoints.
Proof.
  unfold elevGainOf.
  assert (H : forall acc : Q * option ProcessedPoint,
    0 <= fst acc ->
    0 <= fst (fold_left
                (fun (acc : Q * option ProcessedPoint) p =>
                   match snd acc with
                   | None => (fst acc, Some p)
                   | Some prev => (fst acc + climbBetween prev p, Some p)
                   end)
                splitPoints acc)).
  { induction splitPoints as [| p l IH]; intros acc Hacc; [exact Hacc |].
    cbn [fold_left]. apply IH.
    destruct (snd acc); cbn [fst]; [| exact Hacc].
    apply Qplus_nonneg; [exact Hacc | apply climbBetween_nonneg]. }
  apply H. apply Qle_refl.
Qed.

(** X26.  Elevation gain counts ascents only: the total recomputed by each
    of the three adapters is never negative, and neither is the elevation
    gain of any split. *)
Theorem elevation_gain_nonneg :
  (forall points,
      0 <= Metrics.totalElevationGain (calculateBasicMetrics points)
      /\ 0 <= Metrics.totalElevationGain (calculateMetricsFromFIT points))
  /\ (forall points activity,
        0 <= Metrics.totalElevationGain (calculateTCXMetrics points activity))
  /\ (forall points splitDistance s,
        In s (detectSplits points splitDistance) ->
        0 <= Split.elevationGain s).
Proof.
  repeat apply conj.
  - intros points. split; apply totals_gain_nonneg.
  - intros points activity. unfold calculateTCXMetrics.
    destruct (Tcx.Laps activity); apply totals_gain_nonneg.
  - intros points splitDistance s. unfold detectSplits.
    generalize (length points - 1)%nat as k.
    induction k as [| k IH]; [intros [] |].
    rewrite detectSplits_upto_S.
    destruct (detectSplits_upto points splitDistance k)
      as [[splits start] acc].
    cbn [fst] in IH. unfold detectSplits_step.
    destruct (nth_error points (S k)) as [pi |]; [| exact IH].
    destruct (nth_error points (S k - 1)) as [pj |]; [| exact IH].
    destruct (Qle_bool splitDistance _); cbn [fst]; [| exact IH].
    intros Hin. apply in_app_or in Hin as [Hin | [<- | []]];
      [now apply IH |].
    cbn [makeSplit Split.elevationGain]. apply elevGainOf_nonneg.
Qed.

Lemma nth_error_tl {A : Type} (l : list A) (k : nat) :
  nth_error (tl l) k = nth_error l (S k).
Proof. destruct l; [now destruct k | reflexivity]. Qed.

Lemma totals_box (points : list Point) (k : nat) :
  (k <= length points - 1)%nat ->
  box (fold_left (totals_step points) (seq 1 k)
         (mkTotals 0 0 emptyBox 0 0%nat 0))
  = fold_left includePoint (firstn k (tl points)) emptyBox.
Proof.
  induction k as [| k IH]; intros Hk; [reflexivity |].
  rewrite totals_fold_S. unfold totals_step at 1.
  destruct (nth_error_in_range points (S k - 1)) as [prev Hprev]; [lia |].
  destruct (nth_error_in_range points (S k)) as [curr Hcurr]; [lia |].
  rewrite Hprev, Hcurr. cbn [box]. rewrite IH by lia.
  rewrite (firstn_snoc (tl points) k curr)
    by (now rewrite nth_error_tl).
  now rewrite fold_left_app.
Qed.

(** X27.  The bounding box that the adapters compute covers every point but
    the first: it is the box of [points[1 ..]], and for an activity of a
    single point it stays at its initial infinite values. *)
Theorem bounds_skip_first_point :
  (forall points,
      box (totalsOf points) = fold_left includePoint (tl points) emptyBox)
  /\ (forall p,
        Metrics.bounds (calculateBasicMetrics [p])
        = mkBounds PosInf NegInf PosInf NegInf)
  /\ (forall p q,
        Metrics.bounds (calculateBasicMetrics [p; q])
        = mkBounds (jsmin PosInf (lat q)) (jsmax NegInf (lat q))
                   (jsmin PosInf (lng q)) (jsmax NegInf (lng q))).
Proof.
  repeat apply conj.
  - intros points. unfold totalsOf.
    change (mkBounds PosInf NegInf PosInf NegInf) with emptyBox.
    rewrite totals_box by lia.
    rewrite firstn_all2; [reflexivity |].
    destruct points; simpl; lia.
  - reflexivity.
  - reflexivity.
Qed.

(* ================================================================= *)
(** ** Properties of the consumers *)
(* ================================================================= *)

(** X28.  [calculateEffortLevel] never rates as easy an activity whose
    [averagePace] is at most 4; this includes the value 0 that the GPX
    adapter stores when the track has no usable timestamps, so such a track
    is rated at least moderate whatever its distance and elevation. *)
Theorem calculateEffortLevel_pace_floor :
  (forall activity : ProcessedActivity.t,
      jsle (Activity.averagePace (ProcessedActivity.activity activity)) 4
      = true ->
      calculateEffortLevel activity <> easy)
  /\ (forall baseName features a,
        parseGPXFile baseName features = inr a ->
        Activity.totalTime a <= 0 ->
        calculateEffortLevel (processActivity a) <> easy).
Proof.
  assert (H : forall activity : ProcessedActivity.t,
    jsle (Activity.averagePace (ProcessedActivity.activity activity)) 4
    = true ->
    calculateEffortLevel activity <> easy).
  { intros activity Hpace. unfold calculateEffortLevel. cbv zeta.
    rewrite Hpace.
    repeat match goal with
           | |- context [if Qle_bool ?x ?y then _ else _] =>
               destruct (Qle_bool x y)
           end; cbn; discriminate. }
  split; [exact H |].
  intros baseName features a Ha Htime. apply H.
  unfold processActivity. cbn [ProcessedActivity.activity].
  apply parseGPXFile_activity in Ha as (_ & -> & _ & Ht).
  rewrite Ht in Htime. unfold calculateBasicMetrics in *.
  cbn [Metrics.averagePace Metrics.totalTime] in *.
  destruct (Qlt_bool 0 (elapsedSeconds (Activity.points a))) eqn:E;
    [| reflexivity].
  apply Qlt_bool_iff in E. exfalso. now apply (Qlt_not_le _ _ E).
Qed.

(** X29.  [detectAchievements] awards at most five achievements, with
    pairwise distinct ids; an [averagePace] of at most 3.5 always earns
    "speed_demon", and so does every GPX track without usable timestamps,
    whose stored [averagePace] is 0. *)
Theorem detectAchievements_shape :
  (forall activity : ProcessedActivity.t,
      (length (detectAchievements activity) <= 5)%nat
      /\ NoDup (map Achievement.id (detectAchievements activity)))
  /\ (forall activity : ProcessedActivity.t,
        jsle (Activity.averagePace (ProcessedActivity.activity activity))
          (35 # 10) = true ->
        exists ach, In ach (detectAchievements activity)
                    /\ Achievement.id ach = "speed_demon"%string
                    /\ Achievement.category ach = Achievement.speed)
  /\ (forall baseName features a,
        parseGPXFile baseName features = inr a ->
        Activity.totalTime a <= 0 ->
        exists ach, In ach (detectAchievements (processActivity a))
                    /\ Achievement.id ach = "speed_demon"%string).
Proof.
  assert (Hspeed : forall activity : ProcessedActivity.t,
    jsle (Activity.averagePace (ProcessedActivity.activity activity))
      (35 # 10) = true ->
    exists ach, In ach (detectAchievements activity)
                /\ Achievement.id ach = "speed_demon"%string
                /\ Achievement.category ach = Achievement.speed).
  { intros activity Hpace. unfold detectAchievements. cbv zeta.
    rewrite Hpace. eexists. split.
    - apply in_or_app. right. apply in_or_app. left. left. reflexivity.
    - split; reflexivity. }
  repeat apply conj.
  - intros activity. unfold detectAchievements. cbv zeta.
    destruct (Activity.maxHR (ProcessedActivity.activity activity))
      as [h |];
      repeat match goal with
             | |- context [if ?b then _ else _] => destruct b
             end;
      cbn [app length map Achievement.id];
      (split; [lia |]);
      repeat (constructor;
              [cbn [In]; intuition discriminate |]);
      constructor.
  - exact Hspeed.
  - intros baseName features a Ha Htime.
    destruct (Hspeed (processActivity a)) as (ach & Hin & Hid & _);
      [| eauto].
    unfold processActivity. cbn [ProcessedActivity.activity].
    apply parseGPXFile_activity in Ha as (_ & -> & _ & Ht).
    rewrite Ht in Htime. unfold calculateBasicMetrics in *.
    cbn [Metrics.averagePace Metrics.totalTime] in *.
    destruct (Qlt_bool 0 (elapsedSeconds (Activity.points a))) eqn:E;
      [| reflexivity].
    apply Qlt_bool_iff in E. exfalso. now apply (Qlt_not_le _ _ E).
Qed.

Lemma percentage_below (hr maxHR c : Q) :
  0 < maxHR ->
  jslt (jstimes (jsdiv hr maxHR) 100) c = true <-> hr * 100 < c * maxHR.
Proof.
  intros Hpos. unfold jsdiv.
  destruct (Qeq_bool maxHR 0) eqn:E.
  - apply Qeq_bool_iff in E. rewrite E in Hpos.
    now apply Qlt_irrefl in Hpos.
  - cbn [jstimes jslt]. rewrite Qlt_bool_iff.
    assert (Hne : ~ maxHR == 0).
    { intros H. apply Qeq_bool_iff in H. congruence. }
    rewrite <- (Qmult_lt_r _ _ maxHR Hpos).
    setoid_replace (hr / maxHR * 100 * maxHR) with (hr * 100)
      by (field; exact Hne).
    reflexivity.
Qed.

(** X30.  [getHRZoneColor] always returns one of the five zone colours.
    For a positive [maxHR] the zone is the band of [hr / maxHR]: below 60 %
    the first colour, then 60-70 %, 70-80 %, 80-90 %, and from 90 % on the
    last one.  For [maxHR = 0] and a non-negative [hr] the quotient is
    infinite or not a number and the last colour is returned. *)
Theorem getHRZoneColor_zones (hr maxHR : Q) :
  In (getHRZoneColor hr maxHR) hrZoneColors
  /\ (0 < maxHR ->
      (hr * 100 < 60 * maxHR -> getHRZoneColor hr maxHR = "#60a5fa"%string)
      /\ (60 * maxHR <= hr * 100 -> hr * 100 < 70 * maxHR ->
          getHRZoneColor hr maxHR = "#34d399"%string)
      /\ (70 * maxHR <= hr * 100 -> hr * 100 < 80 * maxHR ->
          getHRZoneColor hr maxHR = "#fbbf24"%string)
      /\ (80 * maxHR <= hr * 100 -> hr * 100 < 90 * maxHR ->
          getHRZoneColor hr maxHR = "#fb923c"%string)
      /\ (90 * maxHR <= hr * 100 ->
          getHRZoneColor hr maxHR = "#ef4444"%string))
  /\ (maxHR == 0 -> 0 <= hr -> getHRZoneColor hr maxHR = "#ef4444"%string).
Proof.
  repeat apply conj.
  - unfold getHRZoneColor. cbv zeta.
    repeat match goal with
           | |- context [if ?b then _ else _] => destruct b
           end; cbn; tauto.
  - intros Hpos.
    assert (Hyes : forall c, hr * 100 < c * maxHR ->
              jslt (jstimes (jsdiv hr maxHR) 100) c = true).
    { intros c. now apply percentage_below. }
    assert (Hno : forall c, c * maxHR <= hr * 100 ->
              jslt (jstimes (jsdiv hr maxHR) 100) c = false).
    { intros c Hc.
      destruct (jslt (jstimes (jsdiv hr maxHR) 100) c) eqn:E;
        [| reflexivity].
      apply percentage_below in E; [| exact Hpos].
      exfalso. now apply (Qlt_not_le _ _ E). }
    assert (Hstep : forall c c', c <= c' -> c' * maxHR <= hr * 100 ->
              c * maxHR <= hr * 100).
    { intros c c' Hc H. eapply Qle_trans; [| exact H].
      apply Qmult_le_compat_r; [exact Hc | now apply Qlt_le_weak]. }
    unfold getHRZoneColor. cbv zeta. repeat apply conj.
    + intros H. now rewrite (Hyes 60 H).
    + intros H1 H2. now rewrite (Hno 60 H1), (Hyes 70 H2).
    + intros H1 H2.
      rewrite (Hno 60), (Hno 70 H1), (Hyes 80 H2); [reflexivity |].
      apply (Hstep 60 70); [discriminate | exact H1].
    + intros H1 H2.
      rewrite (Hno 60), (Hno 70), (Hno 80 H1), (Hyes 90 H2);
        [reflexivity | |].
      * apply (Hstep 70 80); [discriminate | exact H1].
      * apply (Hstep 60 80); [discriminate | exact H1].
    + intros H1.
      rewrite (Hno 60), (Hno 70), (Hno 80), (Hno 90 H1); [reflexivity | | |].
      * apply (Hstep 80 90); [discriminate | exact H1].
      * apply (Hstep 70 90); [discriminate | exact H1].
      * apply (Hstep 60 90); [discriminate | exact H1].
  - intros Hzero Hhr. unfold getHRZoneColor, jsdiv. cbv zeta.
    apply Qeq_bool_iff in Hzero. rewrite Hzero.
    destruct (Qeq_bool hr 0) eqn:E0; [reflexivity |].
    destruct (Qlt_bool 0 hr) eqn:E; [reflexivity |].
    exfalso.
    assert (H : ~ 0 < hr).
    { intros H. apply Qlt_bool_iff in H. congruence. }
    apply Qnot_lt_le in H.
    assert (Heq : hr == 0) by now apply Qle_antisym.
    apply Qeq_bool_iff in Heq. congruence.
Qed.

End Core.

(* ================================================================= *)
(** ** Properties of the geodesic distance *)
(* ================================================================= *)

Section HaversineProperties.
Local Open Scope R_scope.

Lemma haversineA_sym (p1 p2 : Haversine.Point) :
  Haversine.haversineA p1 p2 = Haversine.haversineA p2 p1.
Proof.
  unfold Haversine.haversineA; cbv zeta.
  replace ((Haversine.lat p1 - Haversine.lat p2) * PI / 180 / 2)
    with (- ((Haversine.lat p2 - Haversine.lat p1) * PI / 180 / 2)) by lra.
  replace ((Haversine.lng p1 - Haversine.lng p2) * PI / 180 / 2)
    with (- ((Haversine.lng p2 - Haversine.lng p1) * PI / 180 / 2)) by lra.
  rewrite !sin_neg. ring.
Qed.

Lemma haversineA_refl (p : Haversine.Point) : Haversine.haversineA p p = 0.
Proof.
  unfold Haversine.haversineA; cbv zeta.
  replace ((Haversine.lat p - Haversine.lat p) * PI / 180 / 2) with 0 by lra.
  replace ((Haversine.lng p - Haversine.lng p) * PI / 180 / 2) with 0 by lra.
  rewrite sin_0. ring.
Qed.

Lemma atan2_0_1 : Haversine.atan2 0 1 = 0.
Proof.
  unfold Haversine.atan2.
  destruct (total_order_T 0 1) as [[H | H] | H]; try lra.
  replace (0 / 1) with 0 by lra. apply atan_0.
Qed.

Lemma atan_nonneg (x : R) : 0 <= x -> 0 <= atan x.
Proof.
  intros [Hlt | <-].
  - left. rewrite <- atan_0. now apply atan_increasing.
  - rewrite atan_0. lra.
Qed.

Lemma atan2_nonneg (y x : R) : 0 <= y -> 0 <= x -> 0 <= Haversine.atan2 y x.
Proof.
  intros Hy Hx. unfold Haversine.atan2.
  destruct (total_order_T 0 x) as [[H | H] | H]; try lra.
  - apply atan_nonneg. unfold Rdiv.
    apply Rmult_le_pos; [assumption |].
    left. now apply Rinv_0_lt_compat.
  - destruct (total_order_T 0 y) as [[H' | H'] | H']; try lra.
    pose proof PI_RGT_0. lra.
Qed.

(** The distance is never negative: the fact the metrics engine relies on
    when it accumulates distances. *)
Lemma haversineDistance_nonneg (p1 p2 : Haversine.Point) :
  0 <= Haversine.haversineDistance p1 p2.
Proof.
  unfold Haversine.haversineDistance, Haversine.earthRadius; cbv zeta.
  pose proof (atan2_nonneg (sqrt (Haversine.haversineA p1 p2))
                (sqrt (1 - Haversine.haversineA p1 p2))
                (sqrt_pos _) (sqrt_pos _)).
  nra.
Qed.

(** The formula of module [Haversine], rounded to a number by a function
    that keeps the sign, meets what the metrics engine asks of the distance:
    non-negative between any two points, and a non-negative number between
    consecutive points of a sequence whose coordinates are all finite. *)
Lemma roundedHaversine_numberDistances (round : R -> Q) :
  (forall x : R, 0 <= x -> (0 <= round x)%Q) ->
  (forall p1 p2 : Point, (0 <= roundedHaversine round p1 p2)%Q)
  /\ (forall points : list Point,
        Forall (fun p => finiteCoords p = true) points ->
        numberDistances (roundedHaversine round) points).
Proof.
  intros Hround.
  assert (Hnonneg : forall p1 p2 : Point,
            (0 <= roundedHaversine round p1 p2)%Q).
  { intros p1 p2. apply Hround, haversineDistance_nonneg. }
  split; [exact Hnonneg |].
  intros points Hfinite i prev curr Hprev Hcurr.
  rewrite Forall_forall in Hfinite.
  exists (roundedHaversine round prev curr).
  split; [| apply Hnonneg].
  unfold haversineNumber.
  rewrite (Hfinite prev (nth_error_In _ _ Hprev)).
  now rewrite (Hfinite curr (nth_error_In _ _ Hcurr)).
Qed.

(** C9.  The geodesic distance is symmetric, [d a b = d b a] for all points,
    and the distance from a point to itself is [0]. *)
Theorem haversineDistance_symmetric_zero :
  (forall a b : Haversine.Point,
      Haversine.haversineDistance a b = Haversine.haversineDistance b a)
  /\ (forall a : Haversine.Point, Haversine.haversineDistance a a = 0).
Proof.
  split.
  - intros a b. unfold Haversine.haversineDistance.
    now rewrite (haversineA_sym a b).
  - intros a. unfold Haversine.haversineDistance; cbv zeta.
    rewrite haversineA_refl, sqrt_0.
    replace (1 - 0) with 1 by lra.
    rewrite sqrt_1, atan2_0_1. ring.
Qed.

End HaversineProperties.

(* ================================================================= *)
(** ** Concrete runs *)
(* ================================================================= *)


(** [detectSplits_closes_at_threshold] at iteration 10 of [uniform2500]:
    the accumulator reaches 1000 and the first split is closed. *)
Lemma detectSplits_closes_at_threshold_witness :
  1000 <= 900 + (1000 - 900)
  /\ detectSplits_upto uniform2500 1000 10
     = ([makeSplit 0 (900 + (1000 - 900)) (slice uniform2500 0 (10 + 1))],
        10%nat, 0).
Proof.
  split; [vm_compute; discriminate |].
  destruct detectSplits_closes_at_threshold as [Hstep _].
  destruct (Hstep uniform2500 1000 10%nat
              (sampleProcessed 1000 None) (sampleProcessed 900 None)
              [] 0%nat 900) as [Hclose _];
    [lia | reflexivity | reflexivity | reflexivity |].
  apply Hclose. vm_compute. discriminate.
Defined.


(** [smoothing_causal_trailing] at index 1 of [threeSamples]. *)
Lemma smoothing_causal_trailing_witness :
  exists p m,
    nth_error (computeMetrics sampleDistance threeSamples) 1 = Some p
    /\ rawAt sampleDistance threeSamples 1 = Some m
    /\ pace p
       == trailingAverage
            (map pace (firstn 1 (computeMetrics sampleDistance threeSamples)))
            (rawPace m) (10 / 2).
Proof.
  destruct (smoothing_causal_trailing sampleDistance) as [Hsmooth _].
  eexists. eexists. split; [reflexivity |]. split; [reflexivity |].
  apply (Hsmooth threeSamples 1%nat); reflexivity.
Defined.

(** [zero_heart_rate_is_absent] at index 2 of the processed [threeSamples]. *)
Lemma zero_heart_rate_is_absent_witness :
  exists p q,
    nth_error (computeMetrics sampleDistance threeSamples) 2 = Some p
    /\ hr (point p) = Some 0
    /\ nth_error
         (normalizeMetrics (computeMetrics sampleDistance threeSamples)) 2
       = Some q
    /\ normalizedHR q = None
    /\ In 0 (hrPopulation (computeMetrics sampleDistance threeSamples)).
Proof.
  destruct (zero_heart_rate_is_absent sampleDistance) as [Hzero _].
  eexists. eexists. split; [reflexivity |]. split; [reflexivity |].
  split; [reflexivity |].
  eapply (Hzero (computeMetrics sampleDistance threeSamples) 2%nat);
    reflexivity.
Defined.

(** [adapters_drop_only_NaN] on [tcxOutOfRange]. *)
Lemma adapters_drop_only_NaN_witness :
  exists a p,
    parseTCXFile sampleDistance "ride" [tcxOutOfRange] = inr a
    /\ In p (Activity.points a)
    /\ isNaN (lat p) = false /\ isNaN (lng p) = false.
Proof.
  destruct (adapters_drop_only_NaN sampleDistance) as [Htcx _].
  eexists. eexists. split; [reflexivity |].
  split; [left; reflexivity |].
  eapply (Htcx "ride"%string [tcxOutOfRange]);
    [reflexivity | left; reflexivity].
Defined.

(** [parseFITFile_integrity_first] on [fitCorrupt]. *)
Lemma parseFITFile_integrity_first_witness :
  Fit.checkIntegrity fitCorrupt = false
  /\ parseFITFile sampleDistance "ride" fitCorrupt
     = ([Fit.CheckIntegrity], inl (Error "FIT file integrity check failed")).
Proof.
  split; [reflexivity |].
  destruct (parseFITFile_integrity_first sampleDistance "ride" fitCorrupt)
    as [Hfail _].
  apply Hfail. reflexivity.
Defined.

(** C3 as stated fails: each adapter returns an activity that holds a point
    outside latitude [[-90, 90]] or longitude [[-180, 180]]. *)
Lemma adapters_store_out_of_range :
  (exists a p,
      parseTCXFile sampleDistance "ride" [tcxOutOfRange] = inr a
      /\ In p (Activity.points a) /\ ~ inRange p)
  /\ (exists a p,
        snd (parseFITFile sampleDistance "ride" fitOutOfRange) = inr a
        /\ In p (Activity.points a) /\ ~ inRange p)
  /\ (exists a p,
        parseGPXFile sampleDistance "ride" [gpxOutOfRange] = inr a
        /\ In p (Activity.points a) /\ ~ inRange p).
Proof.
  repeat apply conj;
    (eexists; eexists; split; [reflexivity |];
     split; [left; reflexivity |];
     intros [[_ H] _]; vm_compute in H; apply H; reflexivity).
Qed.


(** C4 (not met by the code).  The TCX adapter on a file of two trackpoints
    600 s and 100 units apart, whose lap gives neither [DistanceMeters] nor
    [TotalTimeSeconds]: no total is authoritative, the stored [totalTime]
    is the 600 s between the timestamps and the stored [totalDistance] is
    the recomputed 100, but the stored [averagePace] is infinite, where
    [totalTime / totalDistance] is 6: the quotient is taken over the sum of
    the lap distances, which is 0.  The GPX adapter on two points with the
    same times stores the quotient of the two totals. *)
Theorem calculateTCXMetrics_pace_without_lap_totals :
  (exists a,
      parseTCXFile sampleDistance "ride" [tcxWithoutLapTotals] = inr a
      /\ Activity.totalTime a == 600
      /\ Activity.totalDistance a = 100
      /\ Activity.averagePace a = PosInf
      /\ (exists q,
            jsdiv (Activity.totalTime a) (Activity.totalDistance a) = Fin q
            /\ q == 6)
      /\ Activity.averagePace a
         <> jsdiv (Activity.totalTime a) (Activity.totalDistance a))
  /\ (exists b,
        parseGPXFile sampleDistance "run" [gpxTenMinutes] = inr b
        /\ Activity.totalTime b == 600
        /\ Activity.totalDistance b == 100
        /\ Activity.averagePace b
           = jsdiv (Activity.totalTime b) (Activity.totalDistance b)).
Proof.
  split.
  - eexists. split; [reflexivity |].
    split; [reflexivity |]. split; [reflexivity |]. split; [reflexivity |].
    split; [eexists; split; reflexivity | discriminate].
  - eexists. split; [reflexivity |]. repeat split.
Qed.

(* ----------------------------------------------------------------- *)
(** *** Concrete runs of the further properties *)

Lemma percentile_is_a_value_witness :
  0 <= 1 # 2 /\ 1 # 2 < 1
  /\ exists v, In v [30; 10; 20] /\ percentile [30; 10; 20] (1 # 2) == v.
Proof.
  split; [discriminate |]. split; [reflexivity |].
  apply (percentile_is_a_value [30; 10; 20] (1 # 2));
    [discriminate | reflexivity | discriminate].
Defined.

Lemma percentile_monotone_witness :
  percentile [30; 10; 20] (5 # 100) <= percentile [30; 10; 20] (95 # 100).
Proof.
  apply (percentile_monotone [30; 10; 20] (5 # 100) (95 # 100));
    [discriminate | discriminate | reflexivity].
Defined.

Lemma normalize_saturates_monotone_witness :
  10 < 30 /\ normalize 5 10 30 == 0 /\ normalize 40 10 30 == 1
  /\ normalize 15 10 30 <= normalize 20 10 30.
Proof.
  split; [reflexivity |].
  destruct (normalize_saturates_monotone 10 30 eq_refl)
    as (Hlow & Hhigh & Hmono).
  split; [apply Hlow; discriminate |].
  split; [apply Hhigh; discriminate | apply Hmono; discriminate].
Defined.

Lemma computeMetrics_nonneg_witness :
  exists p,
    In p (computeMetrics sampleDistance threeSamples)
    /\ 0 <= distance p /\ 0 <= speed p /\ 0 <= pace p.
Proof.
  eexists. split; [right; left; reflexivity |].
  apply (computeMetrics_nonneg sampleDistance) with (points := threeSamples);
    [intros p1 p2; vm_compute; discriminate | right; left; reflexivity].
Defined.

Lemma computeMetrics_last_distance_is_total_witness :
  exists p,
    nth_error (computeMetrics sampleDistance threeSamples)
      (length threeSamples - 1) = Some p
    /\ distance p == sumDistance (totalsOf sampleDistance threeSamples).
Proof.
  eexists. split; [reflexivity |].
  apply (computeMetrics_last_distance_is_total sampleDistance threeSamples).
  reflexivity.
Defined.

Lemma computeMetrics_speed_edges_witness :
  let points := [ samplePoint (Some 50000%Z) None;
                  samplePoint (Some 30000%Z) None ] in
  exists p,
    nth_error (computeMetrics sampleDistance points) 1 = Some p
    /\ speed p = 0.
Proof.
  cbv zeta. eexists. split; [reflexivity |].
  eapply (proj1 (computeMetrics_speed_edges sampleDistance
                   [ samplePoint (Some 50000%Z) None;
                     samplePoint (Some 30000%Z) None ] 0%nat _ _ _
                   eq_refl eq_refl eq_refl));
    [reflexivity | reflexivity | lia].
Defined.

Lemma rawGrade_zero_elevation_witness :
  let sea := mkPoint (Fin 0) (Fin 0) (Some 0) None None None None None in
  let hill := mkPoint (Fin 0) (Fin 1) (Some 80) None None None None None in
  zeroOrAbsent (ele sea)
  /\ rawGrade (rawMetrics sampleDistance 1 sea hill) == 0.
Proof.
  cbv zeta. split; [reflexivity |].
  apply (rawGrade_zero_elevation sampleDistance). right. reflexivity.
Defined.

Lemma detectSplits_count_bound_witness :
  inject_Z (Z.of_nat (length (detectSplits uniform2500 1000))) * 1000
  <= distanceAt uniform2500 (length uniform2500 - 1)
     - distanceAt uniform2500 0.
Proof.
  apply (detectSplits_count_bound uniform2500 1000).
  intros i j pi pj Hij Hi Hj.
  assert (Hd : forall k p, nth_error uniform2500 k = Some p ->
                 distance p = inject_Z (Z.of_nat k) * 100).
  { intros k p Hk. unfold uniform2500 in Hk. rewrite nth_error_map in Hk.
    rewrite nth_error_seq in Hk.
    destruct (Nat.ltb k 26); [| discriminate].
    unfold option_map in Hk. injection Hk as <-. reflexivity. }
  rewrite (Hd i pi Hi), (Hd j pj Hj).
  apply Qmult_le_compat_r; [| discriminate].
  rewrite <- Zle_Qle. lia.
Defined.

Lemma findFastestSplit_minimum_witness :
  exists s,
    findFastestSplit (detectSplits uniform2500 1000) = Some s
    /\ In s (detectSplits uniform2500 1000)
    /\ forall t, In t (detectSplits uniform2500 1000) ->
                 Split.pace s <= Split.pace t.
Proof.
  eexists. split; [reflexivity |].
  apply (findFastestSplit_minimum (detectSplits uniform2500 1000)).
  reflexivity.
Defined.

Lemma findMaxHRSegment_window_witness :
  exists seg,
    findMaxHRSegment gappedHeartRate = Some seg
    /\ Segment.startIndex seg = 0%nat /\ Segment.endIndex seg = 2%nat
    /\ Segment.description seg = MaxHRDescription 150.
Proof.
  destruct (findMaxHRSegment_window gappedHeartRate) as [Hsome _].
  destruct Hsome as [seg Hseg].
  { exists (sampleProcessed 0 (Some 150)), 150.
    split; [now left |]. split; reflexivity. }
  exists seg. split; [exact Hseg |].
  vm_compute in Hseg. injection Hseg as <-. repeat split.
Defined.

Lemma findSteepestClimb_is_climb_witness :
  0 < 100
  /\ exists seg,
       findSteepestClimb climbingTrack 100 = Some seg
       /\ exists ps pe es ee,
            (Segment.startIndex seg < Segment.endIndex seg)%nat
            /\ nth_error climbingTrack (Segment.startIndex seg) = Some ps
            /\ nth_error climbingTrack (Segment.endIndex seg) = Some pe
            /\ ele (point ps) = Some es /\ ele (point pe) = Some ee
            /\ es < ee
            /\ Segment.distance seg = distance pe - distance ps
            /\ 100 <= Segment.distance seg
            /\ Segment.grade seg = ((ee - es) / Segment.distance seg) * 100
            /\ 0 < Segment.grade seg.
Proof.
  split; [reflexivity |]. eexists. split; [reflexivity |].
  apply (findSteepestClimb_is_climb climbingTrack 100); reflexivity.
Defined.

Lemma findSteepestClimb_no_ascent_witness :
  findSteepestClimb descendingTrack 100 = None.
Proof.
  apply (findSteepestClimb_no_ascent descendingTrack 100).
  intros i j pi pj ei ej Hij Hi Hj Hei Hej.
  destruct i as [| [| [| i]]], j as [| [| [| j]]]; try lia;
    cbn in Hi, Hj; try (destruct i; discriminate);
    try (destruct j; discriminate);
    injection Hi as <-; injection Hj as <-; cbn in Hei, Hej;
    injection Hei as <-; injection Hej as <-; discriminate.
Defined.

Lemma processActivity_degenerate_witness :
  let activity :=
    Activity.mk None None [samplePoint None (Some 150)] 0 0 0 (Fin 0)
      None None emptyBox in
  ProcessedActivity.splits (processActivity sampleDistance activity) = []
  /\ ProcessedActivity.steepestClimb (processActivity sampleDistance activity)
     = None.
Proof.
  cbv zeta.
  destruct (processActivity_degenerate sampleDistance
              (Activity.mk None None [samplePoint None (Some 150)] 0 0 0
                 (Fin 0) None None emptyBox))
    as (_ & _ & Hsplits & _ & Hclimb); [cbn; lia |].
  split; assumption.
Defined.

Lemma processActivity_split_count_witness :
  inject_Z (Z.of_nat (length (ProcessedActivity.splits
                                (processActivity sampleDistance
                                   sampleActivity)))) * 1000
  <= sumDistance (totalsOf sampleDistance (Activity.points sampleActivity)).
Proof.
  apply (processActivity_split_count sampleDistance).
  intros p1 p2. vm_compute. discriminate.
Defined.

Lemma adapters_need_points_witness :
  exists a,
    parseGPXFile sampleDistance "run" [gpxTenMinutes] = inr a
    /\ Activity.points a <> [].
Proof.
  destruct (adapters_need_points sampleDistance) as [Hgpx _].
  eexists. split; [reflexivity |].
  apply (Hgpx "run"%string [gpxTenMinutes]). reflexivity.
Defined.

Lemma parseGPXFile_concatenates_witness :
  exists a,
    parseGPXFile sampleDistance "run" [gpxTenMinutes; gpxOutOfRange] = inr a
    /\ length (Activity.points a)
       = length (flat_map gpxCoords [gpxTenMinutes; gpxOutOfRange]).
Proof.
  eexists. split; [reflexivity |].
  apply (parseGPXFile_concatenates sampleDistance "run"
           [gpxTenMinutes; gpxOutOfRange]).
  reflexivity.
Defined.

Lemma parseGPXFile_ignores_other_geometry_witness :
  Gpx.geometry gpxWaypoint = Gpx.OtherGeometry
  /\ parseGPXFile sampleDistance "run" ([gpxTenMinutes] ++ gpxWaypoint :: [])
     = parseGPXFile sampleDistance "run" ([gpxTenMinutes] ++ []).
Proof.
  split; [reflexivity |].
  apply (parseGPXFile_ignores_other_geometry sampleDistance "run"
           [gpxTenMinutes] [] gpxWaypoint); [reflexivity | discriminate].
Defined.

Lemma convertSemicirclesToDegrees_range_witness :
  exists d,
    convertSemicirclesToDegrees (Some 1073741824) = Fin d
    /\ -180 <= d /\ d <= 180.
Proof.
  destruct convertSemicirclesToDegrees_range as (_ & Hrange & _).
  destruct (Hrange 1073741824) as (d & Hd & _ & Hbound).
  exists d. split; [exact Hd |].
  apply Hbound; discriminate.
Defined.

Lemma fitRecord_field_resolution_witness :
  (zeroOrAbsent (Fit.positionLat fitEquator)
   /\ zeroOrAbsent (Fit.position_lat fitEquator)
   /\ Fit.enhancedLatitude fitEquator = None
   /\ fitRecord fitEquator = [])
  /\ (zeroOrAbsent (Fit.positionLat fitEquatorEnhanced)
      /\ zeroOrAbsent (Fit.position_lat fitEquatorEnhanced)
      /\ Fit.enhancedLatitude fitEquatorEnhanced = Some 0
      /\ lat (fitPoint fitEquatorEnhanced) = Fin ((0 * 180) / 2147483648)
      /\ fitRecord fitEquatorEnhanced = [fitPoint fitEquatorEnhanced]).
Proof.
  split.
  - split; [reflexivity |]. split; [exact I |]. split; [reflexivity |].
    destruct (fitRecord_field_resolution fitEquator)
      as (_ & _ & _ & Hdrop & _).
    apply Hdrop; [reflexivity | exact I | reflexivity].
  - split; [exact I |]. split; [exact I |]. split; [reflexivity |].
    destruct (fitRecord_field_resolution fitEquatorEnhanced)
      as (_ & _ & _ & _ & Hkeep & _).
    destruct (Hkeep I I 0 eq_refl) as [Hlat Hstored].
    split; [exact Hlat | apply Hstored; reflexivity].
Defined.

Lemma parseFITFile_session_totals_witness :
  exists a,
    snd (parseFITFile sampleDistance "ride" fitWithSession) = inr a
    /\ Activity.totalDistance a = 5000
    /\ Activity.totalTime a = 1500
    /\ Activity.averagePace a
       = (if Qlt_bool 0 (elapsedSeconds (Activity.points a))
          then jsdiv (elapsedSeconds (Activity.points a))
                 (sumDistance (totalsOf sampleDistance (Activity.points a)))
          else Fin 0).
Proof.
  eexists. split; [reflexivity |].
  destruct (parseFITFile_session_totals sampleDistance "ride" fitWithSession
              _ eq_refl) as (Hd & Ht & Hpace).
  split; [| split].
  - eapply Hd; [reflexivity | reflexivity | discriminate].
  - eapply Ht; [reflexivity | reflexivity | discriminate].
  - exact Hpace.
Defined.

Lemma parseTCXFile_point_fields_witness :
  exists a p,
    parseTCXFile sampleDistance "ride" [tcxWithExtensions] = inr a
    /\ In p (Activity.points a)
    /\ (temp p = None \/ temp p = power p)
    /\ (forall e, ele p = Some e -> ~ e == 0)
    /\ (forall h, hr p = Some h -> exists z, h = inject_Z z).
Proof.
  eexists. eexists. split; [reflexivity |].
  split; [left; reflexivity |].
  eapply (parseTCXFile_point_fields sampleDistance "ride"
            [tcxWithExtensions]);
    [reflexivity | left; reflexivity].
Defined.

Lemma parseTCXFile_pace_without_lap_distance_witness :
  exists a,
    parseTCXFile sampleDistance "ride" [tcxWithoutLapTotals] = inr a
    /\ 0 < Activity.totalTime a
    /\ Activity.averagePace a = PosInf
    /\ Activity.totalDistance a
       = sumDistance (totalsOf sampleDistance (Activity.points a)).
Proof.
  eexists. split; [reflexivity |]. split; [reflexivity |].
  eapply (parseTCXFile_pace_without_lap_distance sampleDistance "ride"
            tcxWithoutLapTotals []);
    [reflexivity | reflexivity | | reflexivity].
  repeat constructor.
Defined.

Lemma elevation_gain_nonneg_witness :
  exists s,
    In s (detectSplits climbingTrack 100) /\ 0 <= Split.elevationGain s.
Proof.
  destruct (elevation_gain_nonneg sampleDistance) as (_ & _ & Hsplit).
  eexists. split; [left; reflexivity |].
  apply (Hsplit climbingTrack 100). left. reflexivity.
Defined.

Lemma calculateEffortLevel_pace_floor_witness :
  exists a,
    parseGPXFile sampleDistance "run" [gpxSinglePoint] = inr a
    /\ Activity.totalTime a <= 0
    /\ calculateEffortLevel (processActivity sampleDistance a) <> easy.
Proof.
  destruct (calculateEffortLevel_pace_floor sampleDistance) as [_ Hgpx].
  eexists. split; [reflexivity |]. split; [discriminate |].
  apply (Hgpx "run"%string [gpxSinglePoint]); [reflexivity | discriminate].
Defined.

Lemma detectAchievements_shape_witness :
  exists a,
    parseGPXFile sampleDistance "run" [gpxSinglePoint] = inr a
    /\ Activity.totalTime a <= 0
    /\ exists ach,
         In ach (detectAchievements (processActivity sampleDistance a))
         /\ Achievement.id ach = "speed_demon"%string.
Proof.
  destruct (detectAchievements_shape sampleDistance) as (_ & _ & Hgpx).
  eexists. split; [reflexivity |]. split; [discriminate |].
  apply (Hgpx "run"%string [gpxSinglePoint]); [reflexivity | discriminate].
Defined.

Lemma getHRZoneColor_zones_witness :
  0 < 200 /\ 70 * 200 <= 150 * 100 /\ 150 * 100 < 80 * 200
  /\ getHRZoneColor 150 200 = "#fbbf24"%string.
Proof.
  split; [reflexivity |]. split; [discriminate |]. split; [reflexivity |].
  destruct (getHRZoneColor_zones 150 200) as (_ & Hzones & _).
  destruct (Hzones eq_refl) as (_ & _ & Hthird & _).
  apply Hthird; [discriminate | reflexivity].
Defined.
